(** * Approved-listing retrieval and normalization

    A shallow embedding of the public listing service of the RV-park
    marketplace (the module exporting [fetchApprovedListings],
    [fetchFeaturedApprovedListings], [fetchApprovedListingById] and
    [countApprovedListings]) and the proofs of its specification.

    The remote store and the object storage are external: they appear as a
    [SupabaseClient] value that every operation receives.  Exceptions and
    promise rejections are completions ([Ret] / [Throw]); [try]/[catch] is
    [try_catch]. *)

From Stdlib Require Import ZArith QArith Lia Ascii String.
From Stdlib Require OrderedTypeEx.
From stdpp Require Import base option list strings sorting.

Set Default Proof Using "Type".

(** ** JavaScript prelude *)

Module Js.

(** A thrown value: an error with its constructor name and message. *)
Record exn := JsError { err_name : string; err_message : string }.

(** The outcome of evaluating an expression or awaiting a promise. *)
Inductive completion (A : Type) : Type :=
| Ret (a : A)
| Throw (e : exn).
Global Arguments Ret {A} a.
Global Arguments Throw {A} e.

Definition bind {A B} (c : completion A) (k : A -> completion B) : completion B :=
  match c with
  | Ret a => k a
  | Throw e => Throw e
  end.

(** [try { c } catch (e) { h e }] *)
Definition try_catch {A} (c : completion A) (h : exn -> completion A) : completion A :=
  match c with
  | Ret a => Ret a
  | Throw e => h e
  end.

(** [Array.prototype.map] with a callback that may throw: elements are
    visited left to right and the first exception aborts the traversal. *)
Fixpoint array_map {A B} (f : A -> completion B) (l : list A) : completion (list B) :=
  match l with
  | [] => Ret []
  | x :: t =>
      bind (f x) (fun y => bind (array_map f t) (fun ys => Ret (y :: ys)))
  end.

(** [Array.prototype.findIndex]: the index of the first element satisfying
    the predicate, or -1. *)
Fixpoint findIndex_from {A} (p : A -> bool) (l : list A) (i : Z) : Z :=
  match l with
  | [] => (-1)%Z
  | x :: t => if p x then i else findIndex_from p t (i + 1)%Z
  end.

Definition findIndex {A} (p : A -> bool) (l : list A) : Z := findIndex_from p l 0%Z.

(** [arr.filter(item => item !== null)] on an array of records-or-null. *)
Fixpoint filter_not_null {A} (l : list (option A)) : list A :=
  match l with
  | [] => []
  | Some a :: t => a :: filter_not_null t
  | None :: t => filter_not_null t
  end.

(** Numbers are the finite values a JSON payload or a form control can
    carry, as rationals; only comparisons and zero tests are used. *)
Definition number := Q.

Definition num_gt (a b : number) : bool := negb (Qle_bool a b).
Definition num_lt (a b : number) : bool := negb (Qle_bool b a).
Definition num_is_zero (a : number) : bool := Qeq_bool a 0%Q.

(** [x || d] on a string-or-null: the empty string is falsy. *)
Definition str_or (x : option string) (d : string) : string :=
  match x with
  | Some s => if String.eqb s "" then d else s
  | None => d
  end.

(** [x || d] on a number-or-null: zero is falsy. *)
Definition num_or (x : option number) (d : number) : number :=
  match x with
  | Some n => if num_is_zero n then d else n
  | None => d
  end.

(** Truthiness of a string-or-undefined, as in [s && ...]. *)
Definition str_truthy (x : option string) : bool :=
  match x with
  | Some s => negb (String.eqb s "")
  | None => false
  end.

(** Truthiness of a boolean-or-null. *)
Definition bool_truthy (x : option bool) : bool :=
  match x with
  | Some b => b
  | None => false
  end.

(** White space and line terminators among the 8-bit code units:
    TAB, LF, VT, FF, CR, SP and NBSP. *)
Definition is_white_space (c : ascii) : bool :=
  let n := nat_of_ascii c in
  ((9 <=? n)%nat && (n <=? 13)%nat) || (n =? 32)%nat || (n =? 160)%nat.

Fixpoint trim_start_list (l : list ascii) : list ascii :=
  match l with
  | [] => []
  | c :: t => if is_white_space c then trim_start_list t else l
  end.

(** [String.prototype.trim] *)
Definition trim (s : string) : string :=
  string_of_list_ascii
    (rev (trim_start_list (rev (trim_start_list (list_ascii_of_string s))))).

End Js.
Export Js.

Global Instance completion_ret : MRet completion := @Ret.
Global Instance completion_bind : MBind completion := fun A B k c => bind c k.

(** Method chaining: [q |> m] is [q.m]. *)
Notation "q |> m" := (m q) (at level 45, left associativity, only parsing).

(** ** The store's query interface *)

Module Postgrest.

(** One filter appended to a request. *)
Inductive Filter : Type :=
| F_eq (column value : string)
| F_gte (column : string) (value : number)
| F_lte (column : string) (value : number)
| F_or (filters : string).

(** A read request under construction: each builder call returns the
    request extended by what the call appends. *)
Record Query := mkQuery {
  q_table : string;
  q_columns : string;
  q_count : option string;
  q_head : bool;
  q_filters : list Filter;
  q_order : list (string * bool);
  q_limit : option Z;
  q_single : bool
}.

Definition from (table : string) : Query :=
  mkQuery table "" None false [] [] None false.

Definition select (columns : string) (q : Query) : Query :=
  mkQuery (q_table q) columns (q_count q) (q_head q) (q_filters q)
    (q_order q) (q_limit q) (q_single q).

Definition select_opts (columns : string) (count : option string) (head : bool)
    (q : Query) : Query :=
  mkQuery (q_table q) columns count head (q_filters q)
    (q_order q) (q_limit q) (q_single q).

Definition add_filter (f : Filter) (q : Query) : Query :=
  mkQuery (q_table q) (q_columns q) (q_count q) (q_head q) (q_filters q ++ [f])
    (q_order q) (q_limit q) (q_single q).

Definition eq (column value : string) : Query -> Query := add_filter (F_eq column value).
Definition gte (column : string) (value : number) : Query -> Query :=
  add_filter (F_gte column value).
Definition lte (column : string) (value : number) : Query -> Query :=
  add_filter (F_lte column value).
Definition or (filters : string) : Query -> Query := add_filter (F_or filters).

Definition order (column : string) (ascending : bool) (q : Query) : Query :=
  mkQuery (q_table q) (q_columns q) (q_count q) (q_head q) (q_filters q)
    (q_order q ++ [(column, ascending)]) (q_limit q) (q_single q).

Definition limit (n : Z) (q : Query) : Query :=
  mkQuery (q_table q) (q_columns q) (q_count q) (q_head q) (q_filters q)
    (q_order q) (Some n) (q_single q).

Definition single (q : Query) : Query :=
  mkQuery (q_table q) (q_columns q) (q_count q) (q_head q) (q_filters q)
    (q_order q) (q_limit q) true.

Record PostgrestError := mkError { message : string; code : string }.

(** The object a request resolves to. *)
Record Response (D : Type) := mkResponse {
  data : option D;
  error : option PostgrestError;
  count : option Z
}.
Global Arguments mkResponse {D} _ _ _.
Global Arguments data {D} _.
Global Arguments error {D} _.
Global Arguments count {D} _.

End Postgrest.

(** ** Records of the listing service *)

(** The display-facing record. *)
Record Location := mkLocation {
  address : string;
  city : string;
  state : string;
  lat : number;
  lng : number
}.

Record Broker := mkBroker {
  avatar : string;
  name : string;
  phone : string;
  email : string;
  company : string;
  broker_id : string
}.

Record Listing := mkListing {
  id : string;
  title : string;
  description : string;
  price : number;
  location : Location;
  numSites : number;
  occupancyRate : number;
  annualRevenue : number;
  capRate : number;
  images : list string;
  videoUrl : option string;
  broker : Broker;
  pdfUrl : option string;
  createdAt : string;
  featured : bool;
  status : string
}.

Record ListingFilters := mkFilters {
  priceMin : option number;
  priceMax : option number;
  f_state : option string;
  sitesMin : option number;
  sitesMax : option number;
  capRateMin : option number;
  occupancyRateMin : option number;
  search : option string
}.

(** A row of [listing_images] as selected: [storage_path, is_primary]. *)
Record ImageRow := mkImageRow {
  storage_path : string;
  is_primary : option bool
}.

(** A row of [listings] as selected, with its nested image rows; every
    column but the key may be null. *)
Record RawListing := mkRaw {
  r_id : string;
  r_title : option string;
  r_description : option string;
  r_price : option number;
  r_address : option string;
  r_city : option string;
  r_state : option string;
  r_latitude : option number;
  r_longitude : option number;
  r_num_sites : option number;
  r_occupancy_rate : option number;
  r_annual_revenue : option number;
  r_cap_rate : option number;
  r_created_at : option string;
  r_status : option string;
  r_property_type : option string;
  r_user_id : option string;
  r_listing_images : option (list ImageRow)
}.

(** The client: how the store answers a request (a list of rows, one row
    after [single], or a bare count for a head request), and the storage
    service's public-URL derivation for a bucket and a path.  Each may
    throw. *)
Record SupabaseClient := mkClient {
  await_rows : Postgrest.Query -> completion (Postgrest.Response (list RawListing));
  await_single : Postgrest.Query -> completion (Postgrest.Response RawListing);
  await_head : Postgrest.Query -> completion (Postgrest.Response unit);
  getPublicUrl : string -> string -> completion string
}.

(** The column list every row request selects: the template literal of the
    three [select] calls, line breaks and indentation included. *)
Definition listing_columns : string :=
  "
        id, title, description, price, address, city, state, 
        latitude, longitude, num_sites, occupancy_rate, annual_revenue, 
        cap_rate, created_at, status, property_type, user_id,
        listing_images(storage_path, is_primary)
      ".

(** ** The four retrieval operations *)

Section Service.

Variable supabase : SupabaseClient.

(** The reading of the clock, [new Date().toISOString()]. *)
Variable now : string.

(** The request [fetchApprovedListings] builds before awaiting it. *)
Definition approved_query (filters : option ListingFilters) : Postgrest.Query :=
  let query :=
    Postgrest.from "listings"
      |> Postgrest.select listing_columns
      |> Postgrest.eq "status" "approved" in
  match filters with
  | Some filters =>
      let query :=
        match priceMin filters with
        | Some v => if num_gt v 0%Q then query |> Postgrest.gte "price" v else query
        | None => query
        end in
      let query :=
        match priceMax filters with
        | Some v => if num_lt v 10000000%Q then query |> Postgrest.lte "price" v else query
        | None => query
        end in
      let query :=
        match f_state filters with
        | Some s =>
            if str_truthy (Some s) && negb (String.eqb s "")
            then query |> Postgrest.eq "state" s else query
        | None => query
        end in
      let query :=
        match sitesMin filters with
        | Some v => if num_gt v 0%Q then query |> Postgrest.gte "num_sites" v else query
        | None => query
        end in
      let query :=
        match sitesMax filters with
        | Some v => if num_lt v 1000%Q then query |> Postgrest.lte "num_sites" v else query
        | None => query
        end in
      let query :=
        match capRateMin filters with
        | Some v => if num_gt v 0%Q then query |> Postgrest.gte "cap_rate" v else query
        | None => query
        end in
      let query :=
        match occupancyRateMin filters with
        | Some v => if num_gt v 0%Q then query |> Postgrest.gte "occupancy_rate" v else query
        | None => query
        end in
      match search filters with
      | Some s =>
          if str_truthy (Some s) && negb (String.eqb (trim s) "") then
            let searchTerm := "%" +:+ trim s +:+ "%" in
            query |> Postgrest.or
              ("title.ilike." +:+ searchTerm +:+ ",description.ilike." +:+ searchTerm
               +:+ ",city.ilike." +:+ searchTerm +:+ ",state.ilike." +:+ searchTerm)
          else query
      | None => query
      end
  | None => query
  end.

(** The body of the [try] block applied to each row by
    [fetchApprovedListings]. *)
Definition approved_item (listing : RawListing) : completion Listing :=
  images ←
    match r_listing_images listing with
    | Some imgs =>
        array_map
          (fun img => getPublicUrl supabase "listing-images" (storage_path img)) imgs
    | None => Ret []
    end;
  let primaryImageIndex :=
    match r_listing_images listing with
    | Some imgs =>
        if (0 <? length imgs)%nat
        then findIndex (fun img => bool_truthy (is_primary img)) imgs
        else (-1)%Z
    | None => (-1)%Z
    end in
  let images :=
    if (0 <? primaryImageIndex)%Z && (0 <? length images)%nat then
      match images !! Z.to_nat primaryImageIndex with
      | Some primaryImage => primaryImage :: delete (Z.to_nat primaryImageIndex) images
      | None => images
      end
    else images in
  Ret {|
    id := r_id listing;
    title := str_or (r_title listing) "Untitled Listing";
    description := str_or (r_description listing) "";
    price := num_or (r_price listing) 0%Q;
    location := {|
      address := str_or (r_address listing) "";
      city := str_or (r_city listing) "";
      state := str_or (r_state listing) "";
      lat := num_or (r_latitude listing) 0%Q;
      lng := num_or (r_longitude listing) 0%Q
    |};
    numSites := num_or (r_num_sites listing) 0%Q;
    occupancyRate := num_or (r_occupancy_rate listing) 0%Q;
    annualRevenue := num_or (r_annual_revenue listing) 0%Q;
    capRate := num_or (r_cap_rate listing) 0%Q;
    images := images;
    videoUrl := None;
    broker := {|
      broker_id := str_or (r_user_id listing) "";
      name := "Contact Agent";
      email := "contact@example.com";
      phone := "";
      company := "";
      avatar := "/default-avatar.png"
    |};
    pdfUrl := None;
    createdAt := str_or (r_created_at listing) now;
    featured := false;
    status := str_or (r_status listing) "approved"
  |}.

Definition fetchApprovedListings (filters : option ListingFilters)
    : completion (list Listing) :=
  try_catch
    (let query := approved_query filters in
     resp ← await_rows supabase query;
     match Postgrest.error resp with
     | Some _ => Ret []
     | None =>
         match Postgrest.data resp with
         | Some data =>
             if (0 <? length data)%nat then
               items ← array_map
                 (fun listing =>
                    try_catch (item ← approved_item listing; Ret (Some item))
                      (fun itemError => Ret None))
                 data;
               Ret (filter_not_null items)
             else Ret []
         | None => Ret []
         end
     end)
    (fun error => Ret []).

(** The request of [fetchFeaturedApprovedListings]. *)
Definition featured_query : Postgrest.Query :=
  Postgrest.from "listings"
    |> Postgrest.select listing_columns
    |> Postgrest.eq "status" "approved"
    |> Postgrest.order "created_at" false
    |> Postgrest.limit 3.

(** The body of the [try] block applied to each row by
    [fetchFeaturedApprovedListings]. *)
Definition featured_item (listing : RawListing) : completion Listing :=
  images ←
    match r_listing_images listing with
    | Some imgs =>
        array_map
          (fun img => getPublicUrl supabase "listing-images" (storage_path img)) imgs
    | None => Ret []
    end;
  let primaryImageIndex :=
    match r_listing_images listing with
    | Some imgs =>
        if (0 <? length imgs)%nat
        then findIndex (fun img => bool_truthy (is_primary img)) imgs
        else (-1)%Z
    | None => (-1)%Z
    end in
  let images :=
    if (0 <? primaryImageIndex)%Z && (0 <? length images)%nat then
      match images !! Z.to_nat primaryImageIndex with
      | Some primaryImage => primaryImage :: delete (Z.to_nat primaryImageIndex) images
      | None => images
      end
    else images in
  let broker := {|
    broker_id := str_or (r_user_id listing) "";
    name := "Contact Agent";
    email := "contact@example.com";
    phone := "";
    company := "";
    avatar := "/default-avatar.png"
  |} in
  Ret {|
    id := r_id listing;
    title := str_or (r_title listing) "Untitled Listing";
    description := str_or (r_description listing) "";
    price := num_or (r_price listing) 0%Q;
    location := {|
      address := str_or (r_address listing) "";
      city := str_or (r_city listing) "";
      state := str_or (r_state listing) "";
      lat := num_or (r_latitude listing) 0%Q;
      lng := num_or (r_longitude listing) 0%Q
    |};
    numSites := num_or (r_num_sites listing) 0%Q;
    occupancyRate := num_or (r_occupancy_rate listing) 0%Q;
    annualRevenue := num_or (r_annual_revenue listing) 0%Q;
    capRate := num_or (r_cap_rate listing) 0%Q;
    images := images;
    videoUrl := None;
    broker := broker;
    pdfUrl := None;
    createdAt := str_or (r_created_at listing) now;
    featured := true;
    status := str_or (r_status listing) "approved"
  |}.

Definition fetchFeaturedApprovedListings : completion (list Listing) :=
  try_catch
    (resp ← await_rows supabase featured_query;
     match Postgrest.error resp with
     | Some _ => Ret []
     | None =>
         match Postgrest.data resp with
         | Some data =>
             if (0 <? length data)%nat then
               items ← array_map
                 (fun listing =>
                    try_catch (item ← featured_item listing; Ret (Some item))
                      (fun itemError => Ret None))
                 data;
               Ret (filter_not_null items)
             else Ret []
         | None => Ret []
         end
     end)
    (fun error => Ret []).

(** The request of [fetchApprovedListingById]. *)
Definition by_id_query (id : string) : Postgrest.Query :=
  Postgrest.from "listings"
    |> Postgrest.select listing_columns
    |> Postgrest.eq "id" id
    |> Postgrest.eq "status" "approved"
    |> Postgrest.single.

(** The body of the inner [try] block of [fetchApprovedListingById]. *)
Definition by_id_item (data : RawListing) : completion Listing :=
  images ←
    match r_listing_images data with
    | Some imgs =>
        array_map
          (fun img => getPublicUrl supabase "listing-images" (storage_path img)) imgs
    | None => Ret []
    end;
  let primaryImageIndex :=
    match r_listing_images data with
    | Some imgs =>
        if (0 <? length imgs)%nat
        then findIndex (fun img => bool_truthy (is_primary img)) imgs
        else (-1)%Z
    | None => (-1)%Z
    end in
  let images :=
    if (0 <? primaryImageIndex)%Z && (0 <? length images)%nat then
      match images !! Z.to_nat primaryImageIndex with
      | Some primaryImage => primaryImage :: delete (Z.to_nat primaryImageIndex) images
      | None => images
      end
    else images in
  Ret {|
    id := r_id data;
    title := str_or (r_title data) "Untitled Listing";
    description := str_or (r_description data) "";
    price := num_or (r_price data) 0%Q;
    location := {|
      address := str_or (r_address data) "";
      city := str_or (r_city data) "";
      state := str_or (r_state data) "";
      lat := num_or (r_latitude data) 0%Q;
      lng := num_or (r_longitude data) 0%Q
    |};
    numSites := num_or (r_num_sites data) 0%Q;
    occupancyRate := num_or (r_occupancy_rate data) 0%Q;
    annualRevenue := num_or (r_annual_revenue data) 0%Q;
    capRate := num_or (r_cap_rate data) 0%Q;
    images := images;
    videoUrl := None;
    broker := {|
      broker_id := str_or (r_user_id data) "";
      name := "Contact Agent";
      email := "contact@example.com";
      phone := "";
      company := "";
      avatar := "/default-avatar.png"
    |};
    pdfUrl := None;
    createdAt := str_or (r_created_at data) now;
    featured := false;
    status := str_or (r_status data) "approved"
  |}.

Definition fetchApprovedListingById (id : string) : completion (option Listing) :=
  try_catch
    (resp ← await_single supabase (by_id_query id);
     match Postgrest.error resp with
     | Some _ => Ret None
     | None =>
         match Postgrest.data resp with
         | Some data =>
             try_catch (item ← by_id_item data; Ret (Some item))
               (fun processingError => Ret None)
         | None => Ret None
         end
     end)
    (fun error => Ret None).

(** The request of [countApprovedListings]: an exact head count. *)
Definition count_query : Postgrest.Query :=
  Postgrest.from "listings"
    |> Postgrest.select_opts "id" (Some "exact") true
    |> Postgrest.eq "status" "approved".

Definition countApprovedListings : completion Z :=
  try_catch
    (resp ← await_head supabase count_query;
     match Postgrest.error resp with
     | Some _ => Ret 0%Z
     | None =>
         Ret (match Postgrest.count resp with
              | Some c => if (c =? 0)%Z then 0%Z else c
              | None => 0%Z
              end)
     end)
    (fun error => Ret 0%Z).

End Service.

(** ** What the store is expected to honour

    The service relies on the store for filtering, ordering and limiting;
    these predicates say what a well-behaved store returns. *)

(** The text columns of a row by name; [None] for a null value. *)
Definition text_column (column : string) (r : RawListing) : option string :=
  if String.eqb column "id" then Some (r_id r)
  else if String.eqb column "title" then r_title r
  else if String.eqb column "description" then r_description r
  else if String.eqb column "address" then r_address r
  else if String.eqb column "city" then r_city r
  else if String.eqb column "state" then r_state r
  else if String.eqb column "created_at" then r_created_at r
  else if String.eqb column "status" then r_status r
  else if String.eqb column "property_type" then r_property_type r
  else if String.eqb column "user_id" then r_user_id r
  else None.

(** The numeric columns of a row by name. *)
Definition numeric_column (column : string) (r : RawListing) : option number :=
  if String.eqb column "price" then r_price r
  else if String.eqb column "latitude" then r_latitude r
  else if String.eqb column "longitude" then r_longitude r
  else if String.eqb column "num_sites" then r_num_sites r
  else if String.eqb column "occupancy_rate" then r_occupancy_rate r
  else if String.eqb column "annual_revenue" then r_annual_revenue r
  else if String.eqb column "cap_rate" then r_cap_rate r
  else None.

(** Every row answered to a request satisfies each of its equality filters. *)
Definition honours_eq (c : SupabaseClient) : Prop :=
  forall q resp rows,
    await_rows c q = Ret resp ->
    Postgrest.data resp = Some rows ->
    forall column value, Postgrest.F_eq column value ∈ Postgrest.q_filters q ->
    forall r, r ∈ rows -> text_column column r = Some value.

(** A request with a row limit is answered with at most that many rows. *)
Definition honours_limit (c : SupabaseClient) : Prop :=
  forall q resp rows n,
    await_rows c q = Ret resp ->
    Postgrest.data resp = Some rows ->
    Postgrest.q_limit q = Some n ->
    (length rows <= Z.to_nat n)%nat.

(** Descending order of two rows on creation time, for a comparison
    [later_eq x y] of timestamps ("x is not earlier than y"). *)
Definition created_desc (later_eq : string -> string -> Prop) (a b : RawListing) : Prop :=
  forall x y, r_created_at a = Some x -> r_created_at b = Some y -> later_eq x y.

(** A request ordered by [created_at] descending is answered with rows in
    that order: each row is not earlier than every row after it. *)
Definition honours_order (later_eq : string -> string -> Prop) (c : SupabaseClient) : Prop :=
  forall q resp rows,
    await_rows c q = Ret resp ->
    Postgrest.data resp = Some rows ->
    Postgrest.q_order q = [("created_at", false)] ->
    StronglySorted (created_desc later_eq) rows.

(** Every row answered carries its creation time. *)
Definition has_created_at (c : SupabaseClient) : Prop :=
  forall q resp rows,
    await_rows c q = Ret resp ->
    Postgrest.data resp = Some rows ->
    forall r, r ∈ rows -> str_truthy (r_created_at r) = true.

(** A request failed at the store: the promise rejected, or the response
    carries an error. *)
Definition store_failed {D} (outcome : completion (Postgrest.Response D)) : Prop :=
  match outcome with
  | Throw _ => True
  | Ret resp => is_Some (Postgrest.error resp)
  end.

(** ** Vocabulary of the statements *)

(** The result of a per-row [try]/[catch]: the record, or null. *)
Definition attempt {A B} (f : A -> completion B) (x : A) : option B :=
  match f x with
  | Ret y => Some y
  | Throw _ => None
  end.

Definition fmap_completion {A B} (f : A -> B) (c : completion A) : completion B :=
  x ← c; Ret (f x).

(** The first image flagged primary is at index [i]. *)
Definition first_primary_at (imgs : list ImageRow) (i : nat) : Prop :=
  (exists img, imgs !! i = Some img /\ bool_truthy (is_primary img) = true) /\
  forall j img, (j < i)%nat -> imgs !! j = Some img -> bool_truthy (is_primary img) = false.

(** The URLs of the image rows, in their order. *)
Definition resolve_all (c : SupabaseClient) (imgs : list ImageRow) : completion (list string) :=
  array_map (fun img => getPublicUrl c "listing-images" (storage_path img)) imgs.

Definition with_price (p : option number) (r : RawListing) : RawListing :=
  mkRaw (r_id r) (r_title r) (r_description r) p (r_address r) (r_city r)
    (r_state r) (r_latitude r) (r_longitude r) (r_num_sites r)
    (r_occupancy_rate r) (r_annual_revenue r) (r_cap_rate r) (r_created_at r)
    (r_status r) (r_property_type r) (r_user_id r) (r_listing_images r).

Definition with_featured (b : bool) (l : Listing) : Listing :=
  mkListing (id l) (title l) (description l) (price l) (location l) (numSites l)
    (occupancyRate l) (annualRevenue l) (capRate l) (images l) (videoUrl l)
    (broker l) (pdfUrl l) (createdAt l) b (status l).

(** The placeholder contact synthesized for a row. *)
Definition placeholder_broker (r : RawListing) : Broker :=
  {| broker_id := str_or (r_user_id r) "";
     name := "Contact Agent";
     email := "contact@example.com";
     phone := "";
     company := "";
     avatar := "/default-avatar.png" |}.

(** One condition of a disjunctive filter, [column.operator.pattern]. *)
Record OrCondition := mkCond {
  oc_column : string;
  oc_operator : string;
  oc_pattern : string
}.

Definition render_condition (c : OrCondition) : string :=
  oc_column c +:+ "." +:+ oc_operator c +:+ "." +:+ oc_pattern c.

(** The argument of [or]: the conditions separated by commas. *)
Definition render_or (conds : list OrCondition) : string :=
  String.concat "," (map render_condition conds).

(** The conditions a search term stands for. *)
Definition search_columns : list string := ["title"; "description"; "city"; "state"].

Definition search_conditions (term : string) : list OrCondition :=
  map (fun column => mkCond column "ilike" ("%" +:+ term +:+ "%")) search_columns.

(** A row satisfies a disjunctive group when one of its conditions matches
    the named text column, for the store's pattern matcher [ilike]. *)
Definition condition_holds (ilike : string -> string -> bool) (c : OrCondition)
    (r : RawListing) : bool :=
  String.eqb (oc_operator c) "ilike" &&
  match text_column (oc_column c) r with
  | Some v => ilike (oc_pattern c) v
  | None => false
  end.

Definition or_holds (ilike : string -> string -> bool) (conds : list OrCondition)
    (r : RawListing) : bool :=
  existsb (fun c => condition_holds ilike c r) conds.

(** The filters [fetchApprovedListings] appends, one optional part per
    recognized key. *)
Definition lower_bound_part (column : string) (v : option number) : list Postgrest.Filter :=
  match v with
  | Some v => if num_gt v 0%Q then [Postgrest.F_gte column v] else []
  | None => []
  end.

Definition upper_bound_part (column : string) (sentinel : number) (v : option number)
    : list Postgrest.Filter :=
  match v with
  | Some v => if num_lt v sentinel then [Postgrest.F_lte column v] else []
  | None => []
  end.

Definition state_part (s : option string) : list Postgrest.Filter :=
  match s with
  | Some s => if negb (String.eqb s "") then [Postgrest.F_eq "state" s] else []
  | None => []
  end.

Definition search_part (s : option string) : list Postgrest.Filter :=
  match s with
  | Some s =>
      if negb (String.eqb s "") && negb (String.eqb (trim s) "")
      then [Postgrest.F_or (render_or (search_conditions (trim s)))] else []
  | None => []
  end.

(** The disjunctive filters of a request. *)
Definition is_or (f : Postgrest.Filter) : bool :=
  match f with
  | Postgrest.F_or _ => true
  | _ => false
  end.

(** ** A reference store

    An in-memory store over a table of rows that evaluates requests the way
    the service expects of the remote one: conjunction of the filters,
    case-insensitive pattern matching in a disjunctive group, ordering on a
    text column, row limit, single row, head count.  It gives the contract
    predicates above an inhabitant and makes the examples run. *)

Module MemStore.

Definition lower (ch : ascii) : ascii :=
  let n := nat_of_ascii ch in
  if (65 <=? n)%nat && (n <=? 90)%nat then ascii_of_nat (n + 32) else ch.

(** Pattern matching with the wildcards [%] (any run) and [_] (any one). *)
Fixpoint like_list (pat s : list ascii) {struct pat} : bool :=
  match pat with
  | [] => match s with [] => true | _ :: _ => false end
  | p :: pat' =>
      if Ascii.eqb p "%"%char then
        (fix any_suffix (s : list ascii) : bool :=
           like_list pat' s ||
           match s with [] => false | _ :: s' => any_suffix s' end) s
      else
        match s with
        | [] => false
        | ch :: s' => (Ascii.eqb p "_"%char || Ascii.eqb p ch) && like_list pat' s'
        end
  end.

(** No wildcard among the characters. *)
Definition wildcard_free (l : list ascii) : bool :=
  forallb (fun x => negb (Ascii.eqb x "%"%char) && negb (Ascii.eqb x "_"%char)) l.

Definition ilike (pattern value : string) : bool :=
  like_list (map lower (list_ascii_of_string pattern))
    (map lower (list_ascii_of_string value)).

Fixpoint split_on (sep : ascii) (l : list ascii) : list (list ascii) :=
  match l with
  | [] => [[]]
  | ch :: t =>
      if Ascii.eqb ch sep then [] :: split_on sep t
      else match split_on sep t with
           | h :: r => (ch :: h) :: r
           | [] => [[ch]]
           end
  end.

Fixpoint break_at (sep : ascii) (l : list ascii) : option (list ascii * list ascii) :=
  match l with
  | [] => None
  | ch :: t =>
      if Ascii.eqb ch sep then Some ([], t)
      else match break_at sep t with
           | Some (a, b) => Some (ch :: a, b)
           | None => None
           end
  end.

Definition parse_condition (l : list ascii) : option OrCondition :=
  match break_at "."%char l with
  | Some (column, rest) =>
      match break_at "."%char rest with
      | Some (operator, pattern) =>
          Some (mkCond (string_of_list_ascii column) (string_of_list_ascii operator)
                  (string_of_list_ascii pattern))
      | None => None
      end
  | None => None
  end.

Definition parse_or (s : string) : option (list OrCondition) :=
  mapM parse_condition (split_on ","%char (list_ascii_of_string s)).

(** The character [ch] does not occur in [s]. *)
Definition free_of (ch : ascii) (s : string) : bool :=
  forallb (fun x => negb (Ascii.eqb x ch)) (list_ascii_of_string s).

(** A condition that renders unambiguously: no separator inside its column
    or operator, no comma inside its pattern. *)
Definition plain_condition (cd : OrCondition) : bool :=
  free_of "."%char (oc_column cd) && free_of ","%char (oc_column cd) &&
  free_of "."%char (oc_operator cd) && free_of ","%char (oc_operator cd) &&
  free_of ","%char (oc_pattern cd).

Definition row_matches (f : Postgrest.Filter) (r : RawListing) : bool :=
  match f with
  | Postgrest.F_eq column v =>
      match text_column column r with Some x => String.eqb x v | None => false end
  | Postgrest.F_gte column v =>
      match numeric_column column r with Some x => Qle_bool v x | None => false end
  | Postgrest.F_lte column v =>
      match numeric_column column r with Some x => Qle_bool x v | None => false end
  | Postgrest.F_or s =>
      match parse_or s with Some conds => or_holds ilike conds r | None => false end
  end.

Definition well_formed (f : Postgrest.Filter) : bool :=
  match f with
  | Postgrest.F_or s =>
      match parse_or s with
      | Some conds => forallb (fun cd => String.eqb (oc_operator cd) "ilike") conds
      | None => false
      end
  | _ => true
  end.

(** Order of two keys, a null key being the largest. *)
Definition key_le (x y : option string) : Prop :=
  match x, y with
  | _, None => True
  | None, Some _ => False
  | Some a, Some b => String.leb a b = true
  end.

Definition row_order (o : string * bool) (a b : RawListing) : Prop :=
  if o.2 then key_le (text_column o.1 a) (text_column o.1 b)
  else key_le (text_column o.1 b) (text_column o.1 a).

Global Instance key_le_dec x y : Decision (key_le x y).
Proof. destruct x, y; simpl; apply _. Defined.

Global Instance row_order_dec o a b : Decision (row_order o a b).
Proof. unfold row_order. destruct (o.2); apply _. Defined.

Definition select_rows (db : list RawListing) (q : Postgrest.Query) : list RawListing :=
  let rows :=
    List.filter (fun r => forallb (fun f => row_matches f r) (Postgrest.q_filters q)) db in
  let rows :=
    foldr (fun o rows => merge_sort (row_order o) rows) rows (Postgrest.q_order q) in
  match Postgrest.q_limit q with
  | Some n => take (Z.to_nat n) rows
  | None => rows
  end.

Definition bad_request : Postgrest.PostgrestError :=
  Postgrest.mkError "failed to parse filter" "PGRST100".

Definition not_single : Postgrest.PostgrestError :=
  Postgrest.mkError "JSON object requested, multiple (or no) rows returned" "PGRST116".

(** The public URL of an object; refuses an empty path. *)
Definition public_url (bucket path : string) : completion string :=
  if String.eqb path "" then Throw (JsError "Error" "empty object path")
  else Ret ("https://cdn.test/storage/v1/object/public/" +:+ bucket +:+ "/" +:+ path).

Definition client (db : list RawListing) : SupabaseClient :=
  {| await_rows q :=
       if forallb well_formed (Postgrest.q_filters q)
       then Ret (Postgrest.mkResponse (Some (select_rows db q)) None None)
       else Ret (Postgrest.mkResponse None (Some bad_request) None);
     await_single q :=
       if forallb well_formed (Postgrest.q_filters q) then
         match select_rows db q with
         | [r] => Ret (Postgrest.mkResponse (Some r) None None)
         | _ => Ret (Postgrest.mkResponse None (Some not_single) None)
         end
       else Ret (Postgrest.mkResponse None (Some bad_request) None);
     await_head q :=
       if forallb well_formed (Postgrest.q_filters q)
       then Ret (Postgrest.mkResponse None None
                   (Some (Z.of_nat (length (select_rows db q)))))
       else Ret (Postgrest.mkResponse None (Some bad_request) None);
     getPublicUrl := public_url |}.

(** A client whose every request is rejected in transit. *)
Definition offline : SupabaseClient :=
  {| await_rows _ := Throw (JsError "TypeError" "Failed to fetch");
     await_single _ := Throw (JsError "TypeError" "Failed to fetch");
     await_head _ := Throw (JsError "TypeError" "Failed to fetch");
     getPublicUrl := public_url |}.

(** A client that answers rows as they are, whatever the request asks. *)
Definition unfiltered (db : list RawListing) : SupabaseClient :=
  {| await_rows _ := Ret (Postgrest.mkResponse (Some db) None None);
     await_single _ :=
       match db with
       | r :: _ => Ret (Postgrest.mkResponse (Some r) None None)
       | [] => Ret (Postgrest.mkResponse None (Some not_single) None)
       end;
     await_head _ := Ret (Postgrest.mkResponse None None (Some (Z.of_nat (length db))));
     getPublicUrl := public_url |}.

(** Later-or-equal on timestamps of one format and zone. *)
Definition later_eq (x y : string) : Prop := String.leb y x = true.

(** Sample rows. *)
Definition image (path : string) (primary : bool) : ImageRow :=
  mkImageRow path (Some primary).

Definition park (key name town st : string) (cost : option number) (created : string)
    (status : string) (imgs : option (list ImageRow)) : RawListing :=
  mkRaw key (Some name) (Some "A quiet park") cost (Some "1 Main St") (Some town)
    (Some st) (Some 30.2%Q) (Some (-97.7)%Q) (Some 80%Q) (Some 92.5%Q)
    (Some 450000%Q) (Some 7.5%Q) (Some created) (Some status) (Some "rv_park")
    (Some "user-1") imgs.

Definition lakeside : RawListing :=
  park "a1" "Lakeside RV" "Austin" "TX" (Some 1200000%Q) "2024-03-01T10:00:00+00:00"
    "approved"
    (Some [image "a1/gate.jpg" false; image "a1/pool.jpg" false; image "a1/lake.jpg" true]).

Definition pines : RawListing :=
  park "b2" "Whispering Pines" "Bend" "OR" (Some 0%Q) "2024-05-20T08:30:00+00:00"
    "approved" None.

Definition austin_street : RawListing :=
  mkRaw "c3" (Some "Desert Rose") (Some "Dry and sunny") None (Some "9 Austin Ave")
    (Some "Tucson") (Some "AZ") None None None None None None
    (Some "2024-04-11T12:00:00+00:00") (Some "approved") None None (Some []).

Definition broken : RawListing :=
  park "d4" "Broken Images" "Reno" "NV" (Some 300000%Q) "2024-06-02T09:00:00+00:00"
    "approved" (Some [image "" true]).

Definition draft : RawListing :=
  park "e5" "Not Yet Public" "Austin" "TX" (Some 500000%Q) "2024-07-01T00:00:00+00:00"
    "pending" None.

Definition table : list RawListing := [lakeside; pines; austin_street; broken; draft].

Definition no_filters : ListingFilters :=
  mkFilters None None None None None None None None.

End MemStore.

(** ** More of the JavaScript prelude: string methods *)

Module JsString.

(** [s.startsWith(prefix)] *)
Fixpoint startsWith (s prefix : string) {struct prefix} : bool :=
  match prefix with
  | EmptyString => true
  | String p prefix' =>
      match s with
      | EmptyString => false
      | String ch s' => Ascii.eqb ch p && startsWith s' prefix'
      end
  end.

(** [s.substring(n)]: what is left of [s] after its first [n] characters. *)
Fixpoint substring (s : string) (n : nat) {struct n} : string :=
  match n with
  | O => s
  | S n' =>
      match s with
      | EmptyString => EmptyString
      | String _ s' => substring s' n'
      end
  end.

(** [s.endsWith(suffix)]: the suffix starts where the lengths say. *)
Definition endsWith (s suffix : string) : bool :=
  (String.length suffix <=? String.length s)%nat &&
  String.eqb (substring s (String.length s - String.length suffix)) suffix.

(** Truthiness of a string: the empty string is falsy. *)
Definition truthy (s : string) : bool := negb (String.eqb s "").

(** [arr.includes(x)] on strings. *)
Definition includes (arr : list string) (x : string) : bool :=
  existsb (fun y => String.eqb y x) arr.

End JsString.

(** ** URL helpers ([lib/url.ts]) *)

Module Url.

Section Environment.

(** [window.location.hostname], [window.location.origin],
    [window.location.pathname] and [import.meta.env.PROD]. *)
Variable hostname : string.
Variable origin : string.
Variable pathname : string.
Variable PROD : bool.

Definition isLocalhost : bool :=
  String.eqb hostname "localhost" || String.eqb hostname "127.0.0.1".

Definition isVercelProduction : bool :=
  PROD && String.eqb hostname "roverpass-park-sale.vercel.app".

Definition isRoverPassProduction : bool := String.eqb hostname "roverpass.com".

Definition getPathPrefix : string :=
  if isLocalhost then ""
  else if isVercelProduction then ""
  else if isRoverPassProduction then "/rv-parks-for-sale"
  else "/rv-parks-for-sale".

Definition getDomain : string :=
  if isLocalhost then origin
  else if isVercelProduction then "https://roverpass-park-sale.vercel.app"
  else if isRoverPassProduction then "https://roverpass.com"
  else "https://roverpass.com".

Definition PATH_PREFIX : string := getPathPrefix.
Definition DOMAIN : string := getDomain.

Definition isExternalRedirectRequired : bool :=
  let isTargetDomain := isLocalhost || isVercelProduction || isRoverPassProduction in
  negb isTargetDomain.

Definition getBasename : string := PATH_PREFIX.

Definition absoluteUrl (path : string) : string :=
  let processedPath :=
    if JsString.truthy PATH_PREFIX && JsString.startsWith path PATH_PREFIX
    then JsString.substring path (String.length PATH_PREFIX)
    else path in
  let normalizedPath :=
    if JsString.startsWith processedPath "/" then processedPath
    else "/" +:+ processedPath in
  normalizedPath.

Definition fullUrl (path : string) : string :=
  let normalizedPath := absoluteUrl path in
  DOMAIN +:+ PATH_PREFIX +:+ normalizedPath.

Definition hrefUrl (path : string) : string :=
  let normalizedPath := absoluteUrl path in
  PATH_PREFIX +:+ normalizedPath.

(** What a click handler can change: the default action of the event and
    [window.location.href]. *)
Record Page := mkPage {
  defaultPrevented : bool;
  href : string
}.

Definition handleLinkClick (page : Page) (to : string) : Page * bool :=
  if isExternalRedirectRequired
  then (mkPage true (fullUrl to), true)
  else (page, false).

Definition navigateTo (page : Page) (path : string) : Page :=
  if isExternalRedirectRequired
  then mkPage (defaultPrevented page) (fullUrl path)
  else mkPage (defaultPrevented page) (hrefUrl path).

Definition getCurrentPath : string :=
  let currentPath :=
    if JsString.truthy PATH_PREFIX && JsString.startsWith pathname PATH_PREFIX
    then JsString.substring pathname (String.length PATH_PREFIX)
    else pathname in
  if JsString.truthy currentPath then currentPath else "/".

End Environment.

Definition isExternalUrl (url : string) : bool :=
  JsString.startsWith url "http://" || JsString.startsWith url "https://"
  || JsString.startsWith url "//".

End Url.

(** ** The application shell ([App.tsx]) *)

Module App.

(** The domain gate of the routes. *)
Definition allowedDomains : list string :=
  ["localhost"; "127.0.0.1"; "park-sell-rover.lovable.app"].

Definition isAllowedDomain (hostname : string) : bool :=
  existsb
    (fun domain =>
       String.eqb hostname domain || JsString.endsWith hostname ("." +:+ domain))
    allowedDomains.

(** The router base of this version of the shell. *)
Definition getBasename : string := "".

Definition BASENAME : string := getBasename.

End App.

(** The second version of the shell kept in [src/src/App.tsx]: it has no
    domain gate and computes the router base from the host. *)
Module AppSecond.

Section Environment.

Variable hostname : string.
Variable PROD : bool.

Definition isLocalhost : bool :=
  String.eqb hostname "localhost" || String.eqb hostname "127.0.0.1".

Definition isVercelProduction : bool :=
  PROD && String.eqb hostname "roverpass-park-sale.vercel.app".

Definition PATH_PREFIX : string :=
  if isLocalhost || isVercelProduction then "" else "/rv-parks-for-sale".

End Environment.

End AppSecond.

(** The version of the shell in [src/unnamed/part_002]. *)
Module AppPart002.

Definition getBasename (hostname : string) (PROD : bool) : string :=
  let isLocalhost :=
    String.eqb hostname "localhost" || String.eqb hostname "127.0.0.1" in
  let isProduction := PROD in
  if isLocalhost then ""
  else if isProduction then "/rv-parks-for-sale"
  else "".

Definition BASENAME (hostname : string) (PROD : bool) : string :=
  getBasename hostname PROD.

End AppPart002.

(** ** Navigation of the header ([Header.tsx]) *)

Module Header.

Record NavItem := mkNavItem {
  name : string;
  path : string;
  exact : option bool;
  exclude : option (list string)
}.

Definition ensureTrailingSlash (path : string) : string :=
  if String.eqb path "/" then "/"
  else if JsString.endsWith path "/" then path else path +:+ "/".

Definition isRouteActive (item : NavItem) (pathname : string) : bool :=
  let normalizedPath := ensureTrailingSlash (path item) in
  let normalizedPathname := ensureTrailingSlash pathname in
  if bool_truthy (exact item) then String.eqb normalizedPathname normalizedPath
  else if
    match exclude item with
    | Some routes =>
        existsb
          (fun route =>
             let normalizedExclude := ensureTrailingSlash route in
             String.eqb normalizedPathname normalizedExclude
             || JsString.startsWith normalizedPathname normalizedExclude)
          routes
    | None => false
    end
  then false
  else
    String.eqb normalizedPathname normalizedPath
    || (negb (String.eqb normalizedPath "/")
        && JsString.startsWith normalizedPathname normalizedPath).

(** The path a click on an item navigates to. *)
Definition targetPath (item : NavItem) : string :=
  if String.eqb (path item) "/" then "/" else ensureTrailingSlash (path item).

(** The items of the bar, for a visitor and for a signed-in user. *)
Definition navItemsState (user : bool) : list NavItem :=
  let baseNavItems :=
    [ mkNavItem "Home" "/" (Some true) None;
      mkNavItem "RV Parks For Sale" "/listings" (Some false) (Some ["/listings/new"]);
      mkNavItem "Support" "/support" (Some false) None ] in
  if user then
    baseNavItems ++
    [ mkNavItem "Add Listing" "/listings/new" (Some true) None;
      mkNavItem "Broker Dashboard" "/broker/dashboard" (Some false) None ]
  else baseNavItems.

End Header.

(** ** More vocabulary for the listing service *)

(** A request with its filters replaced. *)
Definition with_filters (fs : list Postgrest.Filter) (q : Postgrest.Query) : Postgrest.Query :=
  Postgrest.mkQuery (Postgrest.q_table q) (Postgrest.q_columns q) (Postgrest.q_count q)
    (Postgrest.q_head q) fs (Postgrest.q_order q) (Postgrest.q_limit q)
    (Postgrest.q_single q).

(** The column a filter constrains; a disjunctive group names its own. *)
Definition filter_column (f : Postgrest.Filter) : option string :=
  match f with
  | Postgrest.F_eq column _ => Some column
  | Postgrest.F_gte column _ => Some column
  | Postgrest.F_lte column _ => Some column
  | Postgrest.F_or _ => None
  end.

(** The row answered to a single-row request satisfies each of its equality
    filters. *)
Definition honours_eq_single (c : SupabaseClient) : Prop :=
  forall q resp row,
    await_single c q = Ret resp ->
    Postgrest.data resp = Some row ->
    forall column value, Postgrest.F_eq column value ∈ Postgrest.q_filters q ->
    text_column column row = Some value.

(** The image rows of a row, none when the collection is null. *)
Definition image_rows (r : RawListing) : list ImageRow :=
  match r_listing_images r with
  | Some imgs => imgs
  | None => []
  end.

(** A stored empty string or zero replaced by null. *)
Definition blank_text (x : option string) : option string :=
  match x with
  | Some s => if String.eqb s "" then None else Some s
  | None => None
  end.

Definition blank_number (x : option number) : option number :=
  match x with
  | Some n => if num_is_zero n then None else Some n
  | None => None
  end.

(** The row with every empty or zero value of a defaulted column replaced
    by null. *)
Definition blank_defaults (r : RawListing) : RawListing :=
  mkRaw (r_id r) (blank_text (r_title r)) (blank_text (r_description r))
    (blank_number (r_price r)) (blank_text (r_address r)) (blank_text (r_city r))
    (blank_text (r_state r)) (blank_number (r_latitude r)) (blank_number (r_longitude r))
    (blank_number (r_num_sites r)) (blank_number (r_occupancy_rate r))
    (blank_number (r_annual_revenue r)) (blank_number (r_cap_rate r))
    (blank_text (r_created_at r)) (blank_text (r_status r)) (r_property_type r)
    (blank_text (r_user_id r)) (r_listing_images r).

(** ** Handlers as traces

    An event handler is modelled by what it does, in order: the state
    setters it calls, the toasts it shows, the requests it sends.  A request
    is an event together with the outcome the service gives it. *)

Module Traced.

Definition traced (E A : Type) : Type := list E * completion A.

Definition ret {E A} (a : A) : traced E A := ([], Ret a).

Definition bind {E A B} (m : traced E A) (k : A -> traced E B) : traced E B :=
  match m with
  | (t, Ret a) => let '(t', c) := k a in (t ++ t', c)
  | (t, Throw e) => (t, Throw e)
  end.

(** One observable step. *)
Definition emit {E} (ev : E) : traced E unit := ([ev], Ret tt).

(** [await] of a request: the request is seen, the outcome is the
    service's. *)
Definition await {E A} (ev : E) (outcome : completion A) : traced E A := ([ev], outcome).

(** [throw] *)
Definition throw {E A} (e : exn) : traced E A := ([], Throw e).

(** [try { m } catch (e) { h e }] *)
Definition try_catch {E A} (m : traced E A) (h : exn -> traced E A) : traced E A :=
  match m with
  | (t, Ret a) => (t, Ret a)
  | (t, Throw e) => let '(t', c) := h e in (t ++ t', c)
  end.

(** [try { m } finally { fin }]: the completion of [m] stands unless [fin]
    throws. *)
Definition finally {E A} (m : traced E A) (fin : traced E unit) : traced E A :=
  let '(t, c) := m in
  let '(t', c') := fin in
  (t ++ t', match c' with Ret _ => c | Throw e => Throw e end).

Definition trace {E A} (m : traced E A) : list E := m.1.
Definition outcome {E A} (m : traced E A) : completion A := m.2.

End Traced.

Global Instance traced_ret E : MRet (Traced.traced E) := @Traced.ret E.
Global Instance traced_bind E : MBind (Traced.traced E) :=
  fun A B k m => Traced.bind m k.

Module JsText.

(** [toLowerCase] on the 8-bit code units: the letters A-Z and the
    accented capitals of Latin-1 move 32 up, everything else stays. *)
Definition lower_char (ch : ascii) : ascii :=
  let n := nat_of_ascii ch in
  if ((65 <=? n) && (n <=? 90) || (192 <=? n) && (n <=? 214)
      || (216 <=? n) && (n <=? 222))%nat
  then ascii_of_nat (n + 32) else ch.

Fixpoint toLowerCase (s : string) : string :=
  match s with
  | EmptyString => EmptyString
  | String ch s' => String (lower_char ch) (toLowerCase s')
  end.

(** [s.split(sep).pop()]: what follows the last separator, the whole
    string when there is none. *)
Fixpoint after_last (sep : ascii) (s : string) (acc : string) : string :=
  match s with
  | EmptyString => acc
  | String ch s' =>
      if Ascii.eqb ch sep then after_last sep s' EmptyString
      else after_last sep s' (acc +:+ String ch EmptyString)
  end.

Definition split_pop (sep : ascii) (s : string) : string := after_last sep s EmptyString.

(** [s.substring(0, n)] *)
Fixpoint first_chars (n : nat) (s : string) : string :=
  match n, s with
  | S n', String ch s' => String ch (first_chars n' s')
  | _, _ => EmptyString
  end.

End JsText.

(** ** The profile page ([UserProfile]) *)

Module Profile.

Record File := mkFile {
  file_name : string;
  file_type : string;
  file_size : Z
}.

(** The stored row of a profile image, as far as the handlers read it. *)
Record ProfileImage := mkProfileImage {
  image_id : Z;
  storage_path : string
}.

Inductive Event : Type :=
| Toast (title description : string) (variant : option string)
| ReadAsDataURL (file : File)
| UploadProfileImage (file : File)
| SetIsDeletingImage (b : bool)
| SetIsDeleteDialogOpen (b : bool)
| SetProfileImage (image : option ProfileImage)
| ConsoleError (message : string)
| StorageRemove (bucket : string) (paths : list string)
| DbDelete (table : string) (key : Z).

Definition validTypes : list string :=
  ["image/jpeg"; "image/png"; "image/webp"; "image/jpg"].

Definition maxSize : Z := 5 * 1024 * 1024.

(** [handleImageSelect]: [files] is [event.target.files]. *)
Definition handleImageSelect (files : option (list File)) : list Event :=
  match (match files with Some fs => head fs | None => None end) with
  | None => []
  | Some file =>
      if negb (JsString.includes validTypes (file_type file)) then
        [Toast "Invalid file type" "Please select a JPG, PNG, or WebP image."
           (Some "destructive")]
      else if (file_size file >? maxSize)%Z then
        [Toast "File too large" "Please select an image smaller than 5MB."
           (Some "destructive")]
      else [ReadAsDataURL file; UploadProfileImage file]
  end.

(** The object path [uploadProfileImage] stores a file under, for the
    user's id and a fresh [uuidv4()]. *)
Definition fileExt (file : File) : string :=
  let popped := JsText.toLowerCase (JsText.split_pop "."%char (file_name file)) in
  if JsString.truthy popped then popped else "jpg".

Definition fileName (user_id uuid : string) (file : File) : string :=
  "profile_" +:+ user_id +:+ "_" +:+ JsText.first_chars 8 uuid +:+ "." +:+ fileExt file.

Definition filePath (user_id uuid : string) (file : File) : string :=
  user_id +:+ "/" +:+ fileName user_id uuid file.

(** What the storage and the database answer to the two requests of
    [deleteProfileImage]; each holds the [error] of the response. *)
Record DeleteService := mkDeleteService {
  storage_remove : list string -> completion (option Postgrest.PostgrestError);
  db_delete : Z -> completion (option Postgrest.PostgrestError)
}.

Definition deleteProfileImage (svc : DeleteService) (user : bool)
    (profileImage : option ProfileImage) : Traced.traced Event unit :=
  match user, profileImage with
  | true, Some profileImage =>
      _ ← Traced.emit (SetIsDeletingImage true);
      Traced.finally
        (Traced.try_catch
           (storageError ← Traced.await
              (StorageRemove "profile-images" [storage_path profileImage])
              (storage_remove svc [storage_path profileImage]);
            _ ← match storageError with
                | Some _ => Traced.emit (ConsoleError "Storage deletion error:")
                | None => mret tt
                end;
            dbError ← Traced.await (DbDelete "profile_images" (image_id profileImage))
                        (db_delete svc (image_id profileImage));
            _ ← match dbError with
                | Some err =>
                    Traced.throw (JsError "PostgrestError" (Postgrest.message err))
                | None => mret tt
                end;
            _ ← Traced.emit (SetProfileImage None);
            Traced.emit
              (Toast "Profile image deleted" "Your profile image has been removed." None))
           (fun error =>
              _ ← Traced.emit (ConsoleError "Error deleting profile image:");
              Traced.emit
                (Toast "Delete failed"
                   "There was a problem deleting your image. Please try again."
                   (Some "destructive"))))
        (_ ← Traced.emit (SetIsDeletingImage false);
         Traced.emit (SetIsDeleteDialogOpen false))
  | _, _ => mret tt
  end.

End Profile.

(** ** The newsletter form of the home page ([Index]) *)

Module Subscribe.

Inductive Event : Type :=
| PreventDefault
| SetFormError (message : option string)
| SetIsSubmittingEmail (b : bool)
| SetSubscriptionSuccess (b : bool)
| SetEmail (email : string)
| SetCaptchaToken (token : option string)
| ResetCaptcha
| ConsoleError (message : string)
| Toast (title description : string) (variant : option string)
| SelectSubscription (email : string)
| UpdateSubscription (email : string)
| InsertSubscription (email : string) (created_at : string).

(** What the store answers to the three requests: for the lookup the row
    found (if any) and the error, for the two writes the error. *)
Record Service := mkService {
  select_single : string -> completion (option unit * option Postgrest.PostgrestError);
  update : string -> completion (option Postgrest.PostgrestError);
  insert : string -> string -> completion (option Postgrest.PostgrestError)
}.

Section Form.

Variable svc : Service.

(** [re.test], for the pattern of [isValidEmail]. *)
Variable re_test : string -> bool.

(** The reading of the clock and whether the captcha widget is mounted. *)
Variable now : string.
Variable captchaMounted : bool.

Definition isValidEmail (email : string) : bool := re_test (JsText.toLowerCase email).

Definition resetCaptcha : Traced.traced Event unit :=
  if captchaMounted then Traced.emit ResetCaptcha else mret tt.

(** [handleSubscribe(e)] with the form state it closes over. *)
Definition handleSubscribe (e : bool) (email : string) (captchaToken : option string)
    : Traced.traced Event unit :=
  _ ← (if e then Traced.emit PreventDefault else mret tt);
  _ ← Traced.emit (SetFormError None);
  if negb (JsString.truthy email) || negb (isValidEmail email) then
    Traced.emit (SetFormError (Some "Please enter a valid email address"))
  else if negb (str_truthy captchaToken) then
    Traced.emit (SetFormError (Some "Please complete the security verification"))
  else
    _ ← Traced.emit (SetIsSubmittingEmail true);
    Traced.finally
      (Traced.try_catch
         ('(existingEmails, checkError) ←
            Traced.await (SelectSubscription (JsText.toLowerCase email))
              (select_single svc (JsText.toLowerCase email));
          _ ← match checkError with
              | Some err =>
                  if negb (String.eqb (Postgrest.code err) "PGRST116")
                  then Traced.throw (JsError "Error" "Error checking subscription status")
                  else mret tt
              | None => mret tt
              end;
          _ ← match existingEmails with
              | Some _ =>
                  updateError ← Traced.await (UpdateSubscription (JsText.toLowerCase email))
                                  (update svc (JsText.toLowerCase email));
                  _ ← match updateError with
                      | Some err =>
                          Traced.throw (JsError "PostgrestError" (Postgrest.message err))
                      | None => mret tt
                      end;
                  Traced.emit
                    (Toast "Already subscribed"
                       "Your email is already in our subscription list." None)
              | None =>
                  insertError ← Traced.await
                                  (InsertSubscription (JsText.toLowerCase email) now)
                                  (insert svc (JsText.toLowerCase email) now);
                  _ ← match insertError with
                      | Some err =>
                          Traced.throw (JsError "PostgrestError" (Postgrest.message err))
                      | None => mret tt
                      end;
                  _ ← Traced.emit (SetSubscriptionSuccess true);
                  Traced.emit
                    (Toast "Subscribed successfully!"
                       "Thank you for subscribing to our newsletter." None)
              end;
          _ ← Traced.emit (SetEmail "");
          _ ← Traced.emit (SetCaptchaToken None);
          resetCaptcha)
         (fun error =>
            _ ← Traced.emit (ConsoleError "Subscription error:");
            _ ← Traced.emit
                  (SetFormError
                     (Some "There was a problem processing your subscription. Please try again."));
            _ ← resetCaptcha;
            _ ← Traced.emit (SetCaptchaToken None);
            Traced.emit
              (Toast "Subscription failed"
                 "There was a problem with your subscription. Please try again."
                 (Some "destructive"))))
      (Traced.emit (SetIsSubmittingEmail false)).

(** The lookup raised no objection: no error, or the code for "no rows". *)
Definition lookup_passes (checkError : option Postgrest.PostgrestError) : bool :=
  match checkError with
  | Some err => String.eqb (Postgrest.code err) "PGRST116"
  | None => true
  end.

(** Every request of a submission was answered without objection. *)
Definition goes_through (email : string) : bool :=
  match select_single svc (JsText.toLowerCase email) with
  | Ret (existingEmails, checkError) =>
      lookup_passes checkError &&
      match existingEmails with
      | Some _ =>
          match update svc (JsText.toLowerCase email) with
          | Ret None => true
          | _ => false
          end
      | None =>
          match insert svc (JsText.toLowerCase email) now with
          | Ret None => true
          | _ => false
          end
      end
  | Throw _ => false
  end.

End Form.

(** The events that are requests to the store. *)
Definition is_request (ev : Event) : bool :=
  match ev with
  | SelectSubscription _ | UpdateSubscription _ | InsertSubscription _ _ => true
  | _ => false
  end.

End Subscribe.

(** ** The search constraint in the words of the specification

    "A disjunctive, case-insensitive contains match of the term across the
    four columns title, description, city and state": what the search is
    meant to select, written down independently of the text the service
    sends, to compare the two. *)

Module SearchSpec.

Fixpoint is_prefix (t s : list ascii) : bool :=
  match t, s with
  | [], _ => true
  | _ :: _, [] => false
  | x :: t', y :: s' => Ascii.eqb x y && is_prefix t' s'
  end.

Fixpoint occurs (t s : list ascii) : bool :=
  is_prefix t s ||
  match s with
  | [] => false
  | _ :: s' => occurs t s'
  end.

(** [value] contains [term], letter case aside. *)
Definition contains (term value : string) : bool :=
  occurs (map MemStore.lower (list_ascii_of_string term))
    (map MemStore.lower (list_ascii_of_string value)).

(** One of the four columns of the row contains the term. *)
Definition holds (term : string) (r : RawListing) : bool :=
  existsb
    (fun column =>
       match text_column column r with
       | Some v => contains term v
       | None => false
       end)
    ["title"; "description"; "city"; "state"].

End SearchSpec.

(** ** Sample services and files *)

Module Samples.

(** A subscription list without the address asked for, accepting every
    write. *)
Definition empty_list : Subscribe.Service :=
  Subscribe.mkService
    (fun _ => Ret (None, Some (Postgrest.mkError "no rows returned" "PGRST116")))
    (fun _ => Ret None)
    (fun _ _ => Ret None).

(** A stand-in for the pattern of [isValidEmail]. *)
Definition contains_at (s : string) : bool :=
  existsb (Ascii.eqb "@"%char) (list_ascii_of_string s).

(** A storage that answers every removal with an error, beside a database
    that deletes. *)
Definition storage_down : Profile.DeleteService :=
  Profile.mkDeleteService
    (fun _ => Ret (Some (Postgrest.mkError "bucket unavailable" "503")))
    (fun _ => Ret None).

Definition avatar : Profile.ProfileImage :=
  Profile.mkProfileImage 7 "u1/profile_u1_0a1b2c3d.png".

Definition photo : Profile.File := Profile.mkFile "Me.Holiday.JPG" "image/jpeg" 204800.

(** A table with a row listed three seconds after the clock reading used
    with it, and a row stored without creation time. *)
Definition just_listed : RawListing :=
  MemStore.park "n1" "Cedar Hollow" "Boise" "ID" (Some 850000%Q)
    "2024-08-01T00:00:03+00:00" "approved" None.

Definition undated : RawListing :=
  mkRaw "u2" (Some "Old Mill Camp") (Some "By the river") (Some 640000%Q)
    (Some "4 Mill Rd") (Some "Salem") (Some "OR") None None None None None None
    None (Some "approved") None None None.

Definition undated_table : list RawListing := [just_listed; undated].

End Samples.

(** * Proofs *)

(** ** The prelude *)

Lemma array_map_length {A B} (f : A -> completion B) l ys :
  array_map f l = Ret ys -> length ys = length l.
Proof.
  revert ys. induction l as [|x t IH]; intros ys; simpl.
  - intros [= <-]. reflexivity.
  - destruct (f x) as [y|e]; simpl; [|discriminate].
    destruct (array_map f t) as [ys'|e]; simpl; [|discriminate].
    intros [= <-]. simpl. f_equal. apply IH. reflexivity.
Qed.

Lemma array_map_lookup {A B} (f : A -> completion B) l ys i x :
  array_map f l = Ret ys -> l !! i = Some x ->
  exists y, ys !! i = Some y /\ f x = Ret y.
Proof.
  revert ys i. induction l as [|a t IH]; intros ys i; simpl.
  - intros _ Hl. discriminate Hl.
  - destruct (f a) as [y|e] eqn:Hfa; simpl; [|discriminate].
    destruct (array_map f t) as [ys'|e]; simpl; [|discriminate].
    intros [= <-]. destruct i as [|i]; simpl.
    + intros [= ->]. exists y. split; [reflexivity|assumption].
    + intros Hl. apply (IH ys' i); [reflexivity|assumption].
Qed.

(** A callback that catches everything never aborts the traversal. *)
Lemma array_map_try_catch {A B} (f : A -> completion B) l :
  array_map
    (fun x => try_catch (y ← f x; Ret (Some y)) (fun _ => Ret None)) l
  = Ret (map (attempt f) l).
Proof.
  induction l as [|x t IH]; simpl; [reflexivity|].
  rewrite IH. unfold attempt, mbind, completion_bind.
  destruct (f x); reflexivity.
Qed.

Lemma filter_not_null_map {A B} (g : A -> option B) l :
  filter_not_null (map g l) = omap g l.
Proof.
  induction l as [|x t IH]; simpl; [reflexivity|].
  destruct (g x); simpl; rewrite IH; reflexivity.
Qed.

Lemma findIndex_from_cases {A} (p : A -> bool) l k :
  (findIndex_from p l k = (-1)%Z /\ forall j x, l !! j = Some x -> p x = false) \/
  (exists i x, findIndex_from p l k = (k + Z.of_nat i)%Z /\ l !! i = Some x /\
     p x = true /\ forall j y, (j < i)%nat -> l !! j = Some y -> p y = false).
Proof.
  revert k. induction l as [|a t IH]; intros k; simpl.
  - left. split; [reflexivity|]. intros j x Hj. discriminate Hj.
  - destruct (p a) eqn:Hpa.
    + right. exists 0%nat, a. repeat split; [lia|assumption|]. intros j y Hj. lia.
    + destruct (IH (k + 1)%Z) as [[H1 H2]|(i & x & H1 & H2 & H3 & H4)].
      * left. split; [assumption|]. intros [|j] x; simpl.
        -- intros [= <-]. assumption.
        -- apply H2.
      * right. exists (S i), x. repeat split; [lia|assumption|assumption|].
        intros [|j] y Hj; simpl.
        -- intros [= <-]. assumption.
        -- apply H4. lia.
Qed.

Lemma first_primary_at_unique imgs i j :
  first_primary_at imgs i -> first_primary_at imgs j -> i = j.
Proof.
  intros [(x & Hx & Hpx) Hi] [(y & Hy & Hpy) Hj].
  destruct (Nat.lt_trichotomy i j) as [H|[H|H]]; [|assumption|].
  - rewrite (Hj i x H Hx) in Hpx. discriminate.
  - rewrite (Hi j y H Hy) in Hpy. discriminate.
Qed.

(** [findIndex] returns the index of the first flagged image. *)
Lemma findIndex_first_primary imgs i :
  first_primary_at imgs i ->
  findIndex (fun img => bool_truthy (is_primary img)) imgs = Z.of_nat i.
Proof.
  intros Hi. unfold findIndex.
  destruct (findIndex_from_cases (fun img => bool_truthy (is_primary img)) imgs 0)
    as [[_ Hnone]|(k & x & Hk & Hx & Hpx & Hbefore)].
  - destruct Hi as [(x & Hx & Hpx) _]. rewrite (Hnone i x Hx) in Hpx. discriminate.
  - rewrite Hk, Z.add_0_l. f_equal.
    apply (first_primary_at_unique imgs); [|assumption].
    split; [exists x; split; assumption|assumption].
Qed.

Lemma findIndex_no_primary imgs :
  (forall j img, imgs !! j = Some img -> bool_truthy (is_primary img) = false) ->
  findIndex (fun img => bool_truthy (is_primary img)) imgs = (-1)%Z.
Proof.
  intros Hnone. unfold findIndex.
  destruct (findIndex_from_cases (fun img => bool_truthy (is_primary img)) imgs 0)
    as [[H _]|(k & x & _ & Hx & Hpx & _)]; [assumption|].
  rewrite (Hnone k x Hx) in Hpx. discriminate.
Qed.

(** ** The operations in closed form *)

(** Unfold an operation down to the case analysis on what the store did. *)
Ltac unfold_operation :=
  unfold fetchApprovedListings, fetchFeaturedApprovedListings,
    fetchApprovedListingById, countApprovedListings, mbind, completion_bind.

(** Case analysis on the resolution of the images of a row. *)
Ltac case_images r :=
  destruct (match r_listing_images r with Some imgs => _ | None => _ end).

Section ServiceFacts.

Variable c : SupabaseClient.
Variable now : string.

Lemma fetchApprovedListings_rows filters resp rows :
  await_rows c (approved_query filters) = Ret resp ->
  Postgrest.error resp = None ->
  Postgrest.data resp = Some rows ->
  fetchApprovedListings c now filters = Ret (omap (attempt (approved_item c now)) rows).
Proof.
  intros Hq He Hd. unfold_operation.
  rewrite Hq. simpl. rewrite He, Hd.
  destruct rows as [|r rows]; [reflexivity|].
  change (0 <? length (r :: rows))%nat with true. cbv iota.
  pose proof (array_map_try_catch (approved_item c now) (r :: rows)) as Hmap.
  unfold mbind, completion_bind in Hmap. rewrite Hmap. simpl bind.
  rewrite filter_not_null_map. reflexivity.
Qed.

Lemma fetchFeaturedApprovedListings_rows resp rows :
  await_rows c featured_query = Ret resp ->
  Postgrest.error resp = None ->
  Postgrest.data resp = Some rows ->
  fetchFeaturedApprovedListings c now = Ret (omap (attempt (featured_item c now)) rows).
Proof.
  intros Hq He Hd. unfold_operation.
  rewrite Hq. simpl. rewrite He, Hd.
  destruct rows as [|r rows]; [reflexivity|].
  change (0 <? length (r :: rows))%nat with true. cbv iota.
  pose proof (array_map_try_catch (featured_item c now) (r :: rows)) as Hmap.
  unfold mbind, completion_bind in Hmap. rewrite Hmap. simpl bind.
  rewrite filter_not_null_map. reflexivity.
Qed.

Lemma fetchApprovedListings_failed filters :
  store_failed (await_rows c (approved_query filters)) ->
  fetchApprovedListings c now filters = Ret [].
Proof.
  unfold store_failed. unfold_operation.
  destruct (await_rows c (approved_query filters)) as [resp|e]; simpl; [|reflexivity].
  intros [err ->]. reflexivity.
Qed.

Lemma fetchFeaturedApprovedListings_failed :
  store_failed (await_rows c featured_query) ->
  fetchFeaturedApprovedListings c now = Ret [].
Proof.
  unfold store_failed. unfold_operation.
  destruct (await_rows c featured_query) as [resp|e]; simpl; [|reflexivity].
  intros [err ->]. reflexivity.
Qed.

Lemma fetchApprovedListingById_failed id :
  store_failed (await_single c (by_id_query id)) ->
  fetchApprovedListingById c now id = Ret None.
Proof.
  unfold store_failed. unfold_operation.
  destruct (await_single c (by_id_query id)) as [resp|e]; simpl; [|reflexivity].
  intros [err ->]. reflexivity.
Qed.

Lemma countApprovedListings_failed :
  store_failed (await_head c count_query) ->
  countApprovedListings c = Ret 0%Z.
Proof.
  unfold store_failed. unfold_operation.
  destruct (await_head c count_query) as [resp|e]; simpl; [|reflexivity].
  intros [err ->]. reflexivity.
Qed.

Lemma fetchApprovedListings_no_data filters resp :
  await_rows c (approved_query filters) = Ret resp ->
  Postgrest.data resp = None ->
  fetchApprovedListings c now filters = Ret [].
Proof.
  intros Hq Hd. unfold_operation. rewrite Hq. simpl. rewrite Hd.
  destruct (Postgrest.error resp); reflexivity.
Qed.

Lemma fetchFeaturedApprovedListings_no_data resp :
  await_rows c featured_query = Ret resp ->
  Postgrest.data resp = None ->
  fetchFeaturedApprovedListings c now = Ret [].
Proof.
  intros Hq Hd. unfold_operation. rewrite Hq. simpl. rewrite Hd.
  destruct (Postgrest.error resp); reflexivity.
Qed.

Lemma fetchApprovedListings_returns filters :
  exists ls, fetchApprovedListings c now filters = Ret ls.
Proof.
  destruct (await_rows c (approved_query filters)) as [resp|e] eqn:Hq.
  - destruct (Postgrest.error resp) as [err|] eqn:He.
    + exists []. apply fetchApprovedListings_failed. rewrite Hq. simpl. rewrite He. eauto.
    + destruct (Postgrest.data resp) as [rows|] eqn:Hd.
      * eexists. apply (fetchApprovedListings_rows _ resp rows); assumption.
      * exists []. apply (fetchApprovedListings_no_data _ resp); assumption.
  - exists []. apply fetchApprovedListings_failed. rewrite Hq. exact I.
Qed.

Lemma fetchFeaturedApprovedListings_returns :
  exists ls, fetchFeaturedApprovedListings c now = Ret ls.
Proof.
  destruct (await_rows c featured_query) as [resp|e] eqn:Hq.
  - destruct (Postgrest.error resp) as [err|] eqn:He.
    + exists []. apply fetchFeaturedApprovedListings_failed. rewrite Hq. simpl.
      rewrite He. eauto.
    + destruct (Postgrest.data resp) as [rows|] eqn:Hd.
      * eexists. apply (fetchFeaturedApprovedListings_rows resp rows); assumption.
      * exists []. apply (fetchFeaturedApprovedListings_no_data resp); assumption.
  - exists []. apply fetchFeaturedApprovedListings_failed. rewrite Hq. exact I.
Qed.

Lemma fetchApprovedListingById_returns id :
  exists r, fetchApprovedListingById c now id = Ret r.
Proof.
  unfold_operation.
  destruct (await_single c (by_id_query id)) as [resp|e]; simpl; [|eauto].
  destruct (Postgrest.error resp); [eauto|].
  destruct (Postgrest.data resp) as [row|]; [|eauto].
  destruct (by_id_item c now row); simpl; eauto.
Qed.

Lemma countApprovedListings_returns :
  exists n, countApprovedListings c = Ret n.
Proof.
  unfold_operation.
  destruct (await_head c count_query) as [resp|e]; simpl; [|eauto].
  destruct (Postgrest.error resp); eauto.
Qed.

(** The status of a normalized row is the row's, or the default. *)
Lemma approved_item_status r item :
  approved_item c now r = Ret item -> status item = str_or (r_status r) "approved".
Proof.
  unfold approved_item, mbind, completion_bind.
  case_images r; simpl;
    [|discriminate].
  intros [= <-]. reflexivity.
Qed.

Lemma featured_item_fields r item :
  featured_item c now r = Ret item ->
  featured item = true /\ createdAt item = str_or (r_created_at r) now.
Proof.
  unfold featured_item, mbind, completion_bind.
  case_images r; simpl;
    [|discriminate].
  intros [= <-]. split; reflexivity.
Qed.

End ServiceFacts.

(** ** The reference store honours the contract *)

Lemma string_leb_iff a b :
  String.leb a b = true <-> a = b \/ OrderedTypeEx.String_as_OT.lt a b.
Proof.
  unfold String.leb.
  destruct (String.compare a b) eqn:Hc.
  - apply OrderedTypeEx.String_as_OT.cmp_eq in Hc. tauto.
  - apply OrderedTypeEx.String_as_OT.cmp_lt in Hc. tauto.
  - split; [discriminate|]. intros [->|Hlt].
    + assert (String.compare b b = Eq) as He
        by (apply OrderedTypeEx.String_as_OT.cmp_eq; reflexivity).
      congruence.
    + apply OrderedTypeEx.String_as_OT.cmp_lt in Hlt.
      unfold OrderedTypeEx.String_as_OT.cmp in Hlt. congruence.
Qed.

Lemma string_leb_trans a b d :
  String.leb a b = true -> String.leb b d = true -> String.leb a d = true.
Proof.
  rewrite !string_leb_iff. intros [->|H1] [->|H2]; auto.
  right. eapply OrderedTypeEx.String_as_OT.lt_trans; eassumption.
Qed.

Lemma key_le_trans x y z : MemStore.key_le x y -> MemStore.key_le y z -> MemStore.key_le x z.
Proof.
  destruct x as [a|], y as [b|], z as [d|]; simpl; try tauto.
  apply string_leb_trans.
Qed.

Lemma key_le_total x y : MemStore.key_le x y \/ MemStore.key_le y x.
Proof.
  destruct x as [a|], y as [b|]; simpl; try tauto.
  apply String.leb_total.
Qed.

Global Instance row_order_trans o : Transitive (MemStore.row_order o).
Proof.
  intros a b d. unfold MemStore.row_order. destruct (o.2).
  - apply key_le_trans.
  - intros H1 H2. eapply key_le_trans; eassumption.
Qed.

Global Instance row_order_total o : Total (MemStore.row_order o).
Proof.
  intros a b. unfold MemStore.row_order. destruct (o.2); apply key_le_total.
Qed.

Lemma StronglySorted_take_prefix {A} (R : relation A) n (l : list A) :
  StronglySorted R l -> StronglySorted R (take n l).
Proof.
  intros H. rewrite <- (take_drop n l) in H.
  apply StronglySorted_app_1_l in H. exact H.
Qed.

Lemma StronglySorted_weaken {A} (R S : relation A) (l : list A) :
  (forall a b, R a b -> S a b) -> StronglySorted R l -> StronglySorted S l.
Proof.
  intros HRS. induction 1 as [|a l Hl IH Ha]; constructor; [assumption|].
  eapply Forall_impl; [exact Ha|]. intros b. apply HRS.
Qed.

(** A promoted order survives dropping elements and mapping. *)
Lemma StronglySorted_omap {A B} (R : relation A) (S : relation B) (g : A -> option B) l :
  (forall a b a' b', R a b -> g a = Some a' -> g b = Some b' -> S a' b') ->
  StronglySorted R l -> StronglySorted S (omap g l).
Proof.
  intros Hg. induction 1 as [|a l Hl IH Ha]; simpl; [constructor|].
  destruct (g a) as [a'|] eqn:Hga; [|assumption].
  constructor; [assumption|].
  apply Forall_forall. intros b' Hb'.
  apply list_elem_of_omap in Hb' as (b & Hb & Hgb).
  rewrite Forall_forall in Ha. eapply Hg; eauto.
Qed.

Lemma sorted_rows_elem (os : list (string * bool)) (rows : list RawListing) r :
  r ∈ foldr (fun o rows => merge_sort (MemStore.row_order o) rows) rows os -> r ∈ rows.
Proof.
  induction os as [|o os IH]; simpl; [tauto|].
  rewrite merge_sort_Permutation. exact IH.
Qed.

Lemma select_rows_elem db q r :
  r ∈ MemStore.select_rows db q ->
  r ∈ db /\ forallb (fun f => MemStore.row_matches f r) (Postgrest.q_filters q) = true.
Proof.
  unfold MemStore.select_rows. intros Hr.
  assert (r ∈ List.filter
            (fun r => forallb (fun f => MemStore.row_matches f r) (Postgrest.q_filters q))
            db) as Hf.
  { apply (sorted_rows_elem (Postgrest.q_order q)).
    destruct (Postgrest.q_limit q); [|assumption].
    eapply subseteq_take. eassumption. }
  apply list_elem_of_In, filter_In in Hf as [Hin Hm].
  split; [apply list_elem_of_In|]; assumption.
Qed.

Lemma client_rows db q resp rows :
  await_rows (MemStore.client db) q = Ret resp ->
  Postgrest.data resp = Some rows ->
  rows = MemStore.select_rows db q.
Proof.
  simpl. destruct (forallb MemStore.well_formed (Postgrest.q_filters q)).
  - intros [= <-]. simpl. congruence.
  - intros [= <-]. simpl. discriminate.
Qed.

Lemma client_honours_eq db : honours_eq (MemStore.client db).
Proof.
  intros q resp rows Hq Hd column value Hf r Hr.
  rewrite (client_rows db q resp rows Hq Hd) in Hr.
  apply select_rows_elem in Hr as [_ Hall].
  rewrite forallb_forall in Hall.
  specialize (Hall _ (proj1 (list_elem_of_In _ _) Hf)). simpl in Hall.
  destruct (text_column column r) as [x|]; [|discriminate].
  apply String.eqb_eq in Hall. congruence.
Qed.

Lemma client_honours_limit db : honours_limit (MemStore.client db).
Proof.
  intros q resp rows n Hq Hd Hn.
  rewrite (client_rows db q resp rows Hq Hd).
  unfold MemStore.select_rows. rewrite Hn, length_take. lia.
Qed.

Lemma client_honours_order db : honours_order MemStore.later_eq (MemStore.client db).
Proof.
  intros q resp rows Hq Hd Ho.
  rewrite (client_rows db q resp rows Hq Hd).
  unfold MemStore.select_rows. rewrite Ho. simpl.
  apply (StronglySorted_weaken (MemStore.row_order ("created_at", false))).
  - intros a b Hab x y Hx Hy. unfold MemStore.row_order in Hab. simpl in Hab.
    change (text_column "created_at" a) with (r_created_at a) in Hab.
    change (text_column "created_at" b) with (r_created_at b) in Hab.
    rewrite Hx, Hy in Hab. exact Hab.
  - destruct (Postgrest.q_limit q).
    + apply StronglySorted_take_prefix, StronglySorted_merge_sort; apply _.
    + apply StronglySorted_merge_sort; apply _.
Qed.

Lemma client_has_created_at db :
  Forall (fun r => str_truthy (r_created_at r) = true) db ->
  has_created_at (MemStore.client db).
Proof.
  intros Hdb q resp rows Hq Hd r Hr.
  rewrite (client_rows db q resp rows Hq Hd) in Hr.
  apply select_rows_elem in Hr as [Hin _].
  rewrite Forall_forall in Hdb. apply Hdb. assumption.
Qed.

(** ** The request of [fetchApprovedListings] *)

Lemma step_lower q column v :
  Postgrest.q_filters
    (match v with
     | Some v => if num_gt v 0%Q then q |> Postgrest.gte column v else q
     | None => q
     end)
  = Postgrest.q_filters q ++ lower_bound_part column v.
Proof.
  destruct v as [v|]; simpl; [destruct (num_gt v 0%Q)|]; simpl;
    rewrite ?app_nil_r; reflexivity.
Qed.

Lemma step_upper q column sentinel v :
  Postgrest.q_filters
    (match v with
     | Some v => if num_lt v sentinel then q |> Postgrest.lte column v else q
     | None => q
     end)
  = Postgrest.q_filters q ++ upper_bound_part column sentinel v.
Proof.
  destruct v as [v|]; simpl; [destruct (num_lt v sentinel)|]; simpl;
    rewrite ?app_nil_r; reflexivity.
Qed.

Lemma step_state q s :
  Postgrest.q_filters
    (match s with
     | Some s =>
         if str_truthy (Some s) && negb (String.eqb s "")
         then q |> Postgrest.eq "state" s else q
     | None => q
     end)
  = Postgrest.q_filters q ++ state_part s.
Proof.
  destruct s as [s|]; simpl; [destruct (String.eqb s "")|]; simpl;
    rewrite ?app_nil_r; reflexivity.
Qed.

(** The template literal of the search filter is the rendering of the four
    conditions. *)
Lemma search_template term :
  let searchTerm := "%" +:+ term +:+ "%" in
  "title.ilike." +:+ searchTerm +:+ ",description.ilike." +:+ searchTerm
    +:+ ",city.ilike." +:+ searchTerm +:+ ",state.ilike." +:+ searchTerm
  = render_or (search_conditions term).
Proof. reflexivity. Qed.

Lemma step_search q s :
  Postgrest.q_filters
    (match s with
     | Some s =>
         if str_truthy (Some s) && negb (String.eqb (trim s) "") then
           let searchTerm := "%" +:+ trim s +:+ "%" in
           q |> Postgrest.or
             ("title.ilike." +:+ searchTerm +:+ ",description.ilike." +:+ searchTerm
              +:+ ",city.ilike." +:+ searchTerm +:+ ",state.ilike." +:+ searchTerm)
         else q
     | None => q
     end)
  = Postgrest.q_filters q ++ search_part s.
Proof.
  destruct s as [s|]; simpl; [|rewrite app_nil_r; reflexivity].
  destruct (String.eqb s ""); simpl; [rewrite app_nil_r; reflexivity|].
  destruct (String.eqb (trim s) ""); simpl; [rewrite app_nil_r; reflexivity|].
  reflexivity.
Qed.

Lemma approved_query_filters f :
  Postgrest.q_filters (approved_query (Some f))
  = Postgrest.F_eq "status" "approved"
    :: lower_bound_part "price" (priceMin f)
    ++ upper_bound_part "price" 10000000%Q (priceMax f)
    ++ state_part (f_state f)
    ++ lower_bound_part "num_sites" (sitesMin f)
    ++ upper_bound_part "num_sites" 1000%Q (sitesMax f)
    ++ lower_bound_part "cap_rate" (capRateMin f)
    ++ lower_bound_part "occupancy_rate" (occupancyRateMin f)
    ++ search_part (search f).
Proof.
  unfold approved_query. cbv zeta.
  rewrite step_search, !step_lower, step_upper, !step_lower, step_state,
    step_upper, step_lower.
  simpl. rewrite <- !app_assoc. reflexivity.
Qed.

Lemma approved_query_no_filters :
  Postgrest.q_filters (approved_query None) = [Postgrest.F_eq "status" "approved"].
Proof. reflexivity. Qed.

Lemma approved_query_has_status filters :
  Postgrest.F_eq "status" "approved" ∈ Postgrest.q_filters (approved_query filters).
Proof.
  destruct filters as [f|].
  - rewrite approved_query_filters. apply list_elem_of_here.
  - rewrite approved_query_no_filters. apply list_elem_of_here.
Qed.

(** ** The specification *)

(** C1. The request of [fetchApprovedListings] always carries the equality
    filter [status = approved]; when the store honours its equality filters
    the operation returns a sequence whose every record has status
    [approved]; and the operation itself filters nothing on status: every
    row the store answers whose normalization succeeds is returned, with the
    row's own status. *)
Theorem fetched_listings_are_approved (c : SupabaseClient) (now : string)
    (filters : option ListingFilters) :
  Postgrest.F_eq "status" "approved" ∈ Postgrest.q_filters (approved_query filters) /\
  (honours_eq c ->
   exists ls, fetchApprovedListings c now filters = Ret ls /\
              Forall (fun l => status l = "approved") ls) /\
  (forall resp rows,
     await_rows c (approved_query filters) = Ret resp ->
     Postgrest.error resp = None ->
     Postgrest.data resp = Some rows ->
     exists ls, fetchApprovedListings c now filters = Ret ls /\
       forall r item, r ∈ rows -> approved_item c now r = Ret item ->
         item ∈ ls /\ status item = str_or (r_status r) "approved").
Proof.
  split; [apply approved_query_has_status|]. split.
  - intros Hstore.
    destruct (await_rows c (approved_query filters)) as [resp|e] eqn:Hq.
    + destruct (Postgrest.error resp) as [err|] eqn:He.
      * exists []. split; [|constructor].
        apply fetchApprovedListings_failed. rewrite Hq. simpl. rewrite He. eauto.
      * destruct (Postgrest.data resp) as [rows|] eqn:Hd.
        -- eexists. split; [apply (fetchApprovedListings_rows c now _ resp rows Hq He Hd)|].
           apply Forall_forall. intros item Hitem.
           apply list_elem_of_omap in Hitem as (r & Hr & Hattempt).
           unfold attempt in Hattempt.
           destruct (approved_item c now r) as [item'|] eqn:Hitem'; [|discriminate].
           injection Hattempt as ->.
           rewrite (approved_item_status c now r item Hitem').
           pose proof (Hstore _ resp rows Hq Hd "status" "approved"
                         (approved_query_has_status filters) r Hr) as Hs.
           change (text_column "status" r) with (r_status r) in Hs.
           rewrite Hs. reflexivity.
        -- exists []. split; [|constructor].
           apply (fetchApprovedListings_no_data c now _ resp); assumption.
    + exists []. split; [|constructor].
      apply fetchApprovedListings_failed. rewrite Hq. exact I.
  - intros resp rows Hq He Hd. eexists.
    split; [apply (fetchApprovedListings_rows c now _ resp rows Hq He Hd)|].
    intros r item Hr Hitem. split.
    + apply list_elem_of_omap. exists r. split; [assumption|].
      unfold attempt. rewrite Hitem. reflexivity.
    + apply (approved_item_status c now). assumption.
Qed.

Lemma fetched_listings_are_approved_witness :
  honours_eq (MemStore.client MemStore.table) /\
  (exists ls,
     fetchApprovedListings (MemStore.client MemStore.table) "2024-08-01T00:00:00.000Z" None
       = Ret ls /\
     Forall (fun l => status l = "approved") ls) /\
  (exists ls,
     fetchApprovedListings (MemStore.unfiltered MemStore.table) "2024-08-01T00:00:00.000Z" None
       = Ret ls /\
     exists item, item ∈ ls /\ status item = "pending").
Proof.
  split; [apply client_honours_eq|]. split.
  - apply (fetched_listings_are_approved (MemStore.client MemStore.table)
             "2024-08-01T00:00:00.000Z" None).
    apply client_honours_eq.
  - destruct (fetched_listings_are_approved (MemStore.unfiltered MemStore.table)
                "2024-08-01T00:00:00.000Z" None) as (_ & _ & H).
    destruct (H (Postgrest.mkResponse (Some MemStore.table) None None) MemStore.table
                eq_refl eq_refl eq_refl) as (ls & Hls & Hall).
    exists ls. split; [exact Hls|].
    destruct (approved_item (MemStore.unfiltered MemStore.table)
                "2024-08-01T00:00:00.000Z" MemStore.draft) as [item|e] eqn:Hitem;
      [|vm_compute in Hitem; discriminate].
    exists item.
    apply (Hall MemStore.draft item); [|exact Hitem].
    unfold MemStore.table. repeat constructor.
Defined.

(** C2. Whatever the input and whatever the store does (answers, answers
    with an error, or rejects), each of the four operations returns a value
    and throws nothing; when the store fails they return the empty
    sequence, the empty sequence, null and 0. *)
Theorem operations_fail_softly (c : SupabaseClient) (now : string)
    (filters : option ListingFilters) (id : string) :
  ((exists ls, fetchApprovedListings c now filters = Ret ls) /\
   (exists ls, fetchFeaturedApprovedListings c now = Ret ls) /\
   (exists r, fetchApprovedListingById c now id = Ret r) /\
   (exists n, countApprovedListings c = Ret n)) /\
  (store_failed (await_rows c (approved_query filters)) ->
   fetchApprovedListings c now filters = Ret []) /\
  (store_failed (await_rows c featured_query) ->
   fetchFeaturedApprovedListings c now = Ret []) /\
  (store_failed (await_single c (by_id_query id)) ->
   fetchApprovedListingById c now id = Ret None) /\
  (store_failed (await_head c count_query) ->
   countApprovedListings c = Ret 0%Z).
Proof.
  repeat split.
  - apply fetchApprovedListings_returns.
  - apply fetchFeaturedApprovedListings_returns.
  - apply fetchApprovedListingById_returns.
  - apply countApprovedListings_returns.
  - apply fetchApprovedListings_failed.
  - apply fetchFeaturedApprovedListings_failed.
  - apply fetchApprovedListingById_failed.
  - apply countApprovedListings_failed.
Qed.

Lemma operations_fail_softly_witness :
  store_failed (await_rows MemStore.offline (approved_query (Some MemStore.no_filters))) /\
  store_failed (await_single (MemStore.client MemStore.table) (by_id_query "e5")) /\
  fetchApprovedListings MemStore.offline "2024-08-01T00:00:00.000Z"
    (Some MemStore.no_filters) = Ret [] /\
  fetchFeaturedApprovedListings MemStore.offline "2024-08-01T00:00:00.000Z" = Ret [] /\
  fetchApprovedListingById MemStore.offline "2024-08-01T00:00:00.000Z" "a1" = Ret None /\
  countApprovedListings MemStore.offline = Ret 0%Z /\
  fetchApprovedListingById (MemStore.client MemStore.table) "2024-08-01T00:00:00.000Z" "e5"
    = Ret None.
Proof.
  assert (store_failed (await_single (MemStore.client MemStore.table) (by_id_query "e5")))
    as Hdraft by (vm_compute; eauto).
  pose proof (operations_fail_softly MemStore.offline "2024-08-01T00:00:00.000Z"
                (Some MemStore.no_filters) "a1") as (_ & H1 & H2 & H3 & H4).
  pose proof (operations_fail_softly (MemStore.client MemStore.table)
                "2024-08-01T00:00:00.000Z" None "e5") as (_ & _ & _ & H5 & _).
  split; [exact I|]. split; [exact Hdraft|].
  split; [apply H1; exact I|]. split; [apply H2; exact I|].
  split; [apply H3; exact I|]. split; [apply H4; exact I|].
  apply H5. exact Hdraft.
Defined.

(** C7. When the store answers a batch of rows to [fetchApprovedListings]
    or [fetchFeaturedApprovedListings], the operation returns, in order,
    the records of exactly the rows whose normalization succeeds: a row
    whose normalization throws is left out and the rows before and after it
    are processed as if it were not there; nothing is thrown. *)
Theorem failing_rows_are_dropped (c : SupabaseClient) (now : string)
    (filters : option ListingFilters) (resp : Postgrest.Response (list RawListing))
    (rows : list RawListing) :
  Postgrest.error resp = None ->
  Postgrest.data resp = Some rows ->
  (await_rows c (approved_query filters) = Ret resp ->
   fetchApprovedListings c now filters = Ret (omap (attempt (approved_item c now)) rows) /\
   forall before r after e,
     rows = before ++ r :: after -> approved_item c now r = Throw e ->
     fetchApprovedListings c now filters
     = Ret (omap (attempt (approved_item c now)) before
            ++ omap (attempt (approved_item c now)) after)) /\
  (await_rows c featured_query = Ret resp ->
   fetchFeaturedApprovedListings c now = Ret (omap (attempt (featured_item c now)) rows) /\
   forall before r after e,
     rows = before ++ r :: after -> featured_item c now r = Throw e ->
     fetchFeaturedApprovedListings c now
     = Ret (omap (attempt (featured_item c now)) before
            ++ omap (attempt (featured_item c now)) after)).
Proof.
  intros He Hd. split; intros Hq.
  - pose proof (fetchApprovedListings_rows c now filters resp rows Hq He Hd) as Hall.
    split; [exact Hall|].
    intros before r after e -> Hr. rewrite Hall, omap_app. simpl.
    unfold attempt at 2. rewrite Hr. reflexivity.
  - pose proof (fetchFeaturedApprovedListings_rows c now resp rows Hq He Hd) as Hall.
    split; [exact Hall|].
    intros before r after e -> Hr. rewrite Hall, omap_app. simpl.
    unfold attempt at 2. rewrite Hr. reflexivity.
Qed.

Lemma failing_rows_are_dropped_witness :
  approved_item (MemStore.client MemStore.table) "2024-08-01T00:00:00.000Z" MemStore.broken
    = Throw (JsError "Error" "empty object path") /\
  fmap_completion (map id)
    (fetchApprovedListings (MemStore.client MemStore.table) "2024-08-01T00:00:00.000Z" None)
    = Ret ["a1"; "b2"; "c3"].
Proof.
  split; [reflexivity|].
  pose proof (failing_rows_are_dropped (MemStore.client MemStore.table)
                "2024-08-01T00:00:00.000Z" None
                (Postgrest.mkResponse
                   (Some [MemStore.lakeside; MemStore.pines; MemStore.austin_street;
                          MemStore.broken]) None None)
                [MemStore.lakeside; MemStore.pines; MemStore.austin_street; MemStore.broken]
                eq_refl eq_refl) as [H _].
  destruct (H eq_refl) as [_ Hdrop].
  rewrite (Hdrop [MemStore.lakeside; MemStore.pines; MemStore.austin_street]
             MemStore.broken [] (JsError "Error" "empty object path") eq_refl eq_refl).
  reflexivity.
Defined.

(** ** The normalizer *)

Lemma featured_item_as_approved c now r :
  featured_item c now r = fmap_completion (with_featured true) (approved_item c now r).
Proof.
  unfold featured_item, approved_item, fmap_completion, mbind, completion_bind.
  case_images r;
    reflexivity.
Qed.

Lemma by_id_item_as_approved c now r : by_id_item c now r = approved_item c now r.
Proof. reflexivity. Qed.

(** The index [findIndex] returns, when positive, lies inside the resolved
    URLs: the lookup [images[primaryImageIndex]] never reads past the end. *)
Lemma primary_index_in_range c (imgs : list ImageRow) (urls : list string) :
  resolve_all c imgs = Ret urls ->
  (0 < findIndex (fun img => bool_truthy (is_primary img)) imgs)%Z ->
  is_Some (urls !! Z.to_nat (findIndex (fun img => bool_truthy (is_primary img)) imgs)).
Proof.
  intros Hurls. unfold findIndex.
  destruct (findIndex_from_cases (fun img => bool_truthy (is_primary img)) imgs 0)
    as [[-> _]|(k & x & -> & Hx & _)]; [lia|].
  intros _. rewrite Z.add_0_l, Nat2Z.id.
  destruct (array_map_lookup _ imgs urls k x Hurls Hx) as (u & Hu & _).
  rewrite Hu. eauto.
Qed.

(** C3. For a row whose images all resolve: if the first image flagged
    primary is at index [i > 0], the normalized images are its URL followed
    by the other URLs in their original order (the URL is taken out of
    position [i] and put at index 0); if it is at index 0, or no image is
    flagged, the URLs are left as resolved.  Only that one image moves. *)
Theorem primary_image_is_promoted (c : SupabaseClient) (now : string)
    (listing : RawListing) (imgs : list ImageRow) (urls : list string) :
  r_listing_images listing = Some imgs ->
  resolve_all c imgs = Ret urls ->
  exists item,
    approved_item c now listing = Ret item /\
    (forall i, first_primary_at imgs i ->
       exists img u,
         imgs !! i = Some img /\
         getPublicUrl c "listing-images" (storage_path img) = Ret u /\
         urls !! i = Some u /\
         images item = match i with
                       | O => urls
                       | S _ => u :: take i urls ++ drop (S i) urls
                       end) /\
    ((forall j img, imgs !! j = Some img -> bool_truthy (is_primary img) = false) ->
     images item = urls).
Proof.
  intros Himgs Hurls.
  unfold approved_item, mbind, completion_bind. rewrite Himgs.
  fold (resolve_all c imgs). rewrite Hurls. simpl bind.
  eexists. split; [reflexivity|]. simpl images. split.
  - intros i Hi.
    pose proof Hi as [(img & Himg & _) _].
    destruct (array_map_lookup _ imgs urls i img Hurls Himg) as (u & Hu & Hres).
    exists img, u. repeat split; try assumption.
    assert (0 < length imgs)%nat as Hlen by (apply lookup_lt_Some in Himg; lia).
    apply Nat.ltb_lt in Hlen. rewrite Hlen.
    rewrite (findIndex_first_primary imgs i Hi).
    destruct i as [|i]; [reflexivity|].
    assert (0 < length urls)%nat as Hlen' by (apply lookup_lt_Some in Hu; lia).
    apply Nat.ltb_lt in Hlen'. rewrite Hlen'.
    replace (0 <? Z.of_nat (S i))%Z with true by (symmetry; apply Z.ltb_lt; lia).
    rewrite Nat2Z.id. simpl andb. cbv iota. rewrite Hu.
    rewrite delete_take_drop. reflexivity.
  - intros Hnone. rewrite (findIndex_no_primary imgs Hnone).
    destruct (0 <? length imgs)%nat; reflexivity.
Qed.

Lemma primary_image_is_promoted_witness :
  first_primary_at
    [MemStore.image "a1/gate.jpg" false; MemStore.image "a1/pool.jpg" false;
     MemStore.image "a1/lake.jpg" true] 2 /\
  exists item,
    approved_item (MemStore.client MemStore.table) "2024-08-01T00:00:00.000Z" MemStore.lakeside
      = Ret item /\
    images item =
      ["https://cdn.test/storage/v1/object/public/listing-images/a1/lake.jpg";
       "https://cdn.test/storage/v1/object/public/listing-images/a1/gate.jpg";
       "https://cdn.test/storage/v1/object/public/listing-images/a1/pool.jpg"].
Proof.
  assert (first_primary_at
            [MemStore.image "a1/gate.jpg" false; MemStore.image "a1/pool.jpg" false;
             MemStore.image "a1/lake.jpg" true] 2) as Hfirst.
  { split; [eexists; split; reflexivity|].
    intros [|[|j]] img Hj; [intros [= <-]; reflexivity ..|lia]. }
  split; [exact Hfirst|].
  destruct (primary_image_is_promoted (MemStore.client MemStore.table)
              "2024-08-01T00:00:00.000Z" MemStore.lakeside _ _ eq_refl eq_refl)
    as (item & Hitem & Hpromote & _).
  exists item. split; [exact Hitem|].
  destruct (Hpromote 2%nat Hfirst) as (img & u & _ & _ & Hu & Himages).
  injection Hu as <-. exact Himages.
Defined.

(** C8. A row with price 0 and the same row with no price normalize to the
    same result, and whenever normalization succeeds on a row whose price
    is zero or missing the record has price 0. *)
Theorem zero_and_missing_price_coincide (c : SupabaseClient) (now : string)
    (listing : RawListing) :
  approved_item c now (with_price (Some 0%Q) listing)
  = approved_item c now (with_price None listing) /\
  (forall p item,
     (p == 0)%Q ->
     approved_item c now (with_price (Some p) listing) = Ret item ->
     price item = 0%Q) /\
  (forall item,
     approved_item c now (with_price None listing) = Ret item -> price item = 0%Q).
Proof.
  split; [reflexivity|]. split.
  - intros p item Hp. unfold approved_item, mbind, completion_bind. simpl r_listing_images.
    case_images listing;
      simpl; [|discriminate].
    intros [= <-]. simpl. unfold num_is_zero.
    apply Qeq_bool_iff in Hp. rewrite Hp. reflexivity.
  - intros item. unfold approved_item, mbind, completion_bind. simpl r_listing_images.
    case_images listing;
      simpl; [|discriminate].
    intros [= <-]. reflexivity.
Qed.

Lemma zero_and_missing_price_coincide_witness :
  r_price MemStore.pines = Some 0%Q /\
  r_price MemStore.austin_street = None /\
  (exists item,
     approved_item (MemStore.client MemStore.table) "2024-08-01T00:00:00.000Z" MemStore.pines
       = Ret item /\ price item = 0%Q) /\
  (exists item,
     approved_item (MemStore.client MemStore.table) "2024-08-01T00:00:00.000Z"
       MemStore.austin_street = Ret item /\ price item = 0%Q).
Proof.
  split; [reflexivity|]. split; [reflexivity|].
  pose proof (zero_and_missing_price_coincide (MemStore.client MemStore.table)
                "2024-08-01T00:00:00.000Z" MemStore.pines) as (_ & Hzero & _).
  pose proof (zero_and_missing_price_coincide (MemStore.client MemStore.table)
                "2024-08-01T00:00:00.000Z" MemStore.austin_street) as (_ & _ & Hmissing).
  split.
  - eexists. split; [reflexivity|].
    apply (Hzero 0%Q); [reflexivity|]. reflexivity.
  - eexists. split; [reflexivity|].
    apply Hmissing. reflexivity.
Defined.

(** C9. A row whose image collection is absent or empty normalizes
    successfully, in each of the three operations, to a record whose images
    are the empty sequence; the row is kept. *)
Theorem no_images_is_not_an_error (c : SupabaseClient) (now : string)
    (listing : RawListing) :
  r_listing_images listing = None \/ r_listing_images listing = Some [] ->
  exists item,
    approved_item c now listing = Ret item /\
    images item = [] /\
    attempt (approved_item c now) listing = Some item /\
    by_id_item c now listing = Ret item /\
    featured_item c now listing = Ret (with_featured true item).
Proof.
  intros Himgs.
  unfold attempt, approved_item, by_id_item, featured_item, mbind, completion_bind.
  destruct Himgs as [-> | ->]; simpl; eexists; repeat split; reflexivity.
Qed.

Lemma no_images_is_not_an_error_witness :
  r_listing_images MemStore.pines = None /\
  r_listing_images MemStore.austin_street = Some [] /\
  (exists item,
     approved_item (MemStore.client MemStore.table) "2024-08-01T00:00:00.000Z" MemStore.pines
       = Ret item /\ images item = []) /\
  (exists item,
     approved_item (MemStore.client MemStore.table) "2024-08-01T00:00:00.000Z"
       MemStore.austin_street = Ret item /\ images item = []).
Proof.
  split; [reflexivity|]. split; [reflexivity|]. split.
  - destruct (no_images_is_not_an_error (MemStore.client MemStore.table)
                "2024-08-01T00:00:00.000Z" MemStore.pines (or_introl eq_refl))
      as (item & Hitem & Himages & _).
    exists item. split; assumption.
  - destruct (no_images_is_not_an_error (MemStore.client MemStore.table)
                "2024-08-01T00:00:00.000Z" MemStore.austin_street (or_intror eq_refl))
      as (item & Hitem & Himages & _).
    exists item. split; assumption.
Defined.

(** C10. On every row the three per-row normalizers agree, thrown
    exceptions included, except for the featured flag: the one of
    [fetchApprovedListingById] is the one of [fetchApprovedListings], the
    one of [fetchFeaturedApprovedListings] is the same with the flag set to
    true, and the first sets the flag to false; all three synthesize the
    same placeholder broker. *)
Theorem normalizers_agree_up_to_featured (c : SupabaseClient) (now : string)
    (listing : RawListing) :
  by_id_item c now listing = approved_item c now listing /\
  featured_item c now listing
  = fmap_completion (with_featured true) (approved_item c now listing) /\
  approved_item c now listing
  = fmap_completion (with_featured false) (approved_item c now listing) /\
  fmap_completion broker (approved_item c now listing)
  = fmap_completion (fun _ => placeholder_broker listing) (approved_item c now listing) /\
  fmap_completion broker (featured_item c now listing)
  = fmap_completion broker (approved_item c now listing).
Proof.
  split; [apply by_id_item_as_approved|].
  split; [apply featured_item_as_approved|].
  rewrite featured_item_as_approved.
  unfold fmap_completion, approved_item, mbind, completion_bind.
  case_images listing;
    repeat split; reflexivity.
Qed.

(** ** The filters of the request *)

Lemma num_gt_iff a b : num_gt a b = true <-> (b < a)%Q.
Proof.
  unfold num_gt. rewrite negb_true_iff, <- not_true_iff_false, Qle_bool_iff.
  split; [apply Qnot_le_lt|apply Qlt_not_le].
Qed.

Lemma num_lt_iff a b : num_lt a b = true <-> (a < b)%Q.
Proof. unfold num_lt. apply (num_gt_iff b a). Qed.

Lemma elem_of_lower_bound_part (f : Postgrest.Filter) column v :
  f ∈ lower_bound_part column v <->
  exists x, v = Some x /\ (0 < x)%Q /\ f = Postgrest.F_gte column x.
Proof.
  unfold lower_bound_part. destruct v as [x|].
  - destruct (num_gt x 0%Q) eqn:Hx.
    + rewrite list_elem_of_singleton. apply num_gt_iff in Hx. split.
      * intros ->. eauto.
      * intros (y & [= <-] & _ & ->). reflexivity.
    + split; [intros H; inversion H|].
      intros (y & [= <-] & Hy & _). apply num_gt_iff in Hy. congruence.
  - split; [intros H; inversion H|]. intros (y & Hy & _). discriminate.
Qed.

Lemma elem_of_upper_bound_part (f : Postgrest.Filter) column sentinel v :
  f ∈ upper_bound_part column sentinel v <->
  exists x, v = Some x /\ (x < sentinel)%Q /\ f = Postgrest.F_lte column x.
Proof.
  unfold upper_bound_part. destruct v as [x|].
  - destruct (num_lt x sentinel) eqn:Hx.
    + rewrite list_elem_of_singleton. apply num_lt_iff in Hx. split.
      * intros ->. eauto.
      * intros (y & [= <-] & _ & ->). reflexivity.
    + split; [intros H; inversion H|].
      intros (y & [= <-] & Hy & _). apply num_lt_iff in Hy. congruence.
  - split; [intros H; inversion H|]. intros (y & Hy & _). discriminate.
Qed.

Lemma elem_of_state_part (f : Postgrest.Filter) s :
  f ∈ state_part s -> exists x, f = Postgrest.F_eq "state" x.
Proof.
  unfold state_part. destruct s as [x|]; [|intros H; inversion H].
  destruct (negb (String.eqb x "")); [|intros H; inversion H].
  rewrite list_elem_of_singleton. eauto.
Qed.

Lemma elem_of_search_part (f : Postgrest.Filter) s :
  f ∈ search_part s <->
  exists t, s = Some t /\ t <> "" /\ trim t <> "" /\
            f = Postgrest.F_or (render_or (search_conditions (trim t))).
Proof.
  unfold search_part. destruct s as [t|].
  - destruct (String.eqb_spec t "") as [Ht|Ht]; simpl.
    + split; [intros H; inversion H|]. intros (y & [= <-] & Hy & _). contradiction.
    + destruct (String.eqb_spec (trim t) "") as [Htt|Htt]; simpl.
      * split; [intros H; inversion H|]. intros (y & [= <-] & _ & Hy & _). contradiction.
      * rewrite list_elem_of_singleton. split.
        -- intros ->. eauto.
        -- intros (y & [= <-] & _ & _ & ->). reflexivity.
  - split; [intros H; inversion H|]. intros (y & Hy & _). discriminate.
Qed.

(** C4. In the request of [fetchApprovedListings] the lower bound on price
    is present exactly when [priceMin] is defined and positive, and the
    upper bound exactly when [priceMax] is defined and below 10,000,000;
    without a filter object neither is present.  So [priceMax = 10000000]
    adds no upper bound, and [priceMin = 100000] with [priceMax = 9999999]
    adds both. *)
Theorem price_bounds_applied (f : ListingFilters) (v : number) :
  (Postgrest.F_gte "price" v ∈ Postgrest.q_filters (approved_query (Some f)) <->
   priceMin f = Some v /\ (0 < v)%Q) /\
  (Postgrest.F_lte "price" v ∈ Postgrest.q_filters (approved_query (Some f)) <->
   priceMax f = Some v /\ (v < 10000000)%Q) /\
  (Postgrest.F_gte "price" v ∉ Postgrest.q_filters (approved_query None)) /\
  (Postgrest.F_lte "price" v ∉ Postgrest.q_filters (approved_query None)) /\
  (priceMax f = Some 10000000%Q ->
   forall x, Postgrest.F_lte "price" x ∉ Postgrest.q_filters (approved_query (Some f))) /\
  (priceMin f = Some 100000%Q -> priceMax f = Some 9999999%Q ->
   Postgrest.F_gte "price" 100000%Q ∈ Postgrest.q_filters (approved_query (Some f)) /\
   Postgrest.F_lte "price" 9999999%Q ∈ Postgrest.q_filters (approved_query (Some f))).
Proof.
  assert (forall x,
            Postgrest.F_gte "price" x ∈ Postgrest.q_filters (approved_query (Some f)) <->
            priceMin f = Some x /\ (0 < x)%Q) as Hmin.
  { intros x. rewrite approved_query_filters.
    rewrite elem_of_cons, !elem_of_app, !elem_of_lower_bound_part,
      !elem_of_upper_bound_part, elem_of_search_part.
    split.
    - intros [H|[(y & Hy & Hpos & [= <-])|[(y & _ & _ & H)|[H|[(y & _ & _ & H)|
        [(y & _ & _ & H)|[(y & _ & _ & H)|[(y & _ & _ & H)|(t & _ & _ & _ & H)]]]]]]]];
        try discriminate; [tauto|].
      apply elem_of_state_part in H as [y H]. discriminate.
    - intros [Hx Hpos]. right. left. eauto. }
  assert (forall x,
            Postgrest.F_lte "price" x ∈ Postgrest.q_filters (approved_query (Some f)) <->
            priceMax f = Some x /\ (x < 10000000)%Q) as Hmax.
  { intros x. rewrite approved_query_filters.
    rewrite elem_of_cons, !elem_of_app, !elem_of_lower_bound_part,
      !elem_of_upper_bound_part, elem_of_search_part.
    split.
    - intros [H|[(y & _ & _ & H)|[(y & Hy & Hlt & [= <-])|[H|[(y & _ & _ & H)|
        [(y & _ & _ & H)|[(y & _ & _ & H)|[(y & _ & _ & H)|(t & _ & _ & _ & H)]]]]]]]];
        try discriminate; [tauto|].
      apply elem_of_state_part in H as [y H]. discriminate.
    - intros [Hx Hlt]. right. right. left. eauto. }
  split; [apply Hmin|]. split; [apply Hmax|].
  rewrite approved_query_no_filters, !list_elem_of_singleton.
  split; [discriminate|]. split; [discriminate|]. split.
  - intros Hsentinel x Hx. apply Hmax in Hx as [Hx Hlt].
    rewrite Hsentinel in Hx. injection Hx as <-. revert Hlt. apply Qlt_irrefl.
  - intros H1 H2. split; [apply Hmin|apply Hmax]; split; try assumption; reflexivity.
Qed.

Lemma price_bounds_applied_witness :
  Postgrest.q_filters
    (approved_query
       (Some (mkFilters (Some 100000%Q) (Some 9999999%Q) None None None None None None)))
  = [Postgrest.F_eq "status" "approved"; Postgrest.F_gte "price" 100000%Q;
     Postgrest.F_lte "price" 9999999%Q] /\
  (Postgrest.F_gte "price" 100000%Q
     ∈ Postgrest.q_filters
         (approved_query
            (Some (mkFilters (Some 100000%Q) (Some 9999999%Q) None None None None None None)))
   /\
   Postgrest.F_lte "price" 9999999%Q
     ∈ Postgrest.q_filters
         (approved_query
            (Some (mkFilters (Some 100000%Q) (Some 9999999%Q) None None None None None None))))
  /\
  forall x,
    Postgrest.F_lte "price" x
      ∉ Postgrest.q_filters
          (approved_query
             (Some (mkFilters None (Some 10000000%Q) None None None None None None))).
Proof.
  split; [reflexivity|]. split.
  - apply (price_bounds_applied
             (mkFilters (Some 100000%Q) (Some 9999999%Q) None None None None None None)
             0%Q); reflexivity.
  - apply (price_bounds_applied
             (mkFilters None (Some 10000000%Q) None None None None None None) 0%Q).
    reflexivity.
Defined.

Lemma string_append_assoc (a b d : string) : (a +:+ b) +:+ d = a +:+ b +:+ d.
Proof.
  induction a as [|ch a IH]; [reflexivity|].
  change (String ch ((a +:+ b) +:+ d) = String ch (a +:+ b +:+ d)).
  rewrite IH. reflexivity.
Qed.

Lemma filter_is_or_lower column v : List.filter is_or (lower_bound_part column v) = [].
Proof. destruct v as [x|]; simpl; [destruct (num_gt x 0%Q)|]; reflexivity. Qed.

Lemma filter_is_or_upper column sentinel v :
  List.filter is_or (upper_bound_part column sentinel v) = [].
Proof. destruct v as [x|]; simpl; [destruct (num_lt x sentinel)|]; reflexivity. Qed.

Lemma filter_is_or_state s : List.filter is_or (state_part s) = [].
Proof. destruct s as [x|]; simpl; [destruct (negb (String.eqb x ""))|]; reflexivity. Qed.

Lemma filter_is_or_search s : List.filter is_or (search_part s) = search_part s.
Proof.
  destruct s as [x|]; simpl; [|reflexivity].
  destruct (negb (String.eqb x "") && negb (String.eqb (trim x) "")); reflexivity.
Qed.

Lemma condition_holds_search ilike term column r :
  condition_holds ilike (mkCond column "ilike" ("%" +:+ term +:+ "%")) r
  = match text_column column r with
    | Some v => ilike ("%" +:+ term +:+ "%") v
    | None => false
    end.
Proof. reflexivity. Qed.

(** Given search "austin", the row whose city is Austin is returned and the
    row that mentions Austin only in its address is not. *)
Example search_austin :
  fmap_completion (map id)
    (fetchApprovedListings (MemStore.client MemStore.table) "2024-08-01T00:00:00.000Z"
       (Some (mkFilters None None None None None None None (Some "austin"))))
  = Ret ["a1"].
Proof. reflexivity. Qed.

(** ** The featured listings *)

Lemma length_omap_le {A B} (g : A -> option B) (l : list A) :
  (length (omap g l) <= length l)%nat.
Proof.
  induction l as [|x l IH]; [reflexivity|].
  change (omap g (x :: l))
    with (match g x with Some y => y :: omap g l | None => omap g l end).
  destruct (g x); simpl length; lia.
Qed.

Lemma StronglySorted_and_Forall {A} (R : relation A) (P : A -> Prop) (l : list A) :
  StronglySorted R l -> Forall P l ->
  StronglySorted (fun a b => R a b /\ P a /\ P b) l.
Proof.
  induction 1 as [|a l Hl IH Ha]; intros HP; [constructor|].
  apply Forall_cons in HP as [HPa HPl].
  constructor; [apply IH; assumption|].
  rewrite Forall_forall in *. intros b Hb. auto.
Qed.

Lemma str_or_truthy x d : str_truthy x = true -> Some (str_or x d) = x.
Proof.
  destruct x as [s|]; simpl; [|discriminate].
  destruct (String.eqb s ""); [discriminate|reflexivity].
Qed.

(** C5, amended. [fetchFeaturedApprovedListings] asks the [listings]
    table, with the columns of the other operations, for the approved rows
    ordered by [created_at] descending, limited to 3, and for nothing
    else.  It returns a sequence whose every record has [featured = true];
    the sequence has at most 3 records when the store honours the limit,
    and is ordered by [createdAt] descending when the store honours the
    order and every row it answers carries its creation time.  (A row
    without one is given the clock reading as [createdAt] and keeps the
    place the store gave it: see the counterexample below.) *)
Theorem featured_listings_bounded_sorted (c : SupabaseClient) (now : string)
    (later_eq : string -> string -> Prop) :
  (featured_query
   = Postgrest.mkQuery "listings" listing_columns None false
       [Postgrest.F_eq "status" "approved"] [("created_at", false)] (Some 3%Z) false /\
   Postgrest.q_filters featured_query = [Postgrest.F_eq "status" "approved"] /\
   Postgrest.q_order featured_query = [("created_at", false)] /\
   Postgrest.q_limit featured_query = Some 3%Z) /\
  exists ls,
    fetchFeaturedApprovedListings c now = Ret ls /\
    Forall (fun l => featured l = true) ls /\
    (honours_limit c -> (length ls <= 3)%nat) /\
    (honours_order later_eq c -> has_created_at c ->
     StronglySorted (fun a b => later_eq (createdAt a) (createdAt b)) ls).
Proof.
  split; [repeat split|].
  destruct (await_rows c featured_query) as [resp|e] eqn:Hq.
  - destruct (Postgrest.error resp) as [err|] eqn:He.
    + exists []. split.
      { apply fetchFeaturedApprovedListings_failed. rewrite Hq. simpl. rewrite He. eauto. }
      repeat split; intros; simpl; try constructor; lia.
    + destruct (Postgrest.data resp) as [rows|] eqn:Hd.
      * exists (omap (attempt (featured_item c now)) rows).
        split; [apply (fetchFeaturedApprovedListings_rows c now resp rows Hq He Hd)|].
        split; [|split].
        -- apply Forall_forall. intros item Hitem.
           apply list_elem_of_omap in Hitem as (r & _ & Hr). unfold attempt in Hr.
           destruct (featured_item c now r) as [item'|] eqn:Hitem'; [|discriminate].
           injection Hr as ->. apply (featured_item_fields c now r item Hitem').
        -- intros Hlimit.
           pose proof (Hlimit featured_query resp rows 3%Z Hq Hd eq_refl) as Hlen.
           pose proof (length_omap_le (attempt (featured_item c now)) rows). simpl in Hlen. lia.
        -- intros Horder Hcreated.
           pose proof (Horder featured_query resp rows Hq Hd eq_refl) as Hsorted.
           assert (Forall (fun r => str_truthy (r_created_at r) = true) rows) as Hall.
           { apply Forall_forall. intros r Hr. apply (Hcreated featured_query resp rows Hq Hd r Hr). }
           pose proof (StronglySorted_and_Forall _ _ rows Hsorted Hall) as Hboth.
           eapply StronglySorted_omap; [|exact Hboth].
           intros a b a' b' (Hab & Ha & Hb) Ha' Hb'. unfold attempt in Ha', Hb'.
           destruct (featured_item c now a) as [ia|] eqn:Hia; [|discriminate].
           destruct (featured_item c now b) as [ib|] eqn:Hib; [|discriminate].
           injection Ha' as ->. injection Hb' as ->.
           destruct (featured_item_fields c now a a' Hia) as [_ ->].
           destruct (featured_item_fields c now b b' Hib) as [_ ->].
           apply Hab; symmetry; apply str_or_truthy; assumption.
      * exists []. split.
        { apply (fetchFeaturedApprovedListings_no_data c now resp); assumption. }
        repeat split; intros; simpl; try constructor; lia.
  - exists []. split.
    { apply fetchFeaturedApprovedListings_failed. rewrite Hq. exact I. }
    repeat split; intros; simpl; try constructor; lia.
Qed.

Lemma featured_listings_bounded_sorted_witness :
  honours_limit (MemStore.client MemStore.table) /\
  honours_order MemStore.later_eq (MemStore.client MemStore.table) /\
  has_created_at (MemStore.client MemStore.table) /\
  exists ls,
    fetchFeaturedApprovedListings (MemStore.client MemStore.table) "2024-08-01T00:00:00.000Z"
      = Ret ls /\
    map id ls = ["b2"; "c3"] /\
    (length ls <= 3)%nat /\
    StronglySorted (fun a b => MemStore.later_eq (createdAt a) (createdAt b)) ls.
Proof.
  assert (has_created_at (MemStore.client MemStore.table)) as Hcreated.
  { apply client_has_created_at. unfold MemStore.table. repeat constructor. }
  split; [apply client_honours_limit|].
  split; [apply client_honours_order|].
  split; [exact Hcreated|].
  destruct (featured_listings_bounded_sorted (MemStore.client MemStore.table)
              "2024-08-01T00:00:00.000Z" MemStore.later_eq)
    as (_ & ls & Hls & _ & Hlen & Hsorted).
  exists ls. split; [exact Hls|]. split.
  - assert (Ret ls = fetchFeaturedApprovedListings (MemStore.client MemStore.table)
                       "2024-08-01T00:00:00.000Z") as Heq by (symmetry; exact Hls).
    vm_compute in Heq. injection Heq as ->. reflexivity.
  - split.
    + apply Hlen, client_honours_limit.
    + apply Hsorted; [apply client_honours_order|exact Hcreated].
Defined.

(** C5 as stated fails: a store that honours the status filter, the limit
    and the order answers the newest row it has and a row without creation
    time; the undated row comes first, as a descending order places null,
    and is given the clock reading, which is earlier than the creation
    time of the row after it.  The result is not in descending order of
    [createdAt]. *)
Lemma featured_order_counterexample :
  honours_eq (MemStore.client Samples.undated_table) /\
  honours_limit (MemStore.client Samples.undated_table) /\
  honours_order MemStore.later_eq (MemStore.client Samples.undated_table) /\
  exists ls,
    fetchFeaturedApprovedListings (MemStore.client Samples.undated_table)
      "2024-08-01T00:00:00.000Z" = Ret ls /\
    map (fun l => (id l, createdAt l)) ls
    = [("u2", "2024-08-01T00:00:00.000Z"); ("n1", "2024-08-01T00:00:03+00:00")] /\
    (length ls <= 3)%nat /\
    Forall (fun l => featured l = true) ls /\
    ~ StronglySorted (fun a b => MemStore.later_eq (createdAt a) (createdAt b)) ls.
Proof.
  split; [apply client_honours_eq|].
  split; [apply client_honours_limit|].
  split; [apply client_honours_order|].
  eexists. split; [reflexivity|].
  split; [reflexivity|].
  split; [simpl; lia|].
  split; [repeat constructor|].
  intros Hsorted. inversion Hsorted as [|a l _ Hhead]; subst.
  inversion Hhead as [|b l' Hlater _]; subst.
  vm_compute in Hlater. discriminate Hlater.
Qed.

(** ** How the reference store reads the search filter *)

Lemma list_ascii_of_string_append (a b : string) :
  list_ascii_of_string (a +:+ b) = list_ascii_of_string a ++ list_ascii_of_string b.
Proof.
  induction a as [|ch a IH]; [reflexivity|].
  change (ch :: list_ascii_of_string (a +:+ b)
          = ch :: (list_ascii_of_string a ++ list_ascii_of_string b)).
  rewrite IH. reflexivity.
Qed.

Lemma split_on_free sep (l : list ascii) :
  forallb (fun x => negb (Ascii.eqb x sep)) l = true ->
  MemStore.split_on sep l = [l].
Proof.
  induction l as [|ch l IH]; simpl; [reflexivity|].
  intros [Hch Hl]%andb_true_iff. apply negb_true_iff in Hch.
  rewrite Hch, (IH Hl). reflexivity.
Qed.

Lemma split_on_app sep (l1 l2 : list ascii) :
  forallb (fun x => negb (Ascii.eqb x sep)) l1 = true ->
  MemStore.split_on sep (l1 ++ sep :: l2) = l1 :: MemStore.split_on sep l2.
Proof.
  induction l1 as [|ch l1 IH]; simpl.
  - intros _. rewrite Ascii.eqb_refl. reflexivity.
  - intros [Hch Hl]%andb_true_iff. apply negb_true_iff in Hch.
    rewrite Hch, (IH Hl). reflexivity.
Qed.

Lemma break_at_app sep (l1 l2 : list ascii) :
  forallb (fun x => negb (Ascii.eqb x sep)) l1 = true ->
  MemStore.break_at sep (l1 ++ sep :: l2) = Some (l1, l2).
Proof.
  induction l1 as [|ch l1 IH]; simpl.
  - intros _. rewrite Ascii.eqb_refl. reflexivity.
  - intros [Hch Hl]%andb_true_iff. apply negb_true_iff in Hch.
    rewrite Hch, (IH Hl). reflexivity.
Qed.

Lemma render_condition_chars cd :
  list_ascii_of_string (render_condition cd)
  = list_ascii_of_string (oc_column cd)
    ++ "."%char :: list_ascii_of_string (oc_operator cd)
    ++ "."%char :: list_ascii_of_string (oc_pattern cd).
Proof.
  unfold render_condition. rewrite !list_ascii_of_string_append. reflexivity.
Qed.

(** Parsing a rendered condition gives the condition back. *)
Lemma parse_condition_render cd :
  MemStore.plain_condition cd = true ->
  MemStore.parse_condition (list_ascii_of_string (render_condition cd)) = Some cd.
Proof.
  unfold MemStore.plain_condition, MemStore.free_of.
  rewrite !andb_true_iff. intros ((((Hc & _) & Ho) & _) & _).
  unfold MemStore.parse_condition.
  rewrite render_condition_chars, (break_at_app _ _ _ Hc), (break_at_app _ _ _ Ho).
  rewrite !string_of_list_ascii_of_string. destruct cd; reflexivity.
Qed.

Lemma render_condition_free_of_comma cd :
  MemStore.plain_condition cd = true ->
  forallb (fun x => negb (Ascii.eqb x ","%char))
    (list_ascii_of_string (render_condition cd)) = true.
Proof.
  unfold MemStore.plain_condition, MemStore.free_of.
  rewrite !andb_true_iff. intros ((((_ & Hc) & _) & Ho) & Hp).
  rewrite render_condition_chars, !forallb_app. simpl.
  rewrite forallb_app. simpl. rewrite Hc, Ho, Hp. reflexivity.
Qed.

(** Parsing a rendered group gives the group back, as long as no
    separator hides inside its parts. *)
Lemma parse_or_render cd conds :
  forallb MemStore.plain_condition (cd :: conds) = true ->
  MemStore.parse_or (render_or (cd :: conds)) = Some (cd :: conds).
Proof.
  unfold MemStore.parse_or, render_or. revert cd.
  induction conds as [|cd' conds IH]; intros cd; simpl forallb;
    rewrite ?andb_true_iff.
  - intros [Hcd _]. simpl String.concat.
    rewrite (split_on_free _ _ (render_condition_free_of_comma cd Hcd)).
    simpl. rewrite (parse_condition_render cd Hcd). reflexivity.
  - intros [Hcd Hrest].
    assert (forallb MemStore.plain_condition (cd' :: conds) = true) as Hrest'
      by (simpl; apply andb_true_iff; exact Hrest).
    specialize (IH cd' Hrest').
    change (String.concat "," (map render_condition (cd :: cd' :: conds)))
      with (render_condition cd +:+ "," +:+
            String.concat "," (map render_condition (cd' :: conds))).
    set (rest := String.concat "," (map render_condition (cd' :: conds))) in *.
    rewrite !list_ascii_of_string_append.
    change (list_ascii_of_string ",") with [","%char].
    change ([","%char] ++ list_ascii_of_string rest)
      with (","%char :: list_ascii_of_string rest).
    rewrite (split_on_app _ _ _ (render_condition_free_of_comma cd Hcd)).
    change (mapM MemStore.parse_condition (?x :: ?l))
      with (y ← MemStore.parse_condition x; k ← mapM MemStore.parse_condition l;
            mret (y :: k)).
    rewrite (parse_condition_render cd Hcd), IH. reflexivity.
Qed.

Lemma free_of_append ch a b :
  MemStore.free_of ch (a +:+ b) = MemStore.free_of ch a && MemStore.free_of ch b.
Proof.
  unfold MemStore.free_of. rewrite list_ascii_of_string_append. apply forallb_app.
Qed.

(** For a search term without a comma the reference store reads the filter
    [fetchApprovedListings] builds as the four conditions it was rendered
    from. *)
Lemma search_filter_read_back term :
  MemStore.free_of ","%char term = true ->
  MemStore.parse_or (render_or (search_conditions term)) = Some (search_conditions term).
Proof.
  intros Hterm. apply parse_or_render.
  unfold search_conditions, search_columns. simpl map. simpl forallb.
  unfold MemStore.plain_condition. simpl oc_column. simpl oc_operator. simpl oc_pattern.
  rewrite !free_of_append, Hterm. reflexivity.
Qed.

Lemma search_filter_matches term r :
  MemStore.free_of ","%char term = true ->
  MemStore.row_matches (Postgrest.F_or (render_or (search_conditions term))) r
  = or_holds MemStore.ilike (search_conditions term) r.
Proof.
  intros Hterm. unfold MemStore.row_matches.
  rewrite (search_filter_read_back term Hterm). reflexivity.
Qed.

(** A comma inside the term is read by the store as a separator: the group
    no longer consists of the four conditions, and here the request is
    answered with an error, which the operation turns into the empty
    sequence. *)
Example search_term_with_comma :
  MemStore.parse_or (render_or (search_conditions "x,id.eq.a1"))
  <> Some (search_conditions "x,id.eq.a1") /\
  fetchApprovedListings (MemStore.client MemStore.table) "2024-08-01T00:00:00.000Z"
    (Some (mkFilters None None None None None None None (Some "x,id.eq.a1")))
  = Ret [].
Proof. split; [vm_compute; discriminate|reflexivity]. Qed.

(** ** What the reference matcher accepts *)

Lemma like_list_percent p s :
  MemStore.like_list ("%"%char :: p) s
  = MemStore.like_list p s ||
    match s with
    | [] => false
    | _ :: s' => MemStore.like_list ("%"%char :: p) s'
    end.
Proof. destruct s; reflexivity. Qed.

(** [%] followed by [p] matches when [p] matches some suffix. *)
Lemma like_list_percent_iff p s :
  MemStore.like_list ("%"%char :: p) s = true <->
  exists pre post, s = pre ++ post /\ MemStore.like_list p post = true.
Proof.
  induction s as [|ch s IH]; rewrite like_list_percent, orb_true_iff.
  - split.
    + intros [H|H]; [|discriminate]. exists [], []. split; [reflexivity|assumption].
    + intros (pre & post & Hs & Hp). left.
      symmetry in Hs. apply app_eq_nil in Hs as [_ ->]. assumption.
  - rewrite IH. split.
    + intros [H|(pre & post & -> & Hp)].
      * exists [], (ch :: s). split; [reflexivity|assumption].
      * exists (ch :: pre), post. split; [reflexivity|assumption].
    + intros (pre & post & Hs & Hp). destruct pre as [|x pre]; simpl in Hs.
      * left. subst post. assumption.
      * right. injection Hs as -> ->. eauto.
Qed.

(** Literal characters match themselves, one by one. *)
Lemma like_list_literal_iff t p s :
  MemStore.wildcard_free t = true ->
  (MemStore.like_list (t ++ p) s = true <->
   exists rest, s = t ++ rest /\ MemStore.like_list p rest = true).
Proof.
  revert s. induction t as [|x t IH]; intros s Ht.
  - simpl. split; [eauto|]. intros (rest & -> & H). assumption.
  - simpl in Ht. apply andb_true_iff in Ht as [Hx Ht].
    apply andb_true_iff in Hx as [Hpct Hund].
    apply negb_true_iff in Hpct, Hund.
    change (MemStore.like_list ((x :: t) ++ p) s)
      with (if Ascii.eqb x "%"%char
            then MemStore.like_list ("%"%char :: t ++ p) s
            else match s with
                 | [] => false
                 | ch :: s' =>
                     (Ascii.eqb x "_"%char || Ascii.eqb x ch)
                     && MemStore.like_list (t ++ p) s'
                 end).
    rewrite Hpct. destruct s as [|ch s].
    + split; [discriminate|]. intros (rest & Hs & _). discriminate.
    + rewrite Hund. simpl orb. rewrite andb_true_iff, (IH s Ht). split.
      * intros [Hch (rest & -> & Hp)]. apply Ascii.eqb_eq in Hch as ->. eauto.
      * intros (rest & [= -> ->] & Hp). split; [apply Ascii.eqb_refl|eauto].
Qed.

(** A wildcard-free text between two [%] matches exactly the values that
    contain it. *)
Lemma like_list_contains t s :
  MemStore.wildcard_free t = true ->
  (MemStore.like_list ("%"%char :: t ++ ["%"%char]) s = true <->
   exists pre post, s = pre ++ t ++ post).
Proof.
  intros Ht. rewrite like_list_percent_iff. split.
  - intros (pre & rest & -> & H).
    apply (like_list_literal_iff t _ _ Ht) in H as (post & -> & _). eauto.
  - intros (pre & post & ->). exists pre, (t ++ post). split; [reflexivity|].
    apply (like_list_literal_iff t _ _ Ht). exists post. split; [reflexivity|].
    apply like_list_percent_iff. exists post, []. split; [|reflexivity].
    rewrite app_nil_r. reflexivity.
Qed.

Lemma lower_keeps_wildcards x :
  Ascii.eqb (MemStore.lower x) "%"%char = Ascii.eqb x "%"%char /\
  Ascii.eqb (MemStore.lower x) "_"%char = Ascii.eqb x "_"%char.
Proof. destruct x as [[] [] [] [] [] [] [] []]; split; reflexivity. Qed.

Lemma wildcard_free_lower t :
  MemStore.wildcard_free (map MemStore.lower t) = MemStore.wildcard_free t.
Proof.
  induction t as [|x t IH]; [reflexivity|]. simpl.
  destruct (lower_keeps_wildcards x) as [-> ->]. rewrite IH. reflexivity.
Qed.

(** The pattern [%term%] of a wildcard-free term matches a value exactly
    when the value contains the term, letter case aside. *)
Lemma ilike_contains term v :
  MemStore.wildcard_free (list_ascii_of_string term) = true ->
  (MemStore.ilike ("%" +:+ term +:+ "%") v = true <->
   exists pre post,
     map MemStore.lower (list_ascii_of_string v)
     = pre ++ map MemStore.lower (list_ascii_of_string term) ++ post).
Proof.
  intros Hterm. unfold MemStore.ilike.
  rewrite !list_ascii_of_string_append, !map_app.
  apply like_list_contains. rewrite wildcard_free_lower. assumption.
Qed.

(** ** The search term inside the filter text *)

Lemma render_or_search_text term :
  render_or (search_conditions term)
  = "title.ilike.%" +:+ term +:+ "%,description.ilike.%" +:+ term
    +:+ "%,city.ilike.%" +:+ term +:+ "%,state.ilike.%" +:+ term +:+ "%".
Proof.
  unfold render_or, search_conditions, render_condition. simpl.
  rewrite !string_append_assoc. reflexivity.
Qed.

Lemma is_prefix_iff (t s : list ascii) :
  SearchSpec.is_prefix t s = true <-> exists post, s = t ++ post.
Proof.
  revert s. induction t as [|x t IH]; intros s; simpl.
  - split; [eauto|reflexivity].
  - destruct s as [|y s].
    + split; [discriminate|]. intros [post H]. discriminate H.
    + rewrite andb_true_iff, IH. split.
      * intros [->%Ascii.eqb_eq [post ->]]. eauto.
      * intros [post [= -> ->]]. split; [apply Ascii.eqb_refl|eauto].
Qed.

Lemma occurs_iff (t s : list ascii) :
  SearchSpec.occurs t s = true <-> exists pre post, s = pre ++ t ++ post.
Proof.
  induction s as [|y s IH]; simpl; rewrite orb_true_iff, is_prefix_iff.
  - split.
    + intros [[post H]|H]; [|discriminate]. exists [], post. exact H.
    + intros (pre & post & H). left.
      destruct pre as [|x pre]; [|discriminate H]. eauto.
  - rewrite IH. split.
    + intros [[post H]|(pre & post & ->)].
      * exists [], post. exact H.
      * exists (y :: pre), post. reflexivity.
    + intros (pre & post & H). destruct pre as [|x pre].
      * left. eauto.
      * right. injection H as -> ->. eauto.
Qed.

(** For a term without wildcard characters the pattern [%term%] selects
    what the specification calls containing the term. *)
Lemma ilike_is_contains term v :
  MemStore.wildcard_free (list_ascii_of_string term) = true ->
  MemStore.ilike ("%" +:+ term +:+ "%") v = SearchSpec.contains term v.
Proof.
  intros Hterm. apply Bool.eq_true_iff_eq.
  rewrite (ilike_contains term v Hterm). unfold SearchSpec.contains.
  rewrite occurs_iff. reflexivity.
Qed.

Lemma plain_search_matches term r :
  MemStore.free_of ","%char term = true ->
  MemStore.wildcard_free (list_ascii_of_string term) = true ->
  MemStore.row_matches (Postgrest.F_or (render_or (search_conditions term))) r
  = SearchSpec.holds term r.
Proof.
  intros Hcomma Hwild. rewrite (search_filter_matches term r Hcomma).
  unfold or_holds, search_conditions, search_columns, SearchSpec.holds.
  simpl map. simpl existsb. rewrite !condition_holds_search.
  destruct (text_column "title" r), (text_column "description" r),
    (text_column "city" r), (text_column "state" r);
    rewrite ?(ilike_is_contains term _ Hwild); reflexivity.
Qed.

(** C6. The request of [fetchApprovedListings] carries a search filter
    exactly when [search] is a non-empty string whose trimmed form is
    non-empty, and never more than one; its text is the template of the
    four conditions [title], [description], [city] and [state] [ilike]
    [%term%] with the trimmed term pasted in as it is.  For a term without
    a comma and without the wildcard characters [%] and [_], the reference
    store reads that text as the specification describes the search: a row
    satisfies it exactly when one of the four columns contains the term,
    letter case aside.  A term with a comma is read as further conditions:
    for the term [zzz%,address.ilike.%austin] the text carries conditions
    on [address], and the row that mentions Austin only in its address is
    returned although none of its four columns contains the term. *)
Theorem search_term_is_interpolated :
  (forall f s,
     Postgrest.F_or s ∈ Postgrest.q_filters (approved_query (Some f)) <->
     exists t, search f = Some t /\ t <> "" /\ trim t <> "" /\
       s = "title.ilike.%" +:+ trim t +:+ "%,description.ilike.%" +:+ trim t
           +:+ "%,city.ilike.%" +:+ trim t +:+ "%,state.ilike.%" +:+ trim t +:+ "%") /\
  (forall filters,
     (length (List.filter is_or (Postgrest.q_filters (approved_query filters))) <= 1)%nat) /\
  (forall f t,
     search f = Some t -> t <> "" -> trim t <> "" ->
     MemStore.free_of ","%char (trim t) = true ->
     MemStore.wildcard_free (list_ascii_of_string (trim t)) = true ->
     exists s,
       List.filter is_or (Postgrest.q_filters (approved_query (Some f)))
       = [Postgrest.F_or s] /\
       forall r, MemStore.row_matches (Postgrest.F_or s) r = SearchSpec.holds (trim t) r) /\
  (List.filter is_or
     (Postgrest.q_filters
        (approved_query
           (Some (mkFilters None None None None None None None
                    (Some "zzz%,address.ilike.%austin")))))
   = [Postgrest.F_or
        ("title.ilike.%zzz%,address.ilike.%austin%," +:+
         "description.ilike.%zzz%,address.ilike.%austin%," +:+
         "city.ilike.%zzz%,address.ilike.%austin%," +:+
         "state.ilike.%zzz%,address.ilike.%austin%")] /\
   MemStore.parse_or
     ("title.ilike.%zzz%,address.ilike.%austin%," +:+
      "description.ilike.%zzz%,address.ilike.%austin%," +:+
      "city.ilike.%zzz%,address.ilike.%austin%," +:+
      "state.ilike.%zzz%,address.ilike.%austin%")
   = Some [mkCond "title" "ilike" "%zzz%"; mkCond "address" "ilike" "%austin%";
           mkCond "description" "ilike" "%zzz%"; mkCond "address" "ilike" "%austin%";
           mkCond "city" "ilike" "%zzz%"; mkCond "address" "ilike" "%austin%";
           mkCond "state" "ilike" "%zzz%"; mkCond "address" "ilike" "%austin%"] /\
   fmap_completion (map id)
     (fetchApprovedListings (MemStore.client MemStore.table) "2024-08-01T00:00:00.000Z"
        (Some (mkFilters None None None None None None None
                 (Some "zzz%,address.ilike.%austin"))))
   = Ret ["c3"] /\
   SearchSpec.holds "zzz%,address.ilike.%austin" MemStore.austin_street = false /\
   SearchSpec.holds "austin" MemStore.austin_street = false /\
   r_id MemStore.austin_street = "c3" /\
   r_address MemStore.austin_street = Some "9 Austin Ave").
Proof.
  split.
  { intros f s. rewrite approved_query_filters.
    rewrite elem_of_cons, !elem_of_app, !elem_of_lower_bound_part,
      !elem_of_upper_bound_part, elem_of_search_part.
    split.
    - intros [H|[(y & _ & _ & H)|[(y & _ & _ & H)|[H|[(y & _ & _ & H)|
        [(y & _ & _ & H)|[(y & _ & _ & H)|[(y & _ & _ & H)|
        (t & Ht & Hne & Htrim & [= ->])]]]]]]]]; try discriminate.
      + apply elem_of_state_part in H as [y H]. discriminate.
      + exists t. rewrite render_or_search_text. auto.
    - intros (t & Ht & Hne & Htrim & ->). do 8 right.
      exists t. rewrite render_or_search_text. auto. }
  split.
  { intros [f|]; [|simpl; lia].
    rewrite approved_query_filters. simpl List.filter.
    rewrite !List.filter_app, !filter_is_or_lower, !filter_is_or_upper,
      filter_is_or_state, filter_is_or_search.
    simpl. unfold search_part. destruct (search f) as [t|]; [|simpl; lia].
    destruct (negb (String.eqb t "") && negb (String.eqb (trim t) "")); simpl; lia. }
  split.
  { intros f t Ht Hne Htrim Hcomma Hwild.
    exists (render_or (search_conditions (trim t))). split.
    - rewrite approved_query_filters. simpl List.filter.
      rewrite !List.filter_app, !filter_is_or_lower, !filter_is_or_upper,
        filter_is_or_state, filter_is_or_search.
      simpl. unfold search_part. rewrite Ht.
      apply String.eqb_neq in Hne, Htrim. rewrite Hne, Htrim. reflexivity.
    - intros r. apply plain_search_matches; assumption. }
  repeat split; vm_compute; reflexivity.
Qed.

Lemma search_term_is_interpolated_witness :
  exists s,
    List.filter is_or
      (Postgrest.q_filters
         (approved_query
            (Some (mkFilters None None None None None None None (Some "  austin ")))))
    = [Postgrest.F_or s] /\
    forall r, MemStore.row_matches (Postgrest.F_or s) r = SearchSpec.holds "austin" r.
Proof.
  destruct search_term_is_interpolated as (_ & _ & Hplain & _).
  apply (Hplain (mkFilters None None None None None None None (Some "  austin "))
           "  austin ");
    [reflexivity|discriminate|vm_compute; discriminate|reflexivity|reflexivity].
Defined.

(** ** The operations on the sample table *)

(** The three newest approved rows are asked for; the one whose image
    cannot be resolved is left out, the other two come back newest first and
    flagged featured. *)
Example featured_on_sample_table :
  fmap_completion (map (fun l => (id l, featured l, createdAt l)))
    (fetchFeaturedApprovedListings (MemStore.client MemStore.table)
       "2024-08-01T00:00:00.000Z")
  = Ret [("b2", true, "2024-05-20T08:30:00+00:00");
         ("c3", true, "2024-04-11T12:00:00+00:00")].
Proof. reflexivity. Qed.

(** A pending row is not found by key; an approved one is. *)
Example by_id_on_sample_table :
  fetchApprovedListingById (MemStore.client MemStore.table) "2024-08-01T00:00:00.000Z" "e5"
  = Ret None /\
  fmap_completion (option_map title)
    (fetchApprovedListingById (MemStore.client MemStore.table)
       "2024-08-01T00:00:00.000Z" "b2")
  = Ret (Some "Whispering Pines").
Proof. split; reflexivity. Qed.

(** The head count covers the approved rows, normalizable or not. *)
Example count_on_sample_table :
  countApprovedListings (MemStore.client MemStore.table) = Ret 4%Z.
Proof. reflexivity. Qed.

(** A row without creation time gets the clock reading. *)
Example created_at_defaults_to_now :
  fmap_completion createdAt
    (approved_item (MemStore.client MemStore.table) "2024-08-01T00:00:00.000Z"
       (mkRaw "z9" None None None None None None None None None None None None None
          None None None None))
  = Ret "2024-08-01T00:00:00.000Z".
Proof. reflexivity. Qed.

(** * Beyond the listing claims *)

(** ** String methods *)

Lemma startsWith_iff s prefix :
  JsString.startsWith s prefix = true <-> exists rest, s = prefix +:+ rest.
Proof.
  revert s. induction prefix as [|p prefix IH]; intros s; simpl.
  - split; [eauto|reflexivity].
  - destruct s as [|ch s].
    + split; [discriminate|]. intros [rest H]. discriminate.
    + rewrite andb_true_iff, IH, Ascii.eqb_eq. split.
      * intros [-> [rest ->]]. eauto.
      * intros [rest [= -> ->]]. eauto.
Qed.

Lemma startsWith_cons a s b prefix :
  JsString.startsWith (String a s) (String b prefix)
  = Ascii.eqb a b && JsString.startsWith s prefix.
Proof. reflexivity. Qed.

Lemma startsWith_append prefix rest : JsString.startsWith (prefix +:+ rest) prefix = true.
Proof. apply startsWith_iff. eauto. Qed.

Lemma substring_append prefix rest :
  JsString.substring (prefix +:+ rest) (String.length prefix) = rest.
Proof. induction prefix as [|p prefix IH]; [reflexivity|exact IH]. Qed.

Lemma string_length_append (a b : string) :
  String.length (a +:+ b) = (String.length a + String.length b)%nat.
Proof.
  induction a as [|ch a IH]; [reflexivity|].
  change (S (String.length (a +:+ b)) = S (String.length a + String.length b)).
  rewrite IH. reflexivity.
Qed.

Lemma substring_split s n :
  (n <= String.length s)%nat ->
  exists front, s = front +:+ JsString.substring s n /\ String.length front = n.
Proof.
  revert s. induction n as [|n IH]; intros s Hn; simpl.
  - exists "". split; reflexivity.
  - destruct s as [|ch s]; simpl in Hn; [lia|].
    destruct (IH s) as (front & Hs & Hlen); [lia|].
    exists (String ch front). split; [|simpl; lia].
    change (String ch s = String ch (front +:+ JsString.substring s n)).
    rewrite <- Hs. reflexivity.
Qed.

Lemma endsWith_iff s suffix :
  JsString.endsWith s suffix = true <-> exists front, s = front +:+ suffix.
Proof.
  unfold JsString.endsWith. rewrite andb_true_iff, Nat.leb_le, String.eqb_eq. split.
  - intros [Hlen Hsuf].
    destruct (substring_split s (String.length s - String.length suffix)) as (front & Hs & _);
      [lia|].
    exists front. rewrite <- Hsuf. exact Hs.
  - intros [front ->]. rewrite string_length_append. split; [lia|].
    replace (String.length front + String.length suffix - String.length suffix)%nat
      with (String.length front) by lia.
    apply substring_append.
Qed.

Lemma string_append_nil_r (s : string) : s +:+ "" = s.
Proof.
  induction s as [|ch s IH]; [reflexivity|].
  change (String ch (s +:+ "") = String ch s). rewrite IH. reflexivity.
Qed.

(** ** URL helpers *)

Lemma absoluteUrl_cases hostname PROD path :
  exists processed,
    (processed = path \/
     (JsString.truthy (Url.PATH_PREFIX hostname PROD) = true /\
      path = Url.PATH_PREFIX hostname PROD +:+ processed)) /\
    Url.absoluteUrl hostname PROD path
    = if JsString.startsWith processed "/" then processed else "/" +:+ processed.
Proof.
  unfold Url.absoluteUrl.
  destruct (JsString.truthy (Url.PATH_PREFIX hostname PROD)) eqn:Ht.
  - rewrite andb_true_l.
    destruct (JsString.startsWith path (Url.PATH_PREFIX hostname PROD)) eqn:Hs.
    + apply startsWith_iff in Hs as [rest ->].
      rewrite substring_append. exists rest. split; [right; split; reflexivity|reflexivity].
    + exists path. split; [left; reflexivity|reflexivity].
  - rewrite andb_false_l. exists path. split; [left; reflexivity|reflexivity].
Qed.

Lemma absoluteUrl_slash hostname PROD path :
  JsString.startsWith (Url.absoluteUrl hostname PROD path) "/" = true.
Proof.
  destruct (absoluteUrl_cases hostname PROD path) as (processed & _ & ->).
  destruct (JsString.startsWith processed "/") eqn:Hs; [exact Hs|reflexivity].
Qed.

Lemma absoluteUrl_of_prefixed hostname PROD rest :
  JsString.startsWith rest "/" = true ->
  Url.absoluteUrl hostname PROD (Url.PATH_PREFIX hostname PROD +:+ rest) = rest.
Proof.
  intros Hrest. unfold Url.absoluteUrl.
  destruct (JsString.truthy (Url.PATH_PREFIX hostname PROD)) eqn:Ht.
  - rewrite andb_true_l, startsWith_append, substring_append, Hrest. reflexivity.
  - rewrite andb_false_l.
    unfold JsString.truthy in Ht. apply negb_false_iff, String.eqb_eq in Ht.
    rewrite Ht. change ("" +:+ rest) with rest. rewrite Hrest. reflexivity.
Qed.

(** X1. Whatever the host, the build mode and the path, [absoluteUrl]
    returns a path that begins with a slash; it removes one leading copy of
    the prefix, giving back the slash-led rest, and leaves alone a slash-led
    path that does not begin with the prefix. *)
Theorem absoluteUrl_starts_with_slash (hostname : string) (PROD : bool) (path : string) :
  JsString.startsWith (Url.absoluteUrl hostname PROD path) "/" = true /\
  (JsString.startsWith path "/" = true ->
   Url.absoluteUrl hostname PROD (Url.PATH_PREFIX hostname PROD +:+ path) = path) /\
  (JsString.startsWith path "/" = true ->
   JsString.truthy (Url.PATH_PREFIX hostname PROD)
   && JsString.startsWith path (Url.PATH_PREFIX hostname PROD) = false ->
   Url.absoluteUrl hostname PROD path = path).
Proof.
  split; [apply absoluteUrl_slash|]. split; [apply absoluteUrl_of_prefixed|].
  intros Hslash Hnot. unfold Url.absoluteUrl. rewrite Hnot, Hslash. reflexivity.
Qed.

Lemma absoluteUrl_starts_with_slash_witness :
  Url.absoluteUrl "roverpass.com" true "/rv-parks-for-sale/listings" = "/listings" /\
  Url.absoluteUrl "roverpass.com" true "/listings" = "/listings".
Proof.
  destruct (absoluteUrl_starts_with_slash "roverpass.com" true "/listings")
    as (_ & Hstrip & Hkeep).
  split; [apply Hstrip|apply Hkeep]; reflexivity.
Defined.

(** X2. [hrefUrl] undoes itself under [absoluteUrl] and is idempotent:
    the router path of a rendered link is the router path of the original,
    and rendering a rendered link changes nothing (the prefix is never
    doubled); the same holds for [fullUrl] of a rendered link. *)
Theorem hrefUrl_round_trip (hostname origin : string) (PROD : bool) (path : string) :
  Url.absoluteUrl hostname PROD (Url.hrefUrl hostname PROD path)
  = Url.absoluteUrl hostname PROD path /\
  Url.hrefUrl hostname PROD (Url.hrefUrl hostname PROD path)
  = Url.hrefUrl hostname PROD path /\
  Url.fullUrl hostname origin PROD (Url.hrefUrl hostname PROD path)
  = Url.fullUrl hostname origin PROD path.
Proof.
  assert (Url.absoluteUrl hostname PROD (Url.hrefUrl hostname PROD path)
          = Url.absoluteUrl hostname PROD path) as H.
  { unfold Url.hrefUrl. apply absoluteUrl_of_prefixed, absoluteUrl_slash. }
  split; [exact H|]. split.
  - unfold Url.hrefUrl at 1 3. rewrite H. reflexivity.
  - unfold Url.fullUrl. rewrite H. reflexivity.
Qed.

Lemma path_prefix_cases hostname PROD :
  (Url.PATH_PREFIX hostname PROD = "" /\
   (Url.isLocalhost hostname = true \/ Url.isVercelProduction hostname PROD = true)) \/
  (Url.PATH_PREFIX hostname PROD = "/rv-parks-for-sale" /\
   Url.isLocalhost hostname = false /\ Url.isVercelProduction hostname PROD = false).
Proof.
  unfold Url.PATH_PREFIX, Url.getPathPrefix.
  destruct (Url.isLocalhost hostname); [left; auto|].
  destruct (Url.isVercelProduction hostname PROD); [left; auto|].
  right. destruct (Url.isRoverPassProduction hostname); auto.
Qed.

Lemma redirect_environment hostname origin PROD :
  Url.isExternalRedirectRequired hostname PROD = true ->
  Url.getPathPrefix hostname PROD = "/rv-parks-for-sale" /\
  Url.getDomain hostname origin PROD = "https://roverpass.com".
Proof.
  unfold Url.isExternalRedirectRequired, Url.getPathPrefix, Url.getDomain.
  destruct (Url.isLocalhost hostname); [discriminate|].
  destruct (Url.isVercelProduction hostname PROD); [discriminate|].
  destruct (Url.isRoverPassProduction hostname); [discriminate|].
  intros _. split; reflexivity.
Qed.

(** X3. The environment switches of the URL helpers agree: the path
    prefix is empty exactly on localhost and on the Vercel production
    host, and it is [/rv-parks-for-sale] everywhere else; wherever a
    redirect is required the prefix is [/rv-parks-for-sale] and the domain
    is [https://roverpass.com]. *)
Theorem environment_switches_agree (hostname origin : string) (PROD : bool) :
  (Url.getPathPrefix hostname PROD = "" <->
   Url.isLocalhost hostname = true \/ Url.isVercelProduction hostname PROD = true) /\
  (Url.getPathPrefix hostname PROD = "" \/
   Url.getPathPrefix hostname PROD = "/rv-parks-for-sale") /\
  (Url.isExternalRedirectRequired hostname PROD = true ->
   Url.getPathPrefix hostname PROD = "/rv-parks-for-sale" /\
   Url.getDomain hostname origin PROD = "https://roverpass.com").
Proof.
  split; [|split].
  - destruct (path_prefix_cases hostname PROD) as [[H1 H2]|(H1 & H2 & H3)];
      unfold Url.PATH_PREFIX in H1; rewrite H1.
    + tauto.
    + rewrite H2, H3. split; [discriminate|]. intros [H|H]; discriminate.
  - destruct (path_prefix_cases hostname PROD) as [[H1 _]|(H1 & _)];
      unfold Url.PATH_PREFIX in H1; rewrite H1; [left|right]; reflexivity.
  - apply redirect_environment.
Qed.

Lemma environment_switches_agree_witness :
  Url.isExternalRedirectRequired "partner.example.org" true = true /\
  Url.getPathPrefix "partner.example.org" true = "/rv-parks-for-sale" /\
  Url.getDomain "partner.example.org" "https://partner.example.org" true
  = "https://roverpass.com".
Proof.
  split; [reflexivity|].
  destruct (environment_switches_agree "partner.example.org"
              "https://partner.example.org" true) as (_ & _ & Hredirect).
  apply Hredirect. reflexivity.
Defined.

(** X4. Where a redirect is required, a link click and a programmatic
    navigation both send the browser to
    [https://roverpass.com/rv-parks-for-sale] followed by the router path,
    an external URL, and the click's default action is prevented; where it
    is not, [handleLinkClick] leaves the page as it is and answers false. *)
Theorem external_hosts_are_redirected (hostname origin : string) (PROD : bool)
    (page : Url.Page) (to : string) :
  (Url.isExternalRedirectRequired hostname PROD = true ->
   Url.handleLinkClick hostname origin PROD page to
   = (Url.mkPage true
        ("https://roverpass.com/rv-parks-for-sale" +:+ Url.absoluteUrl hostname PROD to),
      true) /\
   Url.href (Url.navigateTo hostname origin PROD page to)
   = "https://roverpass.com/rv-parks-for-sale" +:+ Url.absoluteUrl hostname PROD to /\
   Url.isExternalUrl (Url.href (Url.navigateTo hostname origin PROD page to)) = true) /\
  (Url.isExternalRedirectRequired hostname PROD = false ->
   Url.handleLinkClick hostname origin PROD page to = (page, false) /\
   Url.href (Url.navigateTo hostname origin PROD page to) = Url.hrefUrl hostname PROD to).
Proof.
  split; intros Hreq.
  - destruct (redirect_environment hostname origin PROD Hreq) as [Hprefix Hdomain].
    unfold Url.handleLinkClick, Url.navigateTo. rewrite Hreq. simpl Url.href.
    unfold Url.fullUrl, Url.DOMAIN, Url.PATH_PREFIX. rewrite Hprefix, Hdomain.
    repeat split; reflexivity.
  - unfold Url.handleLinkClick, Url.navigateTo. rewrite Hreq. split; reflexivity.
Qed.

Lemma external_hosts_are_redirected_witness :
  Url.isExternalRedirectRequired "partner.example.org" true = true /\
  Url.isExternalRedirectRequired "localhost" false = false /\
  Url.handleLinkClick "partner.example.org" "https://partner.example.org" true
    (Url.mkPage false "https://partner.example.org/embed") "listings"
  = (Url.mkPage true "https://roverpass.com/rv-parks-for-sale/listings", true) /\
  Url.handleLinkClick "localhost" "http://localhost:8080" false
    (Url.mkPage false "http://localhost:8080/") "listings"
  = (Url.mkPage false "http://localhost:8080/", false).
Proof.
  split; [reflexivity|]. split; [reflexivity|]. split.
  - apply (external_hosts_are_redirected "partner.example.org" "https://partner.example.org"
             true (Url.mkPage false "https://partner.example.org/embed") "listings").
    reflexivity.
  - apply (external_hosts_are_redirected "localhost" "http://localhost:8080" false
             (Url.mkPage false "http://localhost:8080/") "listings").
    reflexivity.
Defined.

(** X5. A rendered in-app link is an external URL exactly when the prefix
    is empty and the path itself begins with two slashes; with the prefix
    in place no path makes one. *)
Theorem hrefUrl_external_only_by_double_slash (hostname : string) (PROD : bool)
    (path : string) :
  Url.isExternalUrl (Url.hrefUrl hostname PROD path)
  = negb (JsString.truthy (Url.PATH_PREFIX hostname PROD))
    && JsString.startsWith path "//".
Proof.
  unfold Url.hrefUrl, Url.absoluteUrl.
  destruct (path_prefix_cases hostname PROD) as [[-> _]|(-> & _ & _)].
  - change (JsString.truthy "") with false. rewrite andb_false_l.
    change ("" +:+ ?x) with x. simpl negb. rewrite andb_true_l.
    unfold Url.isExternalUrl.
    destruct path as [|c1 path]; [reflexivity|].
    rewrite (startsWith_cons c1 path "/" "").
    destruct (Ascii.eqb_spec c1 "/"%char) as [->|Hc1].
    + change (JsString.startsWith path "") with true. cbv iota.
      simpl andb. cbv iota.
      destruct path as [|c2 path]; [reflexivity|].
      rewrite !startsWith_cons.
      destruct (Ascii.eqb c2 "/"%char); reflexivity.
    + apply Ascii.eqb_neq in Hc1. simpl andb. cbv iota.
      change ("/" +:+ String c1 path) with (String "/" (String c1 path)).
      rewrite !startsWith_cons, Hc1. reflexivity.
  - change (JsString.truthy "/rv-parks-for-sale") with true. reflexivity.
Qed.

(** X6. [getCurrentPath] is never empty, and it inverts [hrefUrl] on the
    paths the router serves: for a location that is the prefix followed by
    a slash-led rest (which, under a non-empty prefix, does not itself
    begin with the prefix), the current path is that rest and rendering it
    gives the location back. *)
Theorem getCurrentPath_inverts_hrefUrl (hostname : string) (PROD : bool)
    (pathname rest : string) :
  JsString.truthy (Url.getCurrentPath hostname pathname PROD) = true /\
  (pathname = Url.PATH_PREFIX hostname PROD +:+ rest ->
   JsString.startsWith rest "/" = true ->
   JsString.truthy (Url.PATH_PREFIX hostname PROD)
   && JsString.startsWith rest (Url.PATH_PREFIX hostname PROD) = false ->
   Url.getCurrentPath hostname pathname PROD = rest /\
   Url.hrefUrl hostname PROD (Url.getCurrentPath hostname pathname PROD) = pathname).
Proof.
  split.
  - unfold Url.getCurrentPath.
    match goal with
    | |- JsString.truthy (if JsString.truthy ?x then _ else _) = true =>
        destruct (JsString.truthy x) eqn:Hx; [exact Hx|reflexivity]
    end.
  - intros -> Hrest Hnot.
    assert (Url.getCurrentPath hostname (Url.PATH_PREFIX hostname PROD +:+ rest) PROD = rest)
      as Hcur.
    { unfold Url.getCurrentPath.
      assert (JsString.truthy rest = true) as Htr
        by (destruct rest; [discriminate Hrest|reflexivity]).
      destruct (JsString.truthy (Url.PATH_PREFIX hostname PROD)) eqn:Ht.
      - rewrite andb_true_l, startsWith_append, substring_append, Htr. reflexivity.
      - rewrite andb_false_l.
        unfold JsString.truthy in Ht. apply negb_false_iff, String.eqb_eq in Ht.
        rewrite Ht. change ("" +:+ rest) with rest. rewrite Htr. reflexivity. }
    split; [exact Hcur|]. rewrite Hcur.
    unfold Url.hrefUrl, Url.absoluteUrl. rewrite Hnot, Hrest. reflexivity.
Qed.

Lemma getCurrentPath_inverts_hrefUrl_witness :
  Url.getCurrentPath "roverpass.com" "/rv-parks-for-sale/listings/42" true
  = "/listings/42" /\
  Url.hrefUrl "roverpass.com" true
    (Url.getCurrentPath "roverpass.com" "/rv-parks-for-sale/listings/42" true)
  = "/rv-parks-for-sale/listings/42".
Proof.
  apply (getCurrentPath_inverts_hrefUrl "roverpass.com" true
           "/rv-parks-for-sale/listings/42" "/listings/42"); reflexivity.
Defined.

(** With a doubled prefix in the location the round trip loses one copy. *)
Example getCurrentPath_doubled_prefix :
  Url.hrefUrl "roverpass.com" true
    (Url.getCurrentPath "roverpass.com" "/rv-parks-for-sale/rv-parks-for-sale/x" true)
  = "/rv-parks-for-sale/x".
Proof. reflexivity. Qed.

(** ** The application shell *)

(** X7. The domain gate lets a host through exactly when it is one of the
    three allowed names or a subdomain of one (the name preceded by a dot);
    a host that merely ends with an allowed name does not pass. *)
Theorem isAllowedDomain_iff (hostname : string) :
  App.isAllowedDomain hostname = true <->
  exists domain,
    domain ∈ App.allowedDomains /\
    (hostname = domain \/ exists sub, hostname = sub +:+ "." +:+ domain).
Proof.
  unfold App.isAllowedDomain. rewrite existsb_exists. split.
  - intros (domain & Hin & H). exists domain. split; [apply list_elem_of_In; exact Hin|].
    apply orb_true_iff in H as [H|H].
    + left. apply String.eqb_eq. exact H.
    + right. apply endsWith_iff. exact H.
  - intros (domain & Hin & H). exists domain. split; [apply list_elem_of_In; exact Hin|].
    apply orb_true_iff. destruct H as [H|H].
    + left. apply String.eqb_eq. exact H.
    + right. apply endsWith_iff. exact H.
Qed.

Example isAllowedDomain_samples :
  App.isAllowedDomain "preview.park-sell-rover.lovable.app" = true /\
  App.isAllowedDomain "notlocalhost" = false /\
  App.isAllowedDomain "roverpass.com" = false.
Proof. repeat split. Qed.

(** X26. The three versions of the application shell compute the router
    base differently; each is compared with the path prefix of the URL
    helpers of [src/src/lib/url.ts].  The second version of
    [src/src/App.tsx] has the helpers' prefix for every host and build
    mode.  The first version, the one with the domain gate, has the empty
    base: it agrees with the helpers exactly where their prefix is empty,
    on localhost and on the Vercel production host.  The version of
    [src/unnamed/part_002] agrees with them exactly on localhost and, in a
    production build, on every host other than the Vercel one. *)
Theorem router_base_across_shells (hostname : string) (PROD : bool) :
  AppSecond.PATH_PREFIX hostname PROD = Url.getBasename hostname PROD /\
  (App.BASENAME = Url.getBasename hostname PROD <->
   Url.isLocalhost hostname = true \/ Url.isVercelProduction hostname PROD = true) /\
  (AppPart002.BASENAME hostname PROD = Url.getBasename hostname PROD <->
   Url.isLocalhost hostname = true \/
   (PROD = true /\ hostname <> "roverpass-park-sale.vercel.app")).
Proof.
  unfold AppSecond.PATH_PREFIX, AppSecond.isLocalhost, AppSecond.isVercelProduction,
    App.BASENAME, App.getBasename, AppPart002.BASENAME, AppPart002.getBasename,
    Url.getBasename, Url.PATH_PREFIX, Url.getPathPrefix, Url.isVercelProduction.
  fold (Url.isLocalhost hostname).
  destruct (Url.isLocalhost hostname).
  { split; [reflexivity|]. split; split; auto. }
  destruct (String.eqb_spec hostname "roverpass-park-sale.vercel.app") as [Hhost|Hhost];
    destruct PROD; cbn [andb orb];
    destruct (Url.isRoverPassProduction hostname);
    (split; [reflexivity|]); split; split; intros H;
    first [ reflexivity | discriminate H
          | right; reflexivity
          | right; split; [reflexivity|assumption]
          | destruct H as [H|[H1 H2]];
            first [discriminate H | discriminate H1 | contradiction]
          | destruct H as [H|H]; discriminate H ].
Qed.

(** ** The navigation bar *)

Lemma ensureTrailingSlash_cases path :
  (Header.ensureTrailingSlash path = path /\ JsString.endsWith path "/" = true) \/
  (Header.ensureTrailingSlash path = path +:+ "/" /\ JsString.endsWith path "/" = false).
Proof.
  unfold Header.ensureTrailingSlash.
  destruct (String.eqb_spec path "/") as [->|Hne]; [left; split; reflexivity|].
  destruct (JsString.endsWith path "/"); [left|right]; split; reflexivity.
Qed.

Lemma endsWith_append front suffix : JsString.endsWith (front +:+ suffix) suffix = true.
Proof. apply endsWith_iff. eauto. Qed.

Lemma ensureTrailingSlash_fixes path :
  JsString.endsWith path "/" = true -> Header.ensureTrailingSlash path = path.
Proof.
  intros H. destruct (ensureTrailingSlash_cases path) as [[Hp _]|[_ Hp]];
    [exact Hp|congruence].
Qed.

Lemma ensureTrailingSlash_ends path :
  JsString.endsWith (Header.ensureTrailingSlash path) "/" = true.
Proof.
  destruct (ensureTrailingSlash_cases path) as [[-> H]|[-> _]];
    [exact H|apply endsWith_append].
Qed.

Lemma ensureTrailingSlash_idempotent path :
  Header.ensureTrailingSlash (Header.ensureTrailingSlash path)
  = Header.ensureTrailingSlash path.
Proof. apply ensureTrailingSlash_fixes, ensureTrailingSlash_ends. Qed.

(** X8. [ensureTrailingSlash] only ever appends one slash, its result
    always ends with a slash, and it is idempotent; so whether a navigation
    item is active does not depend on the trailing slash of the location. *)
Theorem ensureTrailingSlash_normalizes (path : string) (item : Header.NavItem) :
  (Header.ensureTrailingSlash path = path \/
   Header.ensureTrailingSlash path = path +:+ "/") /\
  JsString.endsWith (Header.ensureTrailingSlash path) "/" = true /\
  Header.ensureTrailingSlash (Header.ensureTrailingSlash path)
  = Header.ensureTrailingSlash path /\
  Header.isRouteActive item (Header.ensureTrailingSlash path)
  = Header.isRouteActive item path.
Proof.
  pose proof (ensureTrailingSlash_ends path) as Hends.
  pose proof (ensureTrailingSlash_idempotent path) as Hidem.
  split; [destruct (ensureTrailingSlash_cases path) as [[H _]|[H _]]; auto|].
  split; [exact Hends|]. split; [exact Hidem|].
  unfold Header.isRouteActive. rewrite Hidem. reflexivity.
Qed.

(** X9. A navigation item is shown active on the very path its click
    navigates to, unless one of its own exclusions covers that path: exact
    items always are, the others exactly when no exclusion is a prefix of
    their normalized path. *)
Theorem item_is_active_on_its_target (item : Header.NavItem) :
  Header.isRouteActive item (Header.targetPath item)
  = bool_truthy (Header.exact item)
    || negb (match Header.exclude item with
             | Some routes =>
                 existsb
                   (fun route =>
                      JsString.startsWith
                        (Header.ensureTrailingSlash (Header.path item))
                        (Header.ensureTrailingSlash route))
                   routes
             | None => false
             end).
Proof.
  assert (Header.ensureTrailingSlash (Header.targetPath item)
          = Header.ensureTrailingSlash (Header.path item)) as Htarget.
  { unfold Header.targetPath.
    destruct (String.eqb_spec (Header.path item) "/") as [->|_]; [reflexivity|].
    apply ensureTrailingSlash_idempotent. }
  unfold Header.isRouteActive. rewrite Htarget, String.eqb_refl.
  destruct (bool_truthy (Header.exact item)); [reflexivity|].
  rewrite orb_false_l, orb_true_l.
  destruct (Header.exclude item) as [routes|]; [|reflexivity].
  assert (forall route,
            String.eqb (Header.ensureTrailingSlash (Header.path item))
              (Header.ensureTrailingSlash route)
            || JsString.startsWith (Header.ensureTrailingSlash (Header.path item))
                 (Header.ensureTrailingSlash route)
            = JsString.startsWith (Header.ensureTrailingSlash (Header.path item))
                (Header.ensureTrailingSlash route)) as Hsame.
  { intros route.
    destruct (String.eqb_spec (Header.ensureTrailingSlash (Header.path item))
                (Header.ensureTrailingSlash route)) as [Heq|_]; [|reflexivity].
    rewrite <- Heq. symmetry. apply startsWith_iff. exists "".
    symmetry. apply string_append_nil_r. }
  induction routes as [|route routes IH]; [reflexivity|].
  simpl existsb. rewrite Hsame.
  destruct (JsString.startsWith (Header.ensureTrailingSlash (Header.path item))
              (Header.ensureTrailingSlash route)); [reflexivity|].
  rewrite !orb_false_l. exact IH.
Qed.

Lemma eqb_startsWith s lit : String.eqb s lit = true -> JsString.startsWith s lit = true.
Proof.
  intros ->%String.eqb_eq. apply startsWith_iff. exists "".
  symmetry. apply string_append_nil_r.
Qed.

Lemma startsWith_exclusive s lit1 lit2 :
  (forall rest, JsString.startsWith (lit1 +:+ rest) lit2 = false) ->
  JsString.startsWith s lit1 = true -> JsString.startsWith s lit2 = false.
Proof. intros H [rest ->]%startsWith_iff. apply H. Qed.

Lemma active_items_normalized (user : bool) (s : string) :
  (length (List.filter
     (fun it : Header.NavItem =>
        if bool_truthy (Header.exact it)
        then String.eqb s (Header.ensureTrailingSlash (Header.path it))
        else if
          match Header.exclude it with
          | Some routes =>
              existsb (fun route =>
                 String.eqb s (Header.ensureTrailingSlash route)
                 || JsString.startsWith s (Header.ensureTrailingSlash route)) routes
          | None => false
          end
        then false
        else String.eqb s (Header.ensureTrailingSlash (Header.path it))
             || (negb (String.eqb (Header.ensureTrailingSlash (Header.path it)) "/")
                 && JsString.startsWith s (Header.ensureTrailingSlash (Header.path it))))
     (Header.navItemsState user)) <= 1)%nat.
Proof.
  pose proof (eqb_startsWith s "/listings/new/") as H22.
  pose proof (eqb_startsWith s "/listings/") as H33.
  pose proof (eqb_startsWith s "/support/") as H44.
  pose proof (eqb_startsWith s "/broker/dashboard/") as H55.
  pose proof (eqb_startsWith s "/") as H11.
  pose proof (startsWith_exclusive s "/listings/new/" "/support/" (fun _ => eq_refl)) as H24.
  pose proof (startsWith_exclusive s "/listings/" "/support/" (fun _ => eq_refl)) as H34.
  pose proof (startsWith_exclusive s "/listings/" "/broker/dashboard/" (fun _ => eq_refl)) as H35.
  pose proof (startsWith_exclusive s "/support/" "/broker/dashboard/" (fun _ => eq_refl)) as H45.
  assert (String.eqb s "/" = true -> JsString.startsWith s "/listings/" = false) as H13
    by (intros ->%String.eqb_eq; reflexivity).
  assert (String.eqb s "/" = true -> JsString.startsWith s "/support/" = false) as H14
    by (intros ->%String.eqb_eq; reflexivity).
  assert (String.eqb s "/" = true -> JsString.startsWith s "/broker/dashboard/" = false) as H15
    by (intros ->%String.eqb_eq; reflexivity).
  assert (String.eqb s "/" = true -> String.eqb s "/listings/new/" = false) as H12
    by (intros ->%String.eqb_eq; reflexivity).
  assert (JsString.startsWith s "/listings/new/" = true ->
          JsString.startsWith s "/listings/" = true) as H23
    by (intros [rest ->]%startsWith_iff; reflexivity).
  unfold Header.navItemsState.
  destruct user;
    cbv [List.filter app Header.path Header.exact Header.exclude bool_truthy existsb].
  all: change (Header.ensureTrailingSlash "/") with "/";
    change (Header.ensureTrailingSlash "/listings") with "/listings/";
    change (Header.ensureTrailingSlash "/listings/new") with "/listings/new/";
    change (Header.ensureTrailingSlash "/support") with "/support/";
    change (Header.ensureTrailingSlash "/broker/dashboard") with "/broker/dashboard/";
    change (String.eqb "/listings/" "/") with false;
    change (String.eqb "/support/" "/") with false;
    change (String.eqb "/broker/dashboard/" "/") with false.
  all: destruct (String.eqb s "/");
    destruct (String.eqb s "/listings/new/");
    destruct (JsString.startsWith s "/listings/new/");
    destruct (String.eqb s "/listings/");
    destruct (JsString.startsWith s "/listings/");
    destruct (String.eqb s "/support/");
    destruct (JsString.startsWith s "/support/");
    destruct (String.eqb s "/broker/dashboard/");
    destruct (JsString.startsWith s "/broker/dashboard/");
    simpl; try lia;
    repeat match goal with
           | H : true = true -> _ |- _ => specialize (H eq_refl)
           end; congruence.
Qed.

(** X10. Whatever the location, at most one item of the navigation bar is
    shown active, for a visitor and for a signed-in user alike: the
    exclusion of [/listings/new] keeps "RV Parks For Sale" off the pages
    where "Add Listing" lights up. *)
Theorem at_most_one_item_active (user : bool) (pathname : string) :
  (length (List.filter (fun item => Header.isRouteActive item pathname)
             (Header.navItemsState user)) <= 1)%nat.
Proof. exact (active_items_normalized user (Header.ensureTrailingSlash pathname)). Qed.

(** ** More on the normalizer *)

Lemma approved_item_shape c now r :
  approved_item c now r
  = urls ← resolve_all c (image_rows r);
    Ret (mkListing (r_id r) (str_or (r_title r) "Untitled Listing")
           (str_or (r_description r) "") (num_or (r_price r) 0%Q)
           (mkLocation (str_or (r_address r) "") (str_or (r_city r) "")
              (str_or (r_state r) "") (num_or (r_latitude r) 0%Q)
              (num_or (r_longitude r) 0%Q))
           (num_or (r_num_sites r) 0%Q) (num_or (r_occupancy_rate r) 0%Q)
           (num_or (r_annual_revenue r) 0%Q) (num_or (r_cap_rate r) 0%Q)
           (let i := if (0 <? length (image_rows r))%nat
                     then findIndex (fun img => bool_truthy (is_primary img)) (image_rows r)
                     else (-1)%Z in
            if (0 <? i)%Z && (0 <? length urls)%nat then
              match urls !! Z.to_nat i with
              | Some u => u :: delete (Z.to_nat i) urls
              | None => urls
              end
            else urls)
           None (placeholder_broker r) None (str_or (r_created_at r) now) false
           (str_or (r_status r) "approved")).
Proof.
  unfold approved_item, image_rows, resolve_all.
  destruct (r_listing_images r) as [imgs|]; reflexivity.
Qed.

(** X11. Promotion neither loses nor duplicates an image: whenever a row
    normalizes, the images of the record are a rearrangement of the
    resolved URLs of its image rows, so there are as many of them. *)
Theorem promotion_rearranges_images (c : SupabaseClient) (now : string)
    (listing : RawListing) (item : Listing) :
  approved_item c now listing = Ret item ->
  exists urls,
    resolve_all c (image_rows listing) = Ret urls /\
    images item ≡ₚ urls /\
    length (images item) = length (image_rows listing).
Proof.
  rewrite approved_item_shape. unfold mbind, completion_bind.
  destruct (resolve_all c (image_rows listing)) as [urls|e] eqn:Hurls; simpl;
    [|discriminate].
  intros [= <-]. exists urls. split; [reflexivity|]. simpl images.
  assert ((let i := if (0 <? length (image_rows listing))%nat
                    then findIndex (fun img => bool_truthy (is_primary img))
                           (image_rows listing)
                    else (-1)%Z in
           if (0 <? i)%Z && (0 <? length urls)%nat then
             match urls !! Z.to_nat i with
             | Some u => u :: delete (Z.to_nat i) urls
             | None => urls
             end
           else urls) ≡ₚ urls) as Hperm.
  { cbv zeta.
    destruct ((0 <? _)%Z && (0 <? length urls)%nat); [|reflexivity].
    destruct (urls !! Z.to_nat _) as [u|] eqn:Hu; [|reflexivity].
    symmetry. apply delete_Permutation. exact Hu. }
  split; [exact Hperm|].
  rewrite Hperm. apply (array_map_length _ _ _ Hurls).
Qed.

Lemma promotion_rearranges_images_witness :
  exists item,
    approved_item (MemStore.client MemStore.table) "2024-08-01T00:00:00.000Z" MemStore.lakeside
      = Ret item /\
    length (images item) = 3%nat.
Proof.
  eexists. split; [reflexivity|].
  destruct (promotion_rearranges_images (MemStore.client MemStore.table)
              "2024-08-01T00:00:00.000Z" MemStore.lakeside _ eq_refl) as (urls & _ & _ & H).
  exact H.
Defined.

Lemma array_map_throw_iff {A B} (f : A -> completion B) (l : list A) e :
  array_map f l = Throw e <->
  exists i x, l !! i = Some x /\ f x = Throw e /\
              forall j y, (j < i)%nat -> l !! j = Some y -> exists z, f y = Ret z.
Proof.
  induction l as [|a l IH]; simpl.
  - split; [discriminate|]. intros (i & x & Hx & _). discriminate Hx.
  - destruct (f a) as [b|e'] eqn:Hfa; simpl.
    + destruct (array_map f l) as [bs|e''] eqn:Hl; simpl.
      * split; [discriminate|]. intros (i & x & Hx & Hfx & Hbefore).
        destruct i as [|i]; simpl in Hx.
        -- injection Hx as <-. congruence.
        -- assert (Ret bs = Throw e) as Habs; [|discriminate Habs].
           apply IH. exists i, x. repeat split; [assumption..|].
           intros j y Hj Hy. apply (Hbefore (S j) y); [lia|exact Hy].
      * split.
        -- intros [= ->]. destruct (proj1 IH eq_refl) as (i & x & Hx & Hfx & Hbefore).
           exists (S i), x. repeat split; [assumption..|].
           intros [|j] y Hj Hy; simpl in Hy.
           ++ injection Hy as <-. eauto.
           ++ apply (Hbefore j y); [lia|exact Hy].
        -- intros (i & x & Hx & Hfx & Hbefore). destruct i as [|i]; simpl in Hx.
           ++ injection Hx as <-. congruence.
           ++ f_equal. assert (Throw e'' = Throw e :> completion (list B)) as Heq;
                [|congruence].
              apply IH. exists i, x. repeat split; [assumption..|].
              intros j y Hj Hy. apply (Hbefore (S j) y); [lia|exact Hy].
    + split.
      * intros [= ->]. exists 0%nat, a. repeat split; [assumption|]. intros j y Hj. lia.
      * intros (i & x & Hx & Hfx & Hbefore). destruct i as [|i]; simpl in Hx.
        -- injection Hx as <-. congruence.
        -- destruct (Hbefore 0%nat a) as [z Hz]; [lia|reflexivity|]. congruence.
Qed.

(** X12. Normalizing a row can fail in one way only: it throws exactly when
    one of its image paths cannot be resolved, and what it throws is the
    exception of the first such image; no value of any other column makes
    it fail. *)
Theorem normalization_fails_only_on_images (c : SupabaseClient) (now : string)
    (listing : RawListing) (e : exn) :
  approved_item c now listing = Throw e <->
  exists i img,
    image_rows listing !! i = Some img /\
    getPublicUrl c "listing-images" (storage_path img) = Throw e /\
    forall j earlier, (j < i)%nat -> image_rows listing !! j = Some earlier ->
      exists url, getPublicUrl c "listing-images" (storage_path earlier) = Ret url.
Proof.
  rewrite approved_item_shape, <- (array_map_throw_iff
    (fun img => getPublicUrl c "listing-images" (storage_path img)) (image_rows listing) e).
  fold (resolve_all c (image_rows listing)). unfold mbind, completion_bind.
  destruct (resolve_all c (image_rows listing)); simpl; split; congruence.
Qed.

Lemma str_or_nonempty x d : d <> "" -> str_or x d <> "".
Proof.
  intros Hd. destruct x as [s|]; simpl; [|exact Hd].
  destruct (String.eqb_spec s ""); assumption.
Qed.

(** X13. A normalized record never carries an empty title or status, and
    its creation time is empty only if the clock reading is; its key is the
    row's. *)
Theorem normalized_texts_are_filled (c : SupabaseClient) (now : string)
    (listing : RawListing) (item : Listing) :
  approved_item c now listing = Ret item ->
  id item = r_id listing /\
  title item <> "" /\
  status item <> "" /\
  (now <> "" -> createdAt item <> "").
Proof.
  rewrite approved_item_shape. unfold mbind, completion_bind.
  destruct (resolve_all c (image_rows listing)); simpl; [|discriminate].
  intros [= <-]. simpl. split; [reflexivity|].
  split; [apply str_or_nonempty; discriminate|].
  split; [apply str_or_nonempty; discriminate|].
  apply str_or_nonempty.
Qed.

Lemma normalized_texts_are_filled_witness :
  exists item,
    approved_item (MemStore.client MemStore.table) "2024-08-01T00:00:00.000Z"
      (mkRaw "z9" (Some "") None None None None None None None None None None None
         (Some "") (Some "") None None None) = Ret item /\
    title item <> "" /\ status item <> "" /\ createdAt item <> "".
Proof.
  eexists. split; [reflexivity|].
  destruct (normalized_texts_are_filled (MemStore.client MemStore.table)
              "2024-08-01T00:00:00.000Z"
              (mkRaw "z9" (Some "") None None None None None None None None None None None
                 (Some "") (Some "") None None None) _ eq_refl) as (_ & Ht & Hs & Hc).
  split; [exact Ht|]. split; [exact Hs|]. apply Hc. discriminate.
Defined.

Lemma str_or_blank x d : str_or (blank_text x) d = str_or x d.
Proof.
  destruct x as [s|]; simpl; [|reflexivity].
  destruct (String.eqb s "") eqn:Hs; simpl; [reflexivity|]. rewrite Hs. reflexivity.
Qed.

Lemma num_or_blank x d : num_or (blank_number x) d = num_or x d.
Proof.
  destruct x as [n|]; simpl; [|reflexivity].
  destruct (num_is_zero n) eqn:Hn; simpl; [reflexivity|]. rewrite Hn. reflexivity.
Qed.

(** X14. In every defaulted column a stored empty string or zero is
    indistinguishable from a missing value: replacing all of them by null
    changes nothing in what any of the three normalizers returns. *)
Theorem blanks_are_indistinguishable_from_null (c : SupabaseClient) (now : string)
    (listing : RawListing) :
  approved_item c now (blank_defaults listing) = approved_item c now listing /\
  featured_item c now (blank_defaults listing) = featured_item c now listing /\
  by_id_item c now (blank_defaults listing) = by_id_item c now listing.
Proof.
  assert (approved_item c now (blank_defaults listing) = approved_item c now listing) as H.
  { rewrite !approved_item_shape. unfold placeholder_broker, image_rows. simpl.
    rewrite !str_or_blank, !num_or_blank. reflexivity. }
  split; [exact H|]. split.
  - rewrite !featured_item_as_approved, H. reflexivity.
  - exact H.
Qed.

(** ** More on the request *)

Lemma with_filters_id q : with_filters (Postgrest.q_filters q) q = q.
Proof. destruct q; reflexivity. Qed.

Lemma frame_step_lower q column v :
  with_filters []
    (match v with
     | Some v => if num_gt v 0%Q then q |> Postgrest.gte column v else q
     | None => q
     end)
  = with_filters [] q.
Proof. destruct v as [v|]; [destruct (num_gt v 0%Q)|]; reflexivity. Qed.

Lemma frame_step_upper q column sentinel v :
  with_filters []
    (match v with
     | Some v => if num_lt v sentinel then q |> Postgrest.lte column v else q
     | None => q
     end)
  = with_filters [] q.
Proof. destruct v as [v|]; [destruct (num_lt v sentinel)|]; reflexivity. Qed.

Lemma frame_step_state q s :
  with_filters []
    (match s with
     | Some s =>
         if str_truthy (Some s) && negb (String.eqb s "")
         then q |> Postgrest.eq "state" s else q
     | None => q
     end)
  = with_filters [] q.
Proof.
  destruct s as [s|]; [|reflexivity].
  destruct (str_truthy (Some s) && negb (String.eqb s "")); reflexivity.
Qed.

Lemma frame_step_search q s :
  with_filters []
    (match s with
     | Some s =>
         if str_truthy (Some s) && negb (String.eqb (trim s) "") then
           let searchTerm := "%" +:+ trim s +:+ "%" in
           q |> Postgrest.or
             ("title.ilike." +:+ searchTerm +:+ ",description.ilike." +:+ searchTerm
              +:+ ",city.ilike." +:+ searchTerm +:+ ",state.ilike." +:+ searchTerm)
         else q
     | None => q
     end)
  = with_filters [] q.
Proof.
  destruct s as [s|]; [|reflexivity].
  destruct (str_truthy (Some s) && negb (String.eqb (trim s) "")); reflexivity.
Qed.

(** Apart from its filters the request is the one built without filters. *)
Lemma approved_query_frame f :
  with_filters [] (approved_query (Some f)) = with_filters [] (approved_query None).
Proof.
  unfold approved_query. cbv zeta.
  rewrite frame_step_search, frame_step_lower, frame_step_lower, frame_step_upper,
    frame_step_lower, frame_step_state, frame_step_upper, frame_step_lower.
  reflexivity.
Qed.

(** The whole request, not only its filters. *)
Lemma approved_query_full f :
  approved_query (Some f)
  = with_filters
      (Postgrest.F_eq "status" "approved"
       :: lower_bound_part "price" (priceMin f)
       ++ upper_bound_part "price" 10000000%Q (priceMax f)
       ++ state_part (f_state f)
       ++ lower_bound_part "num_sites" (sitesMin f)
       ++ upper_bound_part "num_sites" 1000%Q (sitesMax f)
       ++ lower_bound_part "cap_rate" (capRateMin f)
       ++ lower_bound_part "occupancy_rate" (occupancyRateMin f)
       ++ search_part (search f))
      (approved_query None).
Proof.
  rewrite <- approved_query_filters.
  rewrite <- (with_filters_id (approved_query (Some f))) at 1.
  change (with_filters ?fs (approved_query (Some f)))
    with (with_filters fs (with_filters [] (approved_query (Some f)))).
  rewrite approved_query_frame. reflexivity.
Qed.

Lemma lower_bound_part_nil column v :
  lower_bound_part column v = [] <-> forall x, v = Some x -> (x <= 0)%Q.
Proof.
  unfold lower_bound_part. destruct v as [x|]; [|split; [discriminate|reflexivity]].
  destruct (num_gt x 0%Q) eqn:Hx.
  - apply num_gt_iff in Hx. split; [discriminate|].
    intros H. specialize (H x eq_refl). exfalso. revert Hx. apply Qle_not_lt. exact H.
  - split; [|reflexivity]. intros _ y [= <-].
    apply Qnot_lt_le. intros Hlt. apply num_gt_iff in Hlt. congruence.
Qed.

Lemma upper_bound_part_nil column sentinel v :
  upper_bound_part column sentinel v = [] <-> forall x, v = Some x -> (sentinel <= x)%Q.
Proof.
  unfold upper_bound_part. destruct v as [x|]; [|split; [discriminate|reflexivity]].
  destruct (num_lt x sentinel) eqn:Hx.
  - apply num_lt_iff in Hx. split; [discriminate|].
    intros H. specialize (H x eq_refl). exfalso. revert Hx. apply Qle_not_lt. exact H.
  - split; [|reflexivity]. intros _ y [= <-].
    apply Qnot_lt_le. intros Hlt. apply num_lt_iff in Hlt. congruence.
Qed.

Lemma state_part_nil s : state_part s = [] <-> s = None \/ s = Some "".
Proof.
  unfold state_part. destruct s as [x|]; [|split; auto].
  destruct (String.eqb_spec x "") as [->|Hx]; simpl.
  - split; auto.
  - split; [discriminate|]. intros [H|[= H]]; [discriminate|contradiction].
Qed.

Lemma trim_empty : trim "" = "".
Proof. reflexivity. Qed.

Lemma search_part_nil s : search_part s = [] <-> forall t, s = Some t -> trim t = "".
Proof.
  unfold search_part. destruct s as [t|]; [|split; [discriminate|reflexivity]].
  destruct (String.eqb_spec t "") as [->|Ht]; simpl.
  - split; [|reflexivity]. intros _ y [= <-]. reflexivity.
  - destruct (String.eqb_spec (trim t) "") as [Htt|Htt]; simpl.
    + split; [|reflexivity]. intros _ y [= <-]. exact Htt.
    + split; [discriminate|]. intros H. specialize (H t eq_refl). contradiction.
Qed.

(** X15. A filter object whose every key is absent or at its skip value
    (a minimum that is not positive, a maximum at or above its sentinel,
    an empty state, a blank search) builds the very request built without
    filters, and only such an object does. *)
Theorem skip_values_build_the_plain_request (f : ListingFilters) :
  approved_query (Some f) = approved_query None <->
  (forall v, priceMin f = Some v -> (v <= 0)%Q) /\
  (forall v, priceMax f = Some v -> (10000000 <= v)%Q) /\
  (f_state f = None \/ f_state f = Some "") /\
  (forall v, sitesMin f = Some v -> (v <= 0)%Q) /\
  (forall v, sitesMax f = Some v -> (1000 <= v)%Q) /\
  (forall v, capRateMin f = Some v -> (v <= 0)%Q) /\
  (forall v, occupancyRateMin f = Some v -> (v <= 0)%Q) /\
  (forall t, search f = Some t -> trim t = "").
Proof.
  rewrite approved_query_full. split.
  - intros H. apply (f_equal Postgrest.q_filters) in H. simpl in H.
    injection H as H.
    repeat (apply app_eq_nil in H as [? H]).
    repeat split;
      first [ eapply lower_bound_part_nil; eassumption
            | eapply upper_bound_part_nil; eassumption
            | apply state_part_nil; assumption
            | apply search_part_nil; assumption ].
  - intros (H1 & H2 & H3 & H4 & H5 & H6 & H7 & H8).
    apply (lower_bound_part_nil "price") in H1.
    apply (upper_bound_part_nil "price" 10000000%Q) in H2.
    apply state_part_nil in H3.
    apply (lower_bound_part_nil "num_sites") in H4.
    apply (upper_bound_part_nil "num_sites" 1000%Q) in H5.
    apply (lower_bound_part_nil "cap_rate") in H6.
    apply (lower_bound_part_nil "occupancy_rate") in H7.
    apply search_part_nil in H8.
    rewrite H1, H2, H3, H4, H5, H6, H7, H8. reflexivity.
Qed.

Lemma skip_values_build_the_plain_request_witness :
  approved_query
    (Some (mkFilters (Some 0%Q) (Some 10000000%Q) (Some "") (Some 0%Q) (Some 1000%Q)
             (Some 0%Q) (Some 0%Q) (Some "   ")))
  = approved_query None.
Proof.
  apply (skip_values_build_the_plain_request
           (mkFilters (Some 0%Q) (Some 10000000%Q) (Some "") (Some 0%Q) (Some 1000%Q)
              (Some 0%Q) (Some 0%Q) (Some "   "))).
  repeat split; simpl; try (intros v [= <-]; vm_compute; discriminate).
  - right. reflexivity.
  - intros t [= <-]. reflexivity.
Defined.

Lemma elem_of_state_part_iff (f : Postgrest.Filter) s :
  f ∈ state_part s <-> exists x, s = Some x /\ x <> "" /\ f = Postgrest.F_eq "state" x.
Proof.
  unfold state_part. destruct s as [x|].
  - destruct (String.eqb_spec x "") as [->|Hx]; simpl.
    + split; [intros H; inversion H|]. intros (y & [= <-] & Hy & _). contradiction.
    + rewrite list_elem_of_singleton. split.
      * intros ->. eauto.
      * intros (y & [= <-] & _ & ->). reflexivity.
  - split; [intros H; inversion H|]. intros (y & Hy & _). discriminate.
Qed.

Lemma elem_of_approved_query (g : Postgrest.Filter) f :
  g ∈ Postgrest.q_filters (approved_query (Some f)) <->
  g = Postgrest.F_eq "status" "approved" \/
  (exists x, priceMin f = Some x /\ (0 < x)%Q /\ g = Postgrest.F_gte "price" x) \/
  (exists x, priceMax f = Some x /\ (x < 10000000)%Q /\ g = Postgrest.F_lte "price" x) \/
  (exists x, f_state f = Some x /\ x <> "" /\ g = Postgrest.F_eq "state" x) \/
  (exists x, sitesMin f = Some x /\ (0 < x)%Q /\ g = Postgrest.F_gte "num_sites" x) \/
  (exists x, sitesMax f = Some x /\ (x < 1000)%Q /\ g = Postgrest.F_lte "num_sites" x) \/
  (exists x, capRateMin f = Some x /\ (0 < x)%Q /\ g = Postgrest.F_gte "cap_rate" x) \/
  (exists x, occupancyRateMin f = Some x /\ (0 < x)%Q /\
             g = Postgrest.F_gte "occupancy_rate" x) \/
  (exists t, search f = Some t /\ t <> "" /\ trim t <> "" /\
             g = Postgrest.F_or (render_or (search_conditions (trim t)))).
Proof.
  rewrite approved_query_filters.
  rewrite elem_of_cons, !elem_of_app, !elem_of_lower_bound_part,
    !elem_of_upper_bound_part, elem_of_state_part_iff, elem_of_search_part.
  reflexivity.
Qed.

(** X16. The remaining filters follow the same pattern as the price bounds:
    the state filter is present exactly for a non-empty state, the lower
    bounds on sites, cap rate and occupancy exactly for a positive
    minimum, and the upper bound on sites exactly for a maximum below
    1000. *)
Theorem other_filters_applied (f : ListingFilters) (s : string) (v : number) :
  (Postgrest.F_eq "state" s ∈ Postgrest.q_filters (approved_query (Some f)) <->
   f_state f = Some s /\ s <> "") /\
  (Postgrest.F_gte "num_sites" v ∈ Postgrest.q_filters (approved_query (Some f)) <->
   sitesMin f = Some v /\ (0 < v)%Q) /\
  (Postgrest.F_lte "num_sites" v ∈ Postgrest.q_filters (approved_query (Some f)) <->
   sitesMax f = Some v /\ (v < 1000)%Q) /\
  (Postgrest.F_gte "cap_rate" v ∈ Postgrest.q_filters (approved_query (Some f)) <->
   capRateMin f = Some v /\ (0 < v)%Q) /\
  (Postgrest.F_gte "occupancy_rate" v ∈ Postgrest.q_filters (approved_query (Some f)) <->
   occupancyRateMin f = Some v /\ (0 < v)%Q).
Proof.
  rewrite !elem_of_approved_query.
  split; [|split; [|split; [|split]]];
    (split;
     [ intros [H|[(x & ? & ? & H)|[(x & ? & ? & H)|[(x & ? & ? & H)|[(x & ? & ? & H)|
         [(x & ? & ? & H)|[(x & ? & ? & H)|[(x & ? & ? & H)|(x & ? & ? & ? & H)]]]]]]]];
       try discriminate H; injection H as <-; split; assumption
     | ]).
  - intros [? ?]. do 3 right. left. eauto.
  - intros [? ?]. do 4 right. left. eauto.
  - intros [? ?]. do 5 right. left. eauto.
  - intros [? ?]. do 6 right. left. eauto.
  - intros [? ?]. do 7 right. left. eauto.
Qed.

(** X17. Whatever the filters, the request of [fetchApprovedListings] reads
    the [listings] table, begins with the status filter, carries at most
    nine filters, puts its equality and range conditions on no column other
    than status, price, state, num_sites, cap_rate and occupancy_rate (the
    search condition apart), and asks for no order, no
    limit, no single row and no count: the order of the result is the
    store's. *)
Theorem approved_request_shape (filters : option ListingFilters) :
  Postgrest.q_table (approved_query filters) = "listings" /\
  Postgrest.q_columns (approved_query filters) = listing_columns /\
  Postgrest.q_order (approved_query filters) = [] /\
  Postgrest.q_limit (approved_query filters) = None /\
  Postgrest.q_single (approved_query filters) = false /\
  Postgrest.q_head (approved_query filters) = false /\
  Postgrest.q_count (approved_query filters) = None /\
  head (Postgrest.q_filters (approved_query filters))
  = Some (Postgrest.F_eq "status" "approved") /\
  (length (Postgrest.q_filters (approved_query filters)) <= 9)%nat /\
  (forall g column,
     g ∈ Postgrest.q_filters (approved_query filters) ->
     filter_column g = Some column ->
     column ∈ ["status"; "price"; "state"; "num_sites"; "cap_rate"; "occupancy_rate"]).
Proof.
  destruct filters as [f|].
  - rewrite approved_query_full. unfold with_filters. simpl.
    repeat split.
    + rewrite !length_app.
      assert (forall column x, (length (lower_bound_part column x) <= 1)%nat) as Hl
        by (intros column [x|]; simpl; [destruct (num_gt x 0%Q)|]; simpl; lia).
      assert (forall column sentinel x,
                (length (upper_bound_part column sentinel x) <= 1)%nat) as Hu
        by (intros column sentinel [x|]; simpl; [destruct (num_lt x sentinel)|]; simpl; lia).
      assert (forall x, (length (state_part x) <= 1)%nat) as Hs
        by (intros [x|]; simpl; [destruct (negb (String.eqb x ""))|]; simpl; lia).
      assert (forall x, (length (search_part x) <= 1)%nat) as Hq.
      { intros [x|]; simpl; [|lia].
        destruct (negb (String.eqb x "") && negb (String.eqb (trim x) "")); simpl; lia. }
      pose proof (Hl "price" (priceMin f)). pose proof (Hu "price" 10000000%Q (priceMax f)).
      pose proof (Hs (f_state f)). pose proof (Hl "num_sites" (sitesMin f)).
      pose proof (Hu "num_sites" 1000%Q (sitesMax f)). pose proof (Hl "cap_rate" (capRateMin f)).
      pose proof (Hl "occupancy_rate" (occupancyRateMin f)). pose proof (Hq (search f)).
      lia.
    + intros g column Hg Hcol.
      rewrite elem_of_cons, !elem_of_app, !elem_of_lower_bound_part,
        !elem_of_upper_bound_part, elem_of_state_part_iff, elem_of_search_part in Hg.
      destruct Hg as [->|[(x & _ & _ & ->)|[(x & _ & _ & ->)|[(x & _ & _ & ->)|
        [(x & _ & _ & ->)|[(x & _ & _ & ->)|[(x & _ & _ & ->)|[(x & _ & _ & ->)|
        (x & _ & _ & _ & ->)]]]]]]]];
        simpl in Hcol; try discriminate Hcol; injection Hcol as <-;
        rewrite !elem_of_cons; tauto.
  - repeat split; [simpl; lia|].
    intros g column Hg Hcol. simpl in Hg. apply list_elem_of_singleton in Hg as ->.
    injection Hcol as <-. apply list_elem_of_here.
Qed.

Lemma approved_request_shape_witness :
  Postgrest.F_gte "price" 100000%Q
  ∈ Postgrest.q_filters
      (approved_query
         (Some (mkFilters (Some 100000%Q) None None None None None None None))) /\
  "price" ∈ ["status"; "price"; "state"; "num_sites"; "cap_rate"; "occupancy_rate"].
Proof.
  assert (Postgrest.F_gte "price" 100000%Q
          ∈ Postgrest.q_filters
              (approved_query
                 (Some (mkFilters (Some 100000%Q) None None None None None None None))))
    as Hin by (apply list_elem_of_In; right; left; reflexivity).
  split; [exact Hin|].
  destruct (approved_request_shape
              (Some (mkFilters (Some 100000%Q) None None None None None None None)))
    as (_ & _ & _ & _ & _ & _ & _ & _ & _ & Hcolumns).
  apply (Hcolumns (Postgrest.F_gte "price" 100000%Q) "price" Hin eq_refl).
Defined.

(** ** The single-record lookup *)

Lemma client_honours_eq_single db : honours_eq_single (MemStore.client db).
Proof.
  intros q resp row Hq Hd column value Hf. simpl in Hq.
  destruct (forallb MemStore.well_formed (Postgrest.q_filters q));
    [|injection Hq as <-; discriminate Hd].
  destruct (MemStore.select_rows db q) as [|r [|r' rows]] eqn:Hrows;
    injection Hq as <-; simpl in Hd; try discriminate Hd.
  injection Hd as <-.
  assert (r ∈ MemStore.select_rows db q) as Hr by (rewrite Hrows; apply list_elem_of_here).
  apply select_rows_elem in Hr as [_ Hall].
  rewrite forallb_forall in Hall.
  specialize (Hall _ (proj1 (list_elem_of_In _ _) Hf)). simpl in Hall.
  destruct (text_column column r) as [x|]; [|discriminate].
  apply String.eqb_eq in Hall. congruence.
Qed.

(** X18. [fetchApprovedListingById] returns a record exactly when the store
    answers the request without error with a row and that row normalizes;
    in every other case (rejection, error, no row, a failing image) it
    returns null.  When the store honours the equality filters of the
    request, the record returned has the key asked for and status
    [approved]. *)
Theorem by_id_returns_the_row_asked_for (c : SupabaseClient) (now : string)
    (key : string) (item : Listing) :
  Postgrest.q_filters (by_id_query key)
  = [Postgrest.F_eq "id" key; Postgrest.F_eq "status" "approved"] /\
  (fetchApprovedListingById c now key = Ret (Some item) <->
   exists resp row,
     await_single c (by_id_query key) = Ret resp /\
     Postgrest.error resp = None /\
     Postgrest.data resp = Some row /\
     by_id_item c now row = Ret item) /\
  (honours_eq_single c ->
   fetchApprovedListingById c now key = Ret (Some item) ->
   id item = key /\ status item = "approved" /\ featured item = false).
Proof.
  assert (fetchApprovedListingById c now key = Ret (Some item) <->
          exists resp row,
            await_single c (by_id_query key) = Ret resp /\
            Postgrest.error resp = None /\
            Postgrest.data resp = Some row /\
            by_id_item c now row = Ret item) as Hiff.
  { unfold_operation.
    destruct (await_single c (by_id_query key)) as [resp|e]; simpl.
    - destruct (Postgrest.error resp) as [err|] eqn:He.
      + split; [discriminate|]. intros (resp' & row & [= <-] & He' & _). congruence.
      + destruct (Postgrest.data resp) as [row|] eqn:Hd.
        * destruct (by_id_item c now row) as [item'|e] eqn:Hitem; simpl.
          -- split.
             ++ intros [= ->]. exists resp, row. auto.
             ++ intros (resp' & row' & [= <-] & _ & Hd' & Hitem').
                rewrite Hd in Hd'. injection Hd' as <-. congruence.
          -- split; [discriminate|].
             intros (resp' & row' & [= <-] & _ & Hd' & Hitem').
             rewrite Hd in Hd'. injection Hd' as <-. congruence.
        * split; [discriminate|]. intros (resp' & row & [= <-] & _ & Hd' & _). congruence.
    - split; [discriminate|]. intros (resp & row & H & _). discriminate. }
  split; [reflexivity|]. split; [exact Hiff|].
  intros Hstore Hfetch. apply Hiff in Hfetch as (resp & row & Hq & He & Hd & Hitem).
  pose proof (Hstore _ resp row Hq Hd "id" key) as Hid.
  pose proof (Hstore _ resp row Hq Hd "status" "approved") as Hstatus.
  change (text_column "id" row) with (Some (r_id row)) in Hid.
  change (text_column "status" row) with (r_status row) in Hstatus.
  rewrite by_id_item_as_approved, approved_item_shape in Hitem.
  unfold mbind, completion_bind in Hitem.
  destruct (resolve_all c (image_rows row)); simpl in Hitem; [|discriminate].
  injection Hitem as <-. simpl.
  split; [|split; [|reflexivity]].
  - specialize (Hid ltac:(simpl; rewrite !elem_of_cons; auto)). congruence.
  - rewrite Hstatus; [reflexivity|]. simpl. rewrite !elem_of_cons. auto.
Qed.

Lemma by_id_returns_the_row_asked_for_witness :
  honours_eq_single (MemStore.client MemStore.table) /\
  exists item,
    fetchApprovedListingById (MemStore.client MemStore.table) "2024-08-01T00:00:00.000Z" "b2"
    = Ret (Some item) /\
    id item = "b2" /\ status item = "approved" /\ featured item = false.
Proof.
  split; [apply client_honours_eq_single|].
  eexists. split; [reflexivity|].
  apply (by_id_returns_the_row_asked_for (MemStore.client MemStore.table)
           "2024-08-01T00:00:00.000Z" "b2");
    [apply client_honours_eq_single|reflexivity].
Defined.

(** ** The order of the result *)

Lemma approved_item_id c now r item : approved_item c now r = Ret item -> id item = r_id r.
Proof.
  rewrite approved_item_shape. unfold mbind, completion_bind.
  destruct (resolve_all c (image_rows r)); simpl; [|discriminate].
  intros [= <-]. reflexivity.
Qed.

Lemma omap_attempt_ids c now (rows : list RawListing) :
  map id (omap (attempt (approved_item c now)) rows) `sublist_of` map r_id rows.
Proof.
  induction rows as [|r rows IH]; [constructor|].
  change (omap (attempt (approved_item c now)) (r :: rows))
    with (match attempt (approved_item c now) r with
          | Some y => y :: omap (attempt (approved_item c now)) rows
          | None => omap (attempt (approved_item c now)) rows
          end).
  unfold attempt at 1.
  destruct (approved_item c now r) as [item|e] eqn:Hitem; simpl.
  - rewrite (approved_item_id c now r item Hitem). apply sublist_skip. exact IH.
  - apply sublist_cons. exact IH.
Qed.

Lemma omap_attempt_total c now (rows : list RawListing) :
  (forall bucket path, exists url, getPublicUrl c bucket path = Ret url) ->
  map id (omap (attempt (approved_item c now)) rows) = map r_id rows.
Proof.
  intros Htotal.
  assert (forall imgs, exists urls, resolve_all c imgs = Ret urls) as Hall.
  { induction imgs as [|img imgs [urls IH]]; [exists []; reflexivity|].
    destruct (Htotal "listing-images" (storage_path img)) as [url Hurl].
    exists (url :: urls). unfold resolve_all in *. simpl. rewrite Hurl. simpl.
    rewrite IH. reflexivity. }
  induction rows as [|r rows IH]; [reflexivity|].
  change (omap (attempt (approved_item c now)) (r :: rows))
    with (match attempt (approved_item c now) r with
          | Some y => y :: omap (attempt (approved_item c now)) rows
          | None => omap (attempt (approved_item c now)) rows
          end).
  unfold attempt at 1.
  destruct (approved_item c now r) as [item|e] eqn:Hitem.
  - simpl. rewrite IH, (approved_item_id c now r item Hitem). reflexivity.
  - exfalso. rewrite approved_item_shape in Hitem. unfold mbind, completion_bind in Hitem.
    destruct (Hall (image_rows r)) as [urls Hurls]. rewrite Hurls in Hitem.
    discriminate Hitem.
Qed.

(** X19. The records of [fetchApprovedListings] come in the order of the
    rows the store answered, each with the key of its row: their keys are
    a subsequence of the row keys, and when the storage service resolves
    every path they are exactly the row keys, one record per row. *)
Theorem result_follows_the_rows (c : SupabaseClient) (now : string)
    (filters : option ListingFilters) (resp : Postgrest.Response (list RawListing))
    (rows : list RawListing) :
  await_rows c (approved_query filters) = Ret resp ->
  Postgrest.error resp = None ->
  Postgrest.data resp = Some rows ->
  exists ls,
    fetchApprovedListings c now filters = Ret ls /\
    map id ls `sublist_of` map r_id rows /\
    ((forall bucket path, exists url, getPublicUrl c bucket path = Ret url) ->
     map id ls = map r_id rows).
Proof.
  intros Hq He Hd. eexists.
  split; [apply (fetchApprovedListings_rows c now filters resp rows Hq He Hd)|].
  split; [apply omap_attempt_ids|apply omap_attempt_total].
Qed.

Lemma result_follows_the_rows_witness :
  exists ls,
    fetchApprovedListings (MemStore.client MemStore.table) "2024-08-01T00:00:00.000Z" None
    = Ret ls /\
    map id ls `sublist_of` ["a1"; "b2"; "c3"; "d4"].
Proof.
  destruct (result_follows_the_rows (MemStore.client MemStore.table)
              "2024-08-01T00:00:00.000Z" None
              (Postgrest.mkResponse
                 (Some [MemStore.lakeside; MemStore.pines; MemStore.austin_street;
                        MemStore.broken]) None None)
              [MemStore.lakeside; MemStore.pines; MemStore.austin_street; MemStore.broken]
              eq_refl eq_refl eq_refl) as (ls & Hls & Hsub & _).
  exists ls. split; [exact Hls|exact Hsub].
Defined.

(** ** The newsletter form *)

(** Run a handler down to its trace. *)
Ltac run_trace :=
  cbv [Traced.trace Traced.outcome Traced.finally Traced.try_catch Traced.bind Traced.emit
       Traced.await Traced.throw Traced.ret mbind mret traced_bind traced_ret
       Subscribe.resetCaptcha fst snd app];
  simpl.

(** Membership in a computed trace, proved or refuted by inspection. *)
Ltac prove_in := simpl; repeat (first [left; reflexivity | right]).
Ltac refute_in H :=
  exfalso; simpl in H; repeat (destruct H as [H|H]; [discriminate H|]); exact H.

(** Case analysis on what the store answers to a submission. *)
Ltac subscribe_cases svc email now :=
  destruct (Subscribe.select_single svc (JsText.toLowerCase email))
    as [[[row|] [err|]]|ex];
  run_trace;
  repeat match goal with
         | |- context [String.eqb (Postgrest.code ?x) "PGRST116"] =>
             destruct (String.eqb (Postgrest.code x) "PGRST116")
         end;
  run_trace;
  repeat match goal with
         | |- context [Subscribe.update svc ?x] =>
             destruct (Subscribe.update svc x) as [[uerr|]|ex']
         | |- context [Subscribe.insert svc ?x ?y] =>
             destruct (Subscribe.insert svc x y) as [[ierr|]|ex']
         end;
  run_trace.



(** X21. Once the checks pass, the handler never throws and always ends by
    switching the submitting flag off; it looks the lower-cased address up
    first, then updates when a row was found and inserts when none was
    (the code for "no rows" counts as none), and sends nothing more when
    the lookup failed. *)
Theorem subscription_requests (svc : Subscribe.Service) (re_test : string -> bool)
    (now : string) (captchaMounted e : bool) (email : string)
    (captchaToken : option string) :
  JsString.truthy email && Subscribe.isValidEmail re_test email
  && str_truthy captchaToken = true ->
  Traced.outcome
    (Subscribe.handleSubscribe svc re_test now captchaMounted e email captchaToken)
  = Ret tt /\
  last (Traced.trace
          (Subscribe.handleSubscribe svc re_test now captchaMounted e email captchaToken))
  = Some (Subscribe.SetIsSubmittingEmail false) /\
  List.filter Subscribe.is_request
    (Traced.trace
       (Subscribe.handleSubscribe svc re_test now captchaMounted e email captchaToken))
  = Subscribe.SelectSubscription (JsText.toLowerCase email)
    :: match Subscribe.select_single svc (JsText.toLowerCase email) with
       | Ret (existingEmails, checkError) =>
           if Subscribe.lookup_passes checkError then
             match existingEmails with
             | Some _ => [Subscribe.UpdateSubscription (JsText.toLowerCase email)]
             | None => [Subscribe.InsertSubscription (JsText.toLowerCase email) now]
             end
           else []
       | Throw _ => []
       end.
Proof.
  unfold Subscribe.handleSubscribe, Subscribe.lookup_passes.
  rewrite !andb_true_iff. intros [[-> ->] ->].
  simpl negb. simpl orb. cbv iota.
  destruct captchaMounted, e; subscribe_cases svc email now;
    repeat split; reflexivity.
Qed.

Lemma subscription_requests_witness :
  List.filter Subscribe.is_request
    (Traced.trace
       (Subscribe.handleSubscribe Samples.empty_list Samples.contains_at
          "2024-08-01T00:00:00.000Z" true true "Ann@Example.com" (Some "token")))
  = [Subscribe.SelectSubscription "ann@example.com";
     Subscribe.InsertSubscription "ann@example.com" "2024-08-01T00:00:00.000Z"].
Proof.
  destruct (subscription_requests Samples.empty_list Samples.contains_at
              "2024-08-01T00:00:00.000Z" true true "Ann@Example.com" (Some "token"))
    as (_ & _ & Hrequests); [reflexivity|].
  exact Hrequests.
Defined.

(** X22. A submission that passed the checks succeeds exactly when every
    request it sent was answered without objection: then, and only then,
    the address field is cleared, and otherwise, and only otherwise, the
    failure toast is shown; either way the captcha token is dropped.  The
    success flag is raised only for an address that was not yet stored. *)
Theorem subscription_result (svc : Subscribe.Service) (re_test : string -> bool)
    (now : string) (captchaMounted e : bool) (email : string)
    (captchaToken : option string) :
  JsString.truthy email && Subscribe.isValidEmail re_test email
  && str_truthy captchaToken = true ->
  let steps :=
    Traced.trace
      (Subscribe.handleSubscribe svc re_test now captchaMounted e email captchaToken) in
  (In (Subscribe.SetEmail "") steps <-> Subscribe.goes_through svc now email = true) /\
  (In (Subscribe.Toast "Subscription failed"
         "There was a problem with your subscription. Please try again."
         (Some "destructive")) steps <->
   Subscribe.goes_through svc now email = false) /\
  In (Subscribe.SetCaptchaToken None) steps /\
  (In (Subscribe.SetSubscriptionSuccess true) steps <->
   Subscribe.goes_through svc now email = true /\
   exists checkError,
     Subscribe.select_single svc (JsText.toLowerCase email) = Ret (None, checkError)).
Proof.
  unfold Subscribe.handleSubscribe, Subscribe.goes_through, Subscribe.lookup_passes.
  rewrite !andb_true_iff. intros [[-> ->] ->].
  simpl negb. simpl orb. cbv iota.
  destruct captchaMounted, e; subscribe_cases svc email now;
    ((split; [|split; [|split]]);
    [ split; intros H;
      first [ reflexivity | discriminate H | solve [prove_in] | solve [refute_in H] ]
    | split; intros H;
      first [ reflexivity | discriminate H | solve [prove_in] | solve [refute_in H] ]
    | solve [prove_in]
    | split;
      [ intros H;
        first [ solve [refute_in H] | split; [reflexivity|eexists; reflexivity] ]
      | intros [Hb [checkError Hsel]];
        first [ discriminate Hb | discriminate Hsel | solve [prove_in] ] ] ]).
Qed.

Lemma subscription_result_witness :
  In (Subscribe.SetSubscriptionSuccess true)
    (Traced.trace
       (Subscribe.handleSubscribe Samples.empty_list Samples.contains_at
          "2024-08-01T00:00:00.000Z" true true "Ann@Example.com" (Some "token"))).
Proof.
  destruct (subscription_result Samples.empty_list Samples.contains_at
              "2024-08-01T00:00:00.000Z" true true "Ann@Example.com" (Some "token"))
    as (_ & _ & _ & Hsuccess); [reflexivity|].
  apply Hsuccess. split; [reflexivity|]. eexists. reflexivity.
Defined.

(** ** The profile page *)

Lemma includes_iff (arr : list string) (x : string) :
  JsString.includes arr x = true <-> x ∈ arr.
Proof.
  unfold JsString.includes. rewrite existsb_exists. split.
  - intros (y & Hy & ->%String.eqb_eq). apply list_elem_of_In. exact Hy.
  - intros Hx. exists x. split; [apply list_elem_of_In; exact Hx|apply String.eqb_refl].
Qed.

(** X23. A selected file reaches the upload exactly when it is the first
    of the selection, its type is one of the four image types and it is no
    larger than 5 MiB, and then it is also previewed; a first file that
    fails a check produces one destructive toast and nothing else, and an
    empty selection does nothing. *)
Theorem only_valid_images_are_uploaded (files : option (list Profile.File))
    (file : Profile.File) :
  (In (Profile.UploadProfileImage file) (Profile.handleImageSelect files) <->
   (exists rest, files = Some (file :: rest)) /\
   Profile.file_type file ∈ Profile.validTypes /\
   (Profile.file_size file <= 5242880)%Z) /\
  (In (Profile.UploadProfileImage file) (Profile.handleImageSelect files) ->
   Profile.handleImageSelect files
   = [Profile.ReadAsDataURL file; Profile.UploadProfileImage file]) /\
  ((exists rest, files = Some (file :: rest)) ->
   ~ In (Profile.UploadProfileImage file) (Profile.handleImageSelect files) ->
   exists title description,
     Profile.handleImageSelect files
     = [Profile.Toast title description (Some "destructive")]) /\
  (files = None \/ files = Some [] -> Profile.handleImageSelect files = []).
Proof.
  unfold Profile.handleImageSelect.
  destruct files as [[|first rest]|]; cbn [head In].
  - repeat split; try tauto; try (intros [r H]; discriminate H).
    intros ([r H] & _). discriminate H.
  - destruct (JsString.includes Profile.validTypes (Profile.file_type first)) eqn:Htype;
      cbn [negb In].
    + destruct (Z.gtb_spec (Profile.file_size first) Profile.maxSize) as [Hsize|Hsize];
        cbn [In].
      * split; [|split; [|split]].
        -- split; [intros [H|[]]; discriminate H|].
           intros ((r & [= <- <-]) & _ & Hle). unfold Profile.maxSize in Hsize. lia.
        -- intros [H|[]]. discriminate H.
        -- intros _ _. eauto.
        -- intros [H|H]; discriminate H.
      * split; [|split; [|split]].
        -- split.
           ++ intros [H|[H|[]]]; [discriminate H|]. injection H as <-.
              split; [eauto|]. split; [apply includes_iff; exact Htype|].
              unfold Profile.maxSize in Hsize. lia.
           ++ intros ((r & [= <- <-]) & _). right. left. reflexivity.
        -- intros [H|[H|[]]]; [discriminate H|]. injection H as <-. reflexivity.
        -- intros (r & [= <- <-]) Hnot. exfalso. apply Hnot. right. left. reflexivity.
        -- intros [H|H]; discriminate H.
    + split; [|split; [|split]].
      * split; [intros [H|[]]; discriminate H|].
        intros ((r & [= <- <-]) & Hin & _). apply includes_iff in Hin. congruence.
      * intros [H|[]]. discriminate H.
      * intros _ _. eauto.
      * intros [H|H]; discriminate H.
  - repeat split; try tauto; try (intros [r H]; discriminate H).
    intros ([r H] & _). discriminate H.
Qed.

Lemma only_valid_images_are_uploaded_witness :
  Profile.handleImageSelect (Some [Samples.photo])
  = [Profile.ReadAsDataURL Samples.photo; Profile.UploadProfileImage Samples.photo].
Proof.
  destruct (only_valid_images_are_uploaded (Some [Samples.photo]) Samples.photo)
    as (Hiff & Hboth & _).
  apply Hboth, Hiff. split; [exists []; reflexivity|].
  split; [|vm_compute; discriminate].
  apply includes_iff. reflexivity.
Defined.

Lemma after_last_free sep s acc :
  MemStore.free_of sep acc = true ->
  MemStore.free_of sep (JsText.after_last sep s acc) = true.
Proof.
  revert acc. induction s as [|ch s IH]; intros acc Hacc; simpl; [exact Hacc|].
  destruct (Ascii.eqb ch sep) eqn:Hch.
  - apply IH. reflexivity.
  - apply IH. rewrite free_of_append, Hacc. unfold MemStore.free_of. simpl.
    rewrite Hch. reflexivity.
Qed.

Lemma after_last_plain sep s acc :
  MemStore.free_of sep s = true -> JsText.after_last sep s acc = acc +:+ s.
Proof.
  unfold MemStore.free_of. revert acc.
  induction s as [|ch s IH]; intros acc Hfree; simpl in *.
  - symmetry. apply string_append_nil_r.
  - apply andb_true_iff in Hfree as [Hch Hfree].
    apply negb_true_iff in Hch. rewrite Hch, (IH _ Hfree).
    apply string_append_assoc.
Qed.

Lemma after_last_append sep stem ext acc :
  MemStore.free_of sep ext = true ->
  JsText.after_last sep (stem +:+ String sep ext) acc = ext.
Proof.
  intros Hfree. revert acc. induction stem as [|ch stem IH]; intros acc.
  - change (JsText.after_last sep (String sep ext) acc = ext). simpl.
    rewrite Ascii.eqb_refl. apply (after_last_plain sep ext "" Hfree).
  - change (JsText.after_last sep (String ch (stem +:+ String sep ext)) acc = ext).
    simpl. destruct (Ascii.eqb ch sep); apply IH.
Qed.

Lemma split_pop_append stem ext :
  MemStore.free_of "."%char ext = true ->
  JsText.split_pop "." (stem +:+ "." +:+ ext) = ext.
Proof. intros Hfree. apply (after_last_append "."%char stem ext "" Hfree). Qed.

Lemma lower_char_facts ch :
  JsText.lower_char (JsText.lower_char ch) = JsText.lower_char ch /\
  Ascii.eqb (JsText.lower_char ch) "."%char = Ascii.eqb ch "."%char.
Proof. destruct ch as [[] [] [] [] [] [] [] []]; split; reflexivity. Qed.

Lemma toLowerCase_idempotent s :
  JsText.toLowerCase (JsText.toLowerCase s) = JsText.toLowerCase s.
Proof.
  induction s as [|ch s IH]; [reflexivity|]. simpl.
  rewrite IH, (proj1 (lower_char_facts ch)). reflexivity.
Qed.

Lemma toLowerCase_free_of_dot s :
  MemStore.free_of "."%char (JsText.toLowerCase s) = MemStore.free_of "."%char s.
Proof.
  unfold MemStore.free_of. induction s as [|ch s IH]; [reflexivity|]. simpl.
  rewrite IH, (proj2 (lower_char_facts ch)). reflexivity.
Qed.

Lemma last_dot_split (s : string) :
  exists ext,
    MemStore.free_of "."%char ext = true /\
    (s = ext \/ exists stem, s = stem +:+ "." +:+ ext).
Proof.
  induction s as [|ch s (ext & Hfree & [->|[stem ->]])].
  - exists "". split; [reflexivity|]. left. reflexivity.
  - destruct (Ascii.eqb ch "."%char) eqn:Hch.
    + apply Ascii.eqb_eq in Hch as ->.
      exists ext. split; [exact Hfree|]. right. exists "". reflexivity.
    + exists (String ch ext). split; [|left; reflexivity].
      unfold MemStore.free_of in *. simpl. rewrite Hch, Hfree. reflexivity.
  - exists ext. split; [exact Hfree|]. right. exists (String ch stem). reflexivity.
Qed.

Lemma toLowerCase_truthy (s : string) :
  JsString.truthy (JsText.toLowerCase s) = negb (String.eqb s "").
Proof. destruct s; reflexivity. Qed.

(** X24. Every profile image is stored under the folder of its user, as
    [profile_<user>_<start of the fresh identifier>.<extension>].  The
    extension is never empty, contains no dot and is in lower case.  It is
    decided by the file name, which is either free of dots or ends in a
    dot followed by a dot-free rest: the extension is that rest in lower
    case, the whole name in lower case when the name has no dot, and [jpg]
    when the rest or the name is empty. *)
Theorem upload_path_shape (user_id uuid : string) (file : Profile.File) :
  Profile.filePath user_id uuid file
  = user_id +:+ "/profile_" +:+ user_id +:+ "_" +:+ JsText.first_chars 8 uuid
    +:+ "." +:+ Profile.fileExt file /\
  JsString.startsWith (Profile.filePath user_id uuid file) (user_id +:+ "/") = true /\
  JsString.endsWith (Profile.filePath user_id uuid file) ("." +:+ Profile.fileExt file)
  = true /\
  Profile.fileExt file <> "" /\
  MemStore.free_of "."%char (Profile.fileExt file) = true /\
  JsText.toLowerCase (Profile.fileExt file) = Profile.fileExt file /\
  (forall stem ext,
     Profile.file_name file = stem +:+ "." +:+ ext ->
     MemStore.free_of "."%char ext = true -> ext <> "" ->
     Profile.fileExt file = JsText.toLowerCase ext) /\
  (forall stem,
     Profile.file_name file = stem +:+ "." -> Profile.fileExt file = "jpg") /\
  (MemStore.free_of "."%char (Profile.file_name file) = true ->
   Profile.fileExt file
   = if String.eqb (Profile.file_name file) "" then "jpg"
     else JsText.toLowerCase (Profile.file_name file)) /\
  (exists ext,
     MemStore.free_of "."%char ext = true /\
     (Profile.file_name file = ext \/
      exists stem, Profile.file_name file = stem +:+ "." +:+ ext)).
Proof.
  split; [reflexivity|].
  split; [unfold Profile.filePath; apply startsWith_iff;
          rewrite <- string_append_assoc; eauto|].
  split.
  { unfold Profile.filePath, Profile.fileName. apply endsWith_iff.
    exists (user_id +:+ "/profile_" +:+ user_id +:+ "_" +:+ JsText.first_chars 8 uuid).
    rewrite !string_append_assoc. reflexivity. }
  assert (forall stem ext,
            Profile.file_name file = stem +:+ "." +:+ ext ->
            MemStore.free_of "."%char ext = true ->
            Profile.fileExt file
            = if String.eqb ext "" then "jpg" else JsText.toLowerCase ext) as Hdotted.
  { intros stem ext Hname Hfree. unfold Profile.fileExt.
    rewrite Hname, (split_pop_append stem ext Hfree), toLowerCase_truthy.
    destruct (String.eqb ext ""); reflexivity. }
  assert (MemStore.free_of "."%char (Profile.file_name file) = true ->
          Profile.fileExt file
          = if String.eqb (Profile.file_name file) "" then "jpg"
            else JsText.toLowerCase (Profile.file_name file)) as Hplain.
  { intros Hfree. unfold Profile.fileExt, JsText.split_pop.
    rewrite (after_last_plain _ _ "" Hfree), toLowerCase_truthy.
    change ("" +:+ Profile.file_name file) with (Profile.file_name file).
    destruct (String.eqb (Profile.file_name file) ""); reflexivity. }
  assert (Profile.fileExt file <> "" /\
          MemStore.free_of "."%char (Profile.fileExt file) = true /\
          JsText.toLowerCase (Profile.fileExt file) = Profile.fileExt file) as Hshape.
  { unfold Profile.fileExt.
    destruct (JsString.truthy (JsText.toLowerCase
                (JsText.split_pop "." (Profile.file_name file)))) eqn:Ht.
    - split.
      { intros Hempty. rewrite Hempty in Ht. discriminate Ht. }
      split; [|apply toLowerCase_idempotent].
      rewrite toLowerCase_free_of_dot. apply after_last_free. reflexivity.
    - split; [discriminate|]. split; reflexivity. }
  destruct Hshape as (Hne & Hfree & Hlower).
  split; [exact Hne|]. split; [exact Hfree|]. split; [exact Hlower|].
  split.
  { intros stem ext Hname Hext Hnonempty. rewrite (Hdotted stem ext Hname Hext).
    apply String.eqb_neq in Hnonempty. rewrite Hnonempty. reflexivity. }
  split.
  { intros stem Hname. apply (Hdotted stem ""); [exact Hname|reflexivity]. }
  split; [exact Hplain|].
  apply last_dot_split.
Qed.

Lemma upload_path_shape_witness :
  Profile.fileExt Samples.photo = "jpg" /\
  Profile.filePath "u1" "0a1b2c3d-0000-4000-8000-000000000000" Samples.photo
  = "u1/profile_u1_0a1b2c3d.jpg".
Proof.
  destruct (upload_path_shape "u1" "0a1b2c3d-0000-4000-8000-000000000000" Samples.photo)
    as (Hpath & _ & _ & _ & _ & _ & Hext & _).
  split; [|exact Hpath].
  apply (Hext "Me.Holiday" "JPG"); [reflexivity|reflexivity|discriminate].
Defined.

(** The steps between the first two and the last two of a computed trace. *)
Ltac find_steps :=
  first [ exists []; reflexivity | eexists [_]; reflexivity
        | eexists [_; _]; reflexivity | eexists [_; _; _]; reflexivity
        | eexists [_; _; _; _]; reflexivity | eexists [_; _; _; _; _]; reflexivity ].

(** X25. Deleting the profile image never throws and does nothing without
    a signed-in user and a current image.  Otherwise it raises the
    deleting flag, asks the storage to remove the stored object, and ends
    by lowering the flag and closing the dialog whatever happened in
    between.  The deletion of the database row is requested whenever the
    storage answered, also when it answered with an error; the image is cleared from the
    page exactly when the database then answered without an error, and in
    every other case the failure toast is shown instead. *)
Theorem profile_image_deletion (svc : Profile.DeleteService) (user : bool)
    (profileImage : option Profile.ProfileImage) :
  let run := Profile.deleteProfileImage svc user profileImage in
  Traced.outcome run = Ret tt /\
  (user = false \/ profileImage = None -> Traced.trace run = []) /\
  (forall image, user = true -> profileImage = Some image ->
     let answered :=
       exists storageError,
         Profile.storage_remove svc [Profile.storage_path image] = Ret storageError in
     let deleted := Profile.db_delete svc (Profile.image_id image) = Ret None in
     (exists steps,
        Traced.trace run
        = Profile.SetIsDeletingImage true
          :: Profile.StorageRemove "profile-images" [Profile.storage_path image]
          :: steps
          ++ [Profile.SetIsDeletingImage false; Profile.SetIsDeleteDialogOpen false]) /\
     (In (Profile.DbDelete "profile_images" (Profile.image_id image)) (Traced.trace run)
      <-> answered) /\
     (In (Profile.SetProfileImage None) (Traced.trace run) <-> answered /\ deleted) /\
     (In (Profile.Toast "Delete failed"
            "There was a problem deleting your image. Please try again."
            (Some "destructive")) (Traced.trace run)
      <-> ~ (answered /\ deleted))).
Proof.
  unfold Profile.deleteProfileImage.
  destruct user, profileImage as [image|]; cbn zeta;
    try (split; [reflexivity|]; split; [reflexivity|]; intros image' Hu Hi;
         discriminate).
  destruct (Profile.storage_remove svc [Profile.storage_path image])
    as [[storageError|]|ex] eqn:Hstorage;
    run_trace;
    try destruct (Profile.db_delete svc (Profile.image_id image))
      as [[dbError|]|ex'] eqn:Hdb;
    run_trace;
    (split; [reflexivity|]); (split; [intros [H|H]; discriminate H|]);
    intros image' _ [= <-]; rewrite ?Hstorage, ?Hdb;
    (split; [find_steps|]).
  all: (split; [|split]); split; intros H;
    first [ solve [prove_in] | solve [refute_in H] | solve [eauto]
          | solve [split; eauto]
          | solve [destruct H as [[? Hs] Hd]; first [discriminate Hs | discriminate Hd]]
          | solve [destruct H as [? Hs]; discriminate Hs]
          | solve [intros [[? Hs] Hd]; first [discriminate Hs | discriminate Hd]]
          | solve [exfalso; apply H; split; eauto] ].
Qed.

Lemma profile_image_deletion_witness :
  In (Profile.SetProfileImage None)
    (Traced.trace (Profile.deleteProfileImage Samples.storage_down true (Some Samples.avatar))).
Proof.
  destruct (profile_image_deletion Samples.storage_down true (Some Samples.avatar))
    as (_ & _ & Himage).
  destruct (Himage Samples.avatar eq_refl eq_refl) as (_ & _ & Hcleared & _).
  apply Hcleared. split; [eexists; reflexivity|reflexivity].
Defined.
